(** * yt-scanner: the multi-stream analysis coordination engine

    A shallow embedding of the gift-code pattern validator
    ([src/services/analysis/giftcode.ts]), the three detector adapters
    ([audio.ts], [transcript.ts], [video.ts]) and the process coordinator
    with its result aggregator ([ProcessCoordinator]), followed by the
    properties of the specification that concern them.

    Conventions of the embedding.
    - A JavaScript [number] is a rational ([Q]), the exact value of the
      double; numeric equality is [==].  [NaN] and the infinities are not
      modelled.  Arithmetic is exact, except where a result can depend on
      the rounding of doubles by more than a unit in the last place: the
      overall confidence is computed with [Binary64], the arithmetic of
      doubles.
    - A JavaScript string is a [string] of 7-bit ASCII characters; the
      character classes and [toUpperCase] below are exact on that range.
    - [Date.now()] is an oracle: each call site receives its reading as a
      parameter or reads it off a clock function.
    - An [await]ed provider call is its outcome, a value or a thrown error
      ([Exc]); logging has no effect on results and is left out. *)

From Stdlib Require Import ZArith QArith Qminmax Qround Qpower String Ascii List
  Bool Lia Lqa Permutation.
From stdpp Require Import base gmap strings list.
Import ListNotations.

Open Scope string_scope.
Open Scope list_scope.

(* ===================================================================== *)
(** * Part I. Definitions *)
(* ===================================================================== *)

(** ** JavaScript strings and the fixed-width patterns of giftcode.ts *)

Module JS.

Definition code (c : ascii) : N := N_of_ascii c.

Definition in_range (lo hi : N) (c : ascii) : bool :=
  ((lo <=? code c) && (code c <=? hi))%N.

Definition is_lower (c : ascii) : bool := in_range 97 122 c.
Definition is_upper (c : ascii) : bool := in_range 65 90 c.
Definition is_digit (c : ascii) : bool := in_range 48 57 c.

(** [String.prototype.toUpperCase] on ASCII text, one character at a
    time.  The model is the function of JavaScript on texts of 7-bit
    characters only: outside ASCII, JavaScript also maps other letters
    and can lengthen the text (U+00DF becomes SS). *)
Definition toUpperCase_char (c : ascii) : ascii :=
  if is_lower c then ascii_of_N (code c - 32) else c.

Fixpoint toUpperCase (s : string) : string :=
  match s with
  | EmptyString => EmptyString
  | String c s' => String (toUpperCase_char c) (toUpperCase s')
  end.

(** [String.prototype.toLowerCase], likewise on ASCII text. *)
Definition toLowerCase_char (c : ascii) : ascii :=
  if is_upper c then ascii_of_N (code c + 32) else c.

Fixpoint toLowerCase (s : string) : string :=
  match s with
  | EmptyString => EmptyString
  | String c s' => String (toLowerCase_char c) (toLowerCase s')
  end.

(** The class [[A-Z0-9]]. *)
Definition alnum (c : ascii) : bool := is_upper c || is_digit c.

(** The class [\s]: tab, line feed, vertical tab, form feed, carriage
    return and space. *)
Definition space (c : ascii) : bool := in_range 9 13 c || (code c =? 32)%N.

Definition is_char (a : ascii) (c : ascii) : bool := Ascii.eqb a c.

(** The class [[_-]]. *)
Definition underscore_or_hyphen (c : ascii) : bool :=
  is_char "_" c || is_char "-" c.

(** The class [[-_\s]] of separators. *)
Definition separator (c : ascii) : bool :=
  is_char "-" c || is_char "_" c || space c.

(** [.] matches everything but a line terminator. *)
Definition dot (c : ascii) : bool :=
  negb ((code c =? 10)%N || (code c =? 13)%N).

(** [s.replace(/[cls]/g, '')]. *)
Fixpoint remove (cls : ascii -> bool) (s : string) : string :=
  match s with
  | EmptyString => EmptyString
  | String c s' => if cls c then remove cls s' else String c (remove cls s')
  end.

(** [s.includes(needle)]. *)
Fixpoint includes (needle s : string) : bool :=
  if String.prefix needle s then true
  else match s with
       | EmptyString => false
       | String _ s' => includes needle s'
       end.

(** [s.includes(c)] for a one-character needle. *)
Fixpoint includes_char (c : ascii) (s : string) : bool :=
  match s with
  | EmptyString => false
  | String d s' => Ascii.eqb c d || includes_char c s'
  end.

(** A pattern that is a sequence of character classes: the text it
    matches at the head of [s], if any. *)
Fixpoint match_prefix (cls : list (ascii -> bool)) (s : string) : option string :=
  match cls with
  | [] => Some EmptyString
  | p :: cls' =>
      match s with
      | EmptyString => None
      | String c s' =>
          if p c then option_map (String c) (match_prefix cls' s') else None
      end
  end.

(** [/^...$/.test(s)]. *)
Definition test_anchored (cls : list (ascii -> bool)) (s : string) : bool :=
  match match_prefix cls s with
  | Some m => (String.length m =? String.length s)%nat
  | None => false
  end.

(** The loop [while ((match = pattern.exec(text)) !== null)] of a global
    pattern started at [lastIndex = 0]: the leftmost match, then the
    search resumes after its last character.  [skip] counts the
    characters of the previous match that are still to be passed. *)
Fixpoint exec_all (cls : list (ascii -> bool)) (skip : nat) (s : string) : list string :=
  match s with
  | EmptyString => []
  | String _ s' =>
      match skip with
      | S k => exec_all cls k s'
      | O =>
          match match_prefix cls s with
          | Some m => m :: exec_all cls (Nat.pred (String.length m)) s'
          | None => exec_all cls 0 s'
          end
      end
  end.

(** [/(.)\1{3,}/.test(s)]: some character other than a line terminator
    occurs four times in a row. *)
Definition run4_here (s : string) : bool :=
  match s with
  | String a (String b (String c (String d _))) =>
      dot a && Ascii.eqb a b && Ascii.eqb a c && Ascii.eqb a d
  | _ => false
  end.

Fixpoint has_run4 (s : string) : bool :=
  run4_here s ||
  match s with
  | EmptyString => false
  | String _ s' => has_run4 s'
  end.

(** [s.split(sep)] for a one-character separator. *)
Fixpoint split (sep : ascii) (s : string) : list string :=
  match s with
  | EmptyString => [EmptyString]
  | String c s' =>
      if Ascii.eqb c sep then EmptyString :: split sep s'
      else match split sep s' with
           | part :: parts => String c part :: parts
           | [] => [String c EmptyString]
           end
  end.

(** [s.slice(0, n)]. *)
Definition slice_to (n : nat) (s : string) : string := substring 0 n s.

(** [s.slice(-n)]: the last [n] characters, or all of [s] if it is
    shorter. *)
Definition slice_last (n : nat) (s : string) : string :=
  substring (String.length s - n) n s.

(** [c.repeat(n)]. *)
Fixpoint repeat_char (c : ascii) (n : nat) : string :=
  match n with
  | O => EmptyString
  | S n' => String c (repeat_char c n')
  end.

(** [s.replace(a, b)] for one-character strings: the first occurrence. *)
Fixpoint replace_first (a b : ascii) (s : string) : string :=
  match s with
  | EmptyString => EmptyString
  | String c s' => if Ascii.eqb c a then String b s' else String c (replace_first a b s')
  end.

(** [parseInt(s, 10)]; [None] stands for [NaN].  Leading white space is
    skipped, a sign is accepted, and the digits are read up to the first
    character that is not one. *)
Fixpoint skip_space (s : string) : string :=
  match s with
  | EmptyString => EmptyString
  | String c s' => if space c then skip_space s' else s
  end.

Definition digit_value (c : ascii) : Z := Z.of_N (code c - 48).

Fixpoint read_digits (s : string) (acc : option Z) : option Z :=
  match s with
  | EmptyString => acc
  | String c s' =>
      if is_digit c
      then read_digits s' (Some (10 * match acc with Some n => n | None => 0 end
                                 + digit_value c)%Z)
      else acc
  end.

Definition parseInt (s : string) : option Z :=
  match skip_space s with
  | String c s' =>
      if Ascii.eqb c "-" then option_map Z.opp (read_digits s' None)
      else if Ascii.eqb c "+" then read_digits s' None
      else read_digits (String c s') None
  | EmptyString => None
  end.

End JS.

(** ** The arithmetic of doubles

    A double is a rational number, and an operation on doubles returns
    the exact result rounded to the nearest number with 53 significant
    bits, ties going to the even significand.  The exponent is left
    unbounded, so the model is IEEE 754 binary64 for results in the
    normal range, from 2^-1022 to below 2^1024; there is neither overflow
    nor gradual underflow. *)

Module Binary64.

Definition pow2 (e : Z) : Q := Qpower 2 e.

(** [floor (log2 x)] for a positive [x]: of the two candidates the
    greater one whose power of two is at most [x]. *)
Definition exponent (x : Q) : Z :=
  let e := (Z.log2 (Qnum x) - Z.log2 (Z.pos (Qden x)))%Z in
  if Qle_bool (pow2 e) x then e else (e - 1)%Z.

(** The nearest integer, ties to even. *)
Definition nearest_even (m : Q) : Z :=
  let f := Qfloor m in
  match Qcompare (m - inject_Z f) (1 # 2) with
  | Lt => f
  | Gt => (f + 1)%Z
  | Eq => if Z.even f then f else (f + 1)%Z
  end.

Definition round_positive (x : Q) : Q :=
  let ulp := pow2 (exponent x - 52) in
  Qred (inject_Z (nearest_even (x / ulp)) * ulp).

Definition round (x : Q) : Q :=
  match Qnum x with
  | Z0 => 0%Q
  | Zpos _ => round_positive x
  | Zneg _ => (- round_positive (- x))%Q
  end.

Definition add (a b : Q) : Q := round (a + b).
Definition mul (a b : Q) : Q := round (a * b).
Definition div (a b : Q) : Q := round (a / b).

(** Half the distance from 1 to the next double, [2^-53]. *)
Definition unit_roundoff : Q := 1 # 9007199254740992.

End Binary64.

(** ** types/index.ts *)

Module BoundingBox.
Record t := {
  x : Q;
  y : Q;
  width : Q;
  height : Q
}.
End BoundingBox.

Inductive DetectionSource := video_frame | thumbnail.

Record MonetaryDetection := {
  amount : Q;
  currency : string;
  md_confidence : Q;
  md_boundingBox : BoundingBox.t
}.

Module OCRResult.
Record t := {
  text : string;
  confidence : Q;
  boundingBox : BoundingBox.t;
  monetaryValues : list MonetaryDetection
}.
End OCRResult.

Module GiftCodeDetection.
Record t := {
  code : string;
  confidence : Q;
  boundingBox : BoundingBox.t;
  timestamp : Q;
  source : DetectionSource;
  rawText : string;
  detectionMethod : string
}.
End GiftCodeDetection.

Module LaughterDetection.
Inductive kind := ksi_laugh | general_laughter.
Record t := {
  startTime : Q;
  endTime : Q;
  confidence : Q;
  intensity : Q;
  type : kind
}.
End LaughterDetection.

Module TranscriptSegment.
Record t := {
  text : string;
  startTime : Q;
  endTime : Q;
  confidence : Q;
  keywords : list string
}.
End TranscriptSegment.

Record AudioSegment := {
  as_startTime : Q;
  as_endTime : Q;
  transcription : string;
  as_confidence : Q
}.

Module FrameAnalysisResult.
Record t := {
  frameNumber : Z;
  timestamp : Q;
  ocrResults : list OCRResult.t
}.
End FrameAnalysisResult.

(** ** GiftCodeDetectionService (giftcode.ts) *)

Module GiftCode.

Record Pattern := {
  pattern_source : string;          (* [pattern.toString()] *)
  classes : list (ascii -> bool)
}.

Definition group (n : nat) : list (ascii -> bool) := repeat JS.alnum n.

Definition dashed_classes : list (ascii -> bool) :=
  group 4 ++ [JS.is_char "-"] ++ group 6 ++ [JS.is_char "-"] ++ group 4.

Definition standard : Pattern :=
  {| pattern_source := "/([A-Z0-9]{4}-[A-Z0-9]{6}-[A-Z0-9]{4})/g";
     classes := dashed_classes |}.

Definition spaced : Pattern :=
  {| pattern_source := "/([A-Z0-9]{4}\s[A-Z0-9]{6}\s[A-Z0-9]{4})/g";
     classes := group 4 ++ [JS.space] ++ group 6 ++ [JS.space] ++ group 4 |}.

Definition compact : Pattern :=
  {| pattern_source := "/([A-Z0-9]{14})/g";
     classes := group 14 |}.

Definition mixed : Pattern :=
  {| pattern_source := "/([A-Z0-9]{4}[_-][A-Z0-9]{6}[_-][A-Z0-9]{4})/g";
     classes := group 4 ++ [JS.underscore_or_hyphen] ++ group 6
                ++ [JS.underscore_or_hyphen] ++ group 4 |}.

Definition patterns : list Pattern := [standard; spaced; compact; mixed].

Definition cleanCode (code : string) : string := JS.remove JS.separator code.

Definition isValidAmazonGiftCode (code : string) : bool :=
  let cleanCode := cleanCode code in
  if negb (String.length cleanCode =? 14)%nat then false
  else if negb (JS.test_anchored (group 14) cleanCode) then false
  else true.

Definition normalizeGiftCode (code : string) : string :=
  let cleanCode := cleanCode code in
  (substring 0 4 cleanCode ++ "-" ++ substring 4 6 cleanCode ++ "-"
     ++ substring 10 4 cleanCode)%string.

Definition excludedChars : list ascii := ["0"; "O"; "I"; "1"]%char.

Definition hasTypicalAmazonPattern (code : string) : bool :=
  let hasRepeatedChars := JS.has_run4 code in
  if hasRepeatedChars then false
  else
    let hasSequential :=
      JS.includes "ABCD" code || JS.includes "1234" code || JS.includes "EFGH" code in
    if hasSequential then false else true.

Definition excludedCount (code : string) : nat :=
  List.length (List.filter (fun char => JS.includes_char char (cleanCode code)) excludedChars).

Definition calculateCodeConfidence (code : string) (ocrConfidence : Q) : Q :=
  let confidence := ocrConfidence in
  let confidence :=
    if JS.test_anchored dashed_classes code then (confidence + 0.1)%Q else confidence in
  let confidence := (confidence - inject_Z (Z.of_nat (excludedCount code)) * 0.05)%Q in
  let confidence :=
    if hasTypicalAmazonPattern (cleanCode code) then (confidence + 0.05)%Q else confidence in
  Qmax 0.1%Q (Qmin 1.0%Q confidence).

Definition getDetectionMethod (pattern : Pattern) : string :=
  let patternStr := pattern_source pattern in
  if JS.includes "-" patternStr then "hyphen-separated"
  else if JS.includes "\s" patternStr then "space-separated"
  else if JS.includes "[_-]" patternStr then "mixed-separators"
  else if JS.includes "{14}" patternStr then "compact-format"
  else "unknown".

(** The loop of [removeDuplicateCodes]: [seen] is the [Set<string>],
    [unique] the array being pushed to. *)
Fixpoint removeDuplicateCodes_loop (codes : list GiftCodeDetection.t)
    (seen : gset string) (unique : list GiftCodeDetection.t) : list GiftCodeDetection.t :=
  match codes with
  | [] => unique
  | code :: rest =>
      let normalizedCode := normalizeGiftCode (GiftCodeDetection.code code) in
      if decide (normalizedCode ∈ seen)
      then removeDuplicateCodes_loop rest seen unique
      else removeDuplicateCodes_loop rest ({[normalizedCode]} ∪ seen) (unique ++ [code])
  end.

Definition removeDuplicateCodes (codes : list GiftCodeDetection.t) : list GiftCodeDetection.t :=
  removeDuplicateCodes_loop codes ∅ [].

(** [timestamp || 0] for the optional argument. *)
Definition timestamp_or_zero (timestamp : option Q) : Q :=
  match timestamp with Some t => t | None => 0%Q end.

(** The body of the innermost loop of [detectGiftCodes] for one match. *)
Definition detection_of_match (ocrResult : OCRResult.t) (timestamp : option Q)
    (pattern : Pattern) (m : string) : list GiftCodeDetection.t :=
  let code := m in
  if isValidAmazonGiftCode code then
    [ {| GiftCodeDetection.code := normalizeGiftCode code;
         GiftCodeDetection.confidence :=
           calculateCodeConfidence code (OCRResult.confidence ocrResult);
         GiftCodeDetection.boundingBox := OCRResult.boundingBox ocrResult;
         GiftCodeDetection.timestamp := timestamp_or_zero timestamp;
         GiftCodeDetection.source := video_frame;
         GiftCodeDetection.rawText := m;
         GiftCodeDetection.detectionMethod := getDetectionMethod pattern |} ]
  else [].

(** The body of the loop over [ocrResults].  Every [exec] loop runs until
    [exec] returns [null], which resets [lastIndex], so each one starts
    at the beginning of its text. *)
Definition detect_in_result (timestamp : option Q) (ocrResult : OCRResult.t)
  : list GiftCodeDetection.t :=
  let text := JS.toUpperCase (OCRResult.text ocrResult) in
  flat_map (fun pattern =>
              flat_map (detection_of_match ocrResult timestamp pattern)
                       (JS.exec_all (classes pattern) 0 text))
           patterns.

Definition detectGiftCodes (ocrResults : list OCRResult.t) (videoId : string)
    (timestamp : option Q) : list GiftCodeDetection.t :=
  let giftCodes := flat_map (detect_in_result timestamp) ocrResults in
  removeDuplicateCodes giftCodes.

(** *** maskGiftCode *)
Definition maskGiftCode (code : string) : string :=
  if (String.length code <? 8)%nat then "****"
  else
    let parts := JS.split "-" code in
    match parts with
    | [part0; part1; part2] =>
        (JS.slice_to 2 part0 ++ "**-" ++ JS.slice_to 2 part1 ++ "****-"
         ++ JS.slice_to 2 part2 ++ "**")%string
    | _ =>
        (JS.slice_to 4 code ++ JS.repeat_char "*" (String.length code - 8)
         ++ JS.slice_last 4 code)%string
    end.

(** *** analyzeGiftCodeContext *)
Definition giftCodeKeywords : list string :=
  ["gift card"; "gift code"; "amazon gift"; "redeem code";
   "claim code"; "voucher"; "coupon"; "promo code";
   "free money"; "cash"; "giveaway"; "winner"].

Record GiftCodeContext := {
  hasGiftCodeKeywords : bool;
  contextKeywords : list string;
  context_confidence : Q
}.

Definition analyzeGiftCodeContext (text : string) : GiftCodeContext :=
  let foundKeywords :=
    List.filter (fun keyword => JS.includes keyword (JS.toLowerCase text))
                giftCodeKeywords in
  {| hasGiftCodeKeywords := (0 <? List.length foundKeywords)%nat;
     contextKeywords := foundKeywords;
     context_confidence :=
       Qmin 1.0%Q (inject_Z (Z.of_nat (List.length foundKeywords)) * 0.2)%Q |}.

End GiftCode.

(** ** Thrown errors *)

Inductive Exc (A : Type) : Type :=
| Ok (a : A)
| Throw (message : string).
Arguments Ok {A} a.
Arguments Throw {A} message.

#[global] Instance Exc_ret : MRet Exc := @Ok.

#[global] Instance Exc_bind : MBind Exc := fun A B k m =>
  match m with
  | Ok a => k a
  | Throw e => Throw e
  end.

(** [try { body } catch (error) { handler(error) }]. *)
Definition try_catch {A} (body : Exc A) (handler : string -> Exc A) : Exc A :=
  match body with
  | Ok a => Ok a
  | Throw e => handler e
  end.

(** ** The detector adapters *)

Module Adapters.

(** *** AudioAnalyzer.analyzeAudio *)

Record AudioAnalysis := {
  laughterPeaks : list LaughterDetection.t;
  suspiciousAudioSegments : list AudioSegment
}.

(** What the calls made by [analyzeAudio] do on one run.  The two
    segment analyses catch their own errors and always yield a list. *)
Record AudioProvider := {
  extractAudio : Exc string;
  detectLaughterPeaks : string -> list LaughterDetection.t;
  analyzeSuspiciousSegments : string -> list AudioSegment;
  audio_cleanup : string -> Exc unit
}.

Definition analyzeAudio (P : AudioProvider) : Exc AudioAnalysis :=
  try_catch
    (audioPath ← extractAudio P;
     let laughterPeaks := detectLaughterPeaks P audioPath in
     let suspiciousSegments := analyzeSuspiciousSegments P audioPath in
     _ ← audio_cleanup P audioPath;
     Ok {| laughterPeaks := laughterPeaks;
           suspiciousAudioSegments := suspiciousSegments |})
    (fun _ => Ok {| laughterPeaks := []; suspiciousAudioSegments := [] |}).

(** *** TranscriptAnalyzer.analyzeTranscript *)

Record TranscriptAnalysis := {
  segments : list TranscriptSegment.t;
  keywords : list string;
  suspiciousSegments : list TranscriptSegment.t
}.

Record TranscriptProvider := {
  captions : Exc (option string);      (* the caption list and download *)
  parseTranscript : string -> Exc (list TranscriptSegment.t);
  findSuspiciousSegments : list TranscriptSegment.t -> Exc (list TranscriptSegment.t);
  extractKeywords : list TranscriptSegment.t -> Exc (list string)
}.

(** [getVideoTranscript] catches the provider's error and returns [null]. *)
Definition getVideoTranscript (P : TranscriptProvider) : Exc (option string) :=
  try_catch (captions P) (fun _ => Ok None).

Definition no_transcript : TranscriptAnalysis :=
  {| segments := []; keywords := []; suspiciousSegments := [] |}.

Definition analyzeTranscript (P : TranscriptProvider) : Exc TranscriptAnalysis :=
  try_catch
    (transcript ← getVideoTranscript P;
     match transcript with
     | None => Ok no_transcript
     | Some transcript =>
         if (String.length transcript =? 0)%nat then Ok no_transcript
         else
           segments ← parseTranscript P transcript;
           suspiciousSegments ← findSuspiciousSegments P segments;
           keywords ← extractKeywords P segments;
           Ok {| segments := segments; keywords := keywords;
                 suspiciousSegments := suspiciousSegments |}
     end)
    (fun _ => Ok no_transcript).

(** *** VideoAnalyzer.analyzeVideo and analyzeVideoSegment *)

Record VideoAnalysis := {
  giftCodes : list GiftCodeDetection.t;
  frameAnalysis : list FrameAnalysisResult.t
}.

Record VideoProvider := {
  downloadVideo : Exc string;
  analyzeFrames : string -> list FrameAnalysisResult.t;   (* catches its own errors *)
  downloadVideoSegment : Q -> Q -> Exc string;
  analyzeFramesInSegment : string -> Q -> Q -> list FrameAnalysisResult.t;
  video_cleanup : string -> Exc unit
}.

(** The loop of [removeDuplicateGiftCodes], keyed on the [code] field. *)
Fixpoint removeDuplicateGiftCodes_loop (codes : list GiftCodeDetection.t)
    (seen : gset string) (unique : list GiftCodeDetection.t) : list GiftCodeDetection.t :=
  match codes with
  | [] => unique
  | code :: rest =>
      if decide (GiftCodeDetection.code code ∈ seen)
      then removeDuplicateGiftCodes_loop rest seen unique
      else removeDuplicateGiftCodes_loop rest
             ({[GiftCodeDetection.code code]} ∪ seen) (unique ++ [code])
  end.

Definition removeDuplicateGiftCodes (codes : list GiftCodeDetection.t) :=
  removeDuplicateGiftCodes_loop codes ∅ [].

Definition extractGiftCodesFromFrames (frameAnalysis : list FrameAnalysisResult.t)
    (videoId : string) : list GiftCodeDetection.t :=
  let allGiftCodes :=
    flat_map (fun frame =>
                GiftCode.detectGiftCodes (FrameAnalysisResult.ocrResults frame) videoId
                  (Some (FrameAnalysisResult.timestamp frame)))
             frameAnalysis in
  removeDuplicateGiftCodes allGiftCodes.

Definition analyzeVideo (P : VideoProvider) (videoId : string) : Exc VideoAnalysis :=
  try_catch
    (localVideoPath ← downloadVideo P;
     let frameAnalysis := analyzeFrames P localVideoPath in
     let giftCodes := extractGiftCodesFromFrames frameAnalysis videoId in
     _ ← video_cleanup P localVideoPath;
     Ok {| giftCodes := giftCodes; frameAnalysis := frameAnalysis |})
    (fun error => Throw error).

Definition analyzeVideoSegment (P : VideoProvider) (videoId : string)
    (startTime endTime : Q) : Exc VideoAnalysis :=
  try_catch
    (localVideoPath ← downloadVideoSegment P startTime endTime;
     let frameAnalysis := analyzeFramesInSegment P localVideoPath startTime endTime in
     let giftCodes := extractGiftCodesFromFrames frameAnalysis videoId in
     _ ← video_cleanup P localVideoPath;
     Ok {| giftCodes := giftCodes; frameAnalysis := frameAnalysis |})
    (fun error => Throw error).

End Adapters.

(** ** AudioAnalyzer.containsLaughter *)

Module Audio.

Definition laughterIndicators : list string :=
  ["haha"; "hehe"; "hah"; "laugh"; "laughing"; "lol";
   "chuckle"; "giggle"; "chuckling"; "giggling"].

Definition containsLaughter (transcription : string) : bool :=
  let lowerTranscription := JS.toLowerCase transcription in
  existsb (fun indicator => JS.includes indicator lowerTranscription) laughterIndicators.

End Audio.

(** ** TranscriptAnalyzer (transcript.ts) *)

Module Transcript.

(** *** findSuspiciousSegments *)

(** [list.includes(k)]. *)
Definition includes (list : list string) (k : string) : bool :=
  existsb (String.eqb k) list.

Definition giftKeywords : list string := ["gift"; "amazon gift"; "coupon"].
Definition moneyKeywords : list string := ["cash"; "dollars"; "money"; "free money"].
Definition actionKeywords : list string :=
  ["redeem"; "claim"; "winner"; "congratulations"].

Definition is_suspicious (segment : TranscriptSegment.t) : bool :=
  let keywords := TranscriptSegment.keywords segment in
  if (0 <? List.length keywords)%nat then
    let hasGiftKeyword := existsb (includes giftKeywords) keywords in
    let hasMoneyKeyword := existsb (includes moneyKeywords) keywords in
    let hasActionKeyword := existsb (includes actionKeywords) keywords in
    (hasGiftKeyword && hasMoneyKeyword) || (hasGiftKeyword && hasActionKeyword)
    || (3 <=? List.length keywords)%nat
  else false.

Definition findSuspiciousSegments (segments : list TranscriptSegment.t)
  : list TranscriptSegment.t :=
  List.filter is_suspicious segments.

(** *** extractKeywords

    A [Set<string>] keeps its elements in the order of their first
    insertion, which is the order [Array.from] returns them in: a list
    without repetition, added to at the end. *)
Definition Set_add (set : list string) (keyword : string) : list string :=
  if existsb (String.eqb keyword) set then set else set ++ [keyword].

Definition extractKeywords (segments : list TranscriptSegment.t) : list string :=
  fold_left
    (fun allKeywords segment =>
       fold_left Set_add (TranscriptSegment.keywords segment) allKeywords)
    segments [].

(** *** parseTimeString

    The result is a number or [NaN] ([None]). *)
Definition nth_part (parts : list string) (n : nat) : string :=
  nth n parts EmptyString.

Definition parseTimeString (timeStr : string) : option Q :=
  let parts := JS.split ":" (JS.replace_first "," "." timeStr) in
  if negb (List.length parts =? 3)%nat then Some 0%Q
  else
    let hours := JS.parseInt (nth_part parts 0) in
    let minutes := JS.parseInt (nth_part parts 1) in
    let secondsParts := JS.split "." (nth_part parts 2) in
    let seconds := JS.parseInt (nth_part secondsParts 0) in
    let milliseconds :=
      match secondsParts with
      | _ :: String c rest :: _ => JS.parseInt (String c rest)
      | _ => Some 0%Z
      end in
    match hours, minutes, seconds, milliseconds with
    | Some h, Some m, Some sec, Some ms =>
        Some (inject_Z h * 3600 + inject_Z m * 60 + inject_Z sec
              + inject_Z ms / 1000)%Q
    | _, _, _, _ => None
    end.

End Transcript.

(** ** ProcessCoordinator *)

Inductive ProcessType := full_video | audio | transcript | targeted_video.

Inductive ProcessStatus := pending | running | completed | failed.

#[global] Instance ProcessType_eq_dec : EqDecision ProcessType.
Proof. solve_decision. Defined.

#[global] Instance ProcessStatus_eq_dec : EqDecision ProcessStatus.
Proof. solve_decision. Defined.

(** [a > b] on numbers. *)
Definition Qgtb (a b : Q) : bool := negb (Qle_bool a b).

(** The identifiers built by the template strings
    [`full-video-${videoId}-${Date.now()}`] and
    [`targeted-${videoId}-${laughTimestamp.timestamp}-${Date.now()}`]. *)
Inductive ProcessId :=
| base_id (prefix : ProcessType) (videoId : string) (now : Z)
| targeted_id (videoId : string) (timestamp : Q) (now : Z).

Inductive LaughSource := from_audio | from_transcript.

(** The [context] string: [`${laugh.type} laugh (intensity: ${laugh.intensity})`]
    for an audio peak, [segment.text.substring(0, 100)] for a transcript
    segment. *)
Inductive LaughContext :=
| laugh_context (type : LaughterDetection.kind) (intensity : Q)
| text_context (text : string).

Module LaughTimestamp.
Record t := {
  timestamp : Q;
  confidence : Q;
  source : LaughSource;
  context : LaughContext
}.
End LaughTimestamp.

(** The object stored in [process.result], one shape per kind of process. *)
Inductive ProcessResult :=
| FullVideoResult (giftCodes : list GiftCodeDetection.t)
    (frameAnalysis : list FrameAnalysisResult.t)
| AudioResult (laughterPeaks : list LaughterDetection.t)
    (suspiciousSegments : list AudioSegment)
| TranscriptResult (segments laughSegments : list TranscriptSegment.t)
    (keywords : list string)
| TargetedResult (giftCodes : list GiftCodeDetection.t) (timeRange : Q * Q)
    (laughTimestamp : LaughTimestamp.t) (frameAnalysis : list FrameAnalysisResult.t).

Module AnalysisProcess.
Record t := {
  id : ProcessId;
  type : ProcessType;
  status : ProcessStatus;
  startTime : Z;
  endTime : option Z;
  result : option ProcessResult;
  error : option string
}.
End AnalysisProcess.

Inductive Action := investigate | monitor | ignore.

(** The strings pushed by [generateKeyFindings], with the counts they
    interpolate. *)
Inductive Finding :=
| found_codes (n : nat)
| high_confidence_codes (n : nat)
| laughter_events (n : nat)
| no_significant_findings.

Record Summary := {
  recommendedAction : Action;
  summary_confidence : Q;
  keyFindings : list Finding
}.

Module VideoAnalysisResult.
Record t := {
  videoId : string;
  processedAt : Z;
  processingDuration : Z;
  giftCodes : list GiftCodeDetection.t;
  laughterEvents : list LaughterDetection.t;
  frameAnalysis : list FrameAnalysisResult.t;
  summary : Summary
}.
End VideoAnalysisResult.

Module Coordinator.

Import AnalysisProcess.

(** *** Mutations of a process record

    The run functions assign to the fields of the record they were
    given.  Assignments that follow one another without an [await] form
    one block: no other code runs in between. *)

Inductive Mutation :=
| set_status (s : ProcessStatus)
| set_result (r : ProcessResult)
| set_error (e : string)
| set_endTime (now : Z).

Definition mutate (p : t) (m : Mutation) : t :=
  match m with
  | set_status s =>
      {| id := id p; type := type p; status := s; startTime := startTime p;
         endTime := endTime p; result := result p; error := error p |}
  | set_result r =>
      {| id := id p; type := type p; status := status p; startTime := startTime p;
         endTime := endTime p; result := Some r; error := error p |}
  | set_error e =>
      {| id := id p; type := type p; status := status p; startTime := startTime p;
         endTime := endTime p; result := result p; error := Some e |}
  | set_endTime now =>
      {| id := id p; type := type p; status := status p; startTime := startTime p;
         endTime := Some now; result := result p; error := error p |}
  end.

Definition run_block (p : t) (block : list Mutation) : t := fold_left mutate block p.

(** The record after each block, in order. *)
Fixpoint observe (p : t) (blocks : list (list Mutation)) : list t :=
  match blocks with
  | [] => []
  | block :: blocks' => let p' := run_block p block in p' :: observe p' blocks'
  end.

(** The record as created, then after each block. *)
Definition lifecycle (p : t) (blocks : list (list Mutation)) : list t :=
  p :: observe p blocks.

Definition final (p : t) (blocks : list (list Mutation)) : t :=
  fold_left run_block blocks p.

(** The object literal of a new process. *)
Definition new_process (i : ProcessId) (ty : ProcessType) (now : Z) : t :=
  {| id := i; type := ty; status := pending; startTime := now;
     endTime := None; result := None; error := None |}.

(** The [catch] block shared by the four run functions. *)
Definition on_error (e : string) (now : Z) : list Mutation :=
  [set_status failed; set_error e; set_endTime now].

(** *** runFullVideoAnalysis *)
Definition runFullVideoAnalysis (videoId : string)
    (analyzeVideo : Exc Adapters.VideoAnalysis) (now : Z) : list (list Mutation) :=
  [ [set_status running];
    match analyzeVideo with
    | Ok result =>
        let giftCodes :=
          flat_map (fun frame =>
                      GiftCode.detectGiftCodes (FrameAnalysisResult.ocrResults frame)
                        videoId (Some (FrameAnalysisResult.timestamp frame)))
                   (Adapters.frameAnalysis result) in
        [set_result (FullVideoResult giftCodes (Adapters.frameAnalysis result));
         set_status completed;
         set_endTime now]
    | Throw e => on_error e now
    end ].

(** *** runAudioAnalysis *)
Definition runAudioAnalysis (analyzeAudio : Exc Adapters.AudioAnalysis) (now : Z)
  : list (list Mutation) :=
  [ [set_status running];
    match analyzeAudio with
    | Ok result =>
        [set_result (AudioResult (Adapters.laughterPeaks result)
                                 (Adapters.suspiciousAudioSegments result));
         set_status completed;
         set_endTime now]
    | Throw e => on_error e now
    end ].

(** *** findLaughSegments *)
Definition laughKeywords : list string :=
  ["laugh"; "laughing"; "lol"; "haha"; "hehe"; "giggle";
   "chuckle"; "funny"; "hilarious"; "joke"; "comedy"].

Definition findLaughSegments (segments : list TranscriptSegment.t)
  : list TranscriptSegment.t :=
  List.filter
    (fun segment =>
       let text := JS.toLowerCase (TranscriptSegment.text segment) in
       existsb (fun keyword => JS.includes keyword text) laughKeywords)
    segments.

(** *** runTranscriptAnalysis *)
Definition runTranscriptAnalysis (analyzeTranscript : Exc Adapters.TranscriptAnalysis)
    (now : Z) : list (list Mutation) :=
  [ [set_status running];
    match analyzeTranscript with
    | Ok result =>
        let laughSegments := findLaughSegments (Adapters.segments result) in
        [set_result (TranscriptResult (Adapters.segments result) laughSegments
                                      (Adapters.keywords result));
         set_status completed;
         set_endTime now]
    | Throw e => on_error e now
    end ].

(** *** analyzeVideoSegment (the coordinator's wrapper) *)
Definition analyzeVideoSegment (analyzeVideoSegment : Exc Adapters.VideoAnalysis)
  : Exc Adapters.VideoAnalysis :=
  try_catch
    (result ← analyzeVideoSegment;
     Ok {| Adapters.giftCodes := Adapters.giftCodes result;
           Adapters.frameAnalysis := Adapters.frameAnalysis result |})
    (fun _ => Ok {| Adapters.giftCodes := []; Adapters.frameAnalysis := [] |}).

(** *** runTargetedVideoAnalysis *)
Definition runTargetedVideoAnalysis (startTime endTime : Q)
    (laughTimestamp : LaughTimestamp.t)
    (segment : Exc Adapters.VideoAnalysis) (now : Z) : list (list Mutation) :=
  [ [set_status running];
    match analyzeVideoSegment segment with
    | Ok result =>
        [set_result (TargetedResult (Adapters.giftCodes result) (startTime, endTime)
                                    laughTimestamp (Adapters.frameAnalysis result));
         set_status completed;
         set_endTime now]
    | Throw e => on_error e now
    end ].

(** The four operations that mutate a process record, with what they
    received from their [await]. *)
Inductive Run :=
| run_full_video (videoId : string) (analyzeVideo : Exc Adapters.VideoAnalysis) (now : Z)
| run_audio (analyzeAudio : Exc Adapters.AudioAnalysis) (now : Z)
| run_transcript (analyzeTranscript : Exc Adapters.TranscriptAnalysis) (now : Z)
| run_targeted (startTime endTime : Q) (laughTimestamp : LaughTimestamp.t)
    (segment : Exc Adapters.VideoAnalysis) (now : Z).

Definition script (r : Run) : list (list Mutation) :=
  match r with
  | run_full_video videoId analyzeVideo now =>
      runFullVideoAnalysis videoId analyzeVideo now
  | run_audio analyzeAudio now => runAudioAnalysis analyzeAudio now
  | run_transcript analyzeTranscript now => runTranscriptAnalysis analyzeTranscript now
  | run_targeted startTime endTime laughTimestamp segment now =>
      runTargetedVideoAnalysis startTime endTime laughTimestamp segment now
  end.

(** *** startParallelAnalysis

    The three base processes are created and run; [Promise.all] resolves
    when the three run functions have returned.  [clock] gives the
    successive readings of [Date.now()]. *)
Definition startParallelAnalysis (videoId : string) (clock : nat -> Z)
    (analyzeVideo : Exc Adapters.VideoAnalysis)
    (analyzeAudio : Exc Adapters.AudioAnalysis)
    (analyzeTranscript : Exc Adapters.TranscriptAnalysis) : list t :=
  let fullVideoProcess :=
    new_process (base_id full_video videoId (clock 0%nat)) full_video (clock 1%nat) in
  let audioProcess :=
    new_process (base_id audio videoId (clock 2%nat)) audio (clock 3%nat) in
  let transcriptProcess :=
    new_process (base_id transcript videoId (clock 4%nat)) transcript (clock 5%nat) in
  [ final fullVideoProcess (runFullVideoAnalysis videoId analyzeVideo (clock 6%nat));
    final audioProcess (runAudioAnalysis analyzeAudio (clock 7%nat));
    final transcriptProcess (runTranscriptAnalysis analyzeTranscript (clock 8%nat)) ].

(** *** waitForLaughTimestamps *)

Definition maxWaitTime : Z := 5 * 60 * 1000.

Definition has_type (ty : ProcessType) (p : t) : bool := bool_decide (type p = ty).
Definition has_status (s : ProcessStatus) (p : t) : bool := bool_decide (status p = s).

(** The pushes guarded by [audioProcess.result?.laughterPeaks]. *)
Definition audio_timestamps (audioProcess : t) : list LaughTimestamp.t :=
  match result audioProcess with
  | Some (AudioResult laughterPeaks _) =>
      map (fun laugh =>
             {| LaughTimestamp.timestamp := LaughterDetection.startTime laugh;
                LaughTimestamp.confidence := LaughterDetection.confidence laugh;
                LaughTimestamp.source := from_audio;
                LaughTimestamp.context :=
                  laugh_context (LaughterDetection.type laugh)
                                (LaughterDetection.intensity laugh) |})
          laughterPeaks
  | _ => []
  end.

(** The pushes guarded by [transcriptProcess.result?.laughSegments]. *)
Definition transcript_timestamps (transcriptProcess : t) : list LaughTimestamp.t :=
  match result transcriptProcess with
  | Some (TranscriptResult _ laughSegments _) =>
      map (fun segment =>
             {| LaughTimestamp.timestamp := TranscriptSegment.startTime segment;
                LaughTimestamp.confidence := TranscriptSegment.confidence segment;
                LaughTimestamp.source := from_transcript;
                LaughTimestamp.context :=
                  text_context (substring 0 100 (TranscriptSegment.text segment)) |})
          laughSegments
  | _ => []
  end.

(** The test [audioProcess?.status === 'completed' &&
    transcriptProcess?.status === 'completed'] on one look at the array. *)
Definition both_completed (processes : list t) : option (t * t) :=
  match List.find (has_type audio) processes,
        List.find (has_type transcript) processes with
  | Some audioProcess, Some transcriptProcess =>
      if has_status completed audioProcess && has_status completed transcriptProcess
      then Some (audioProcess, transcriptProcess)
      else None
  | _, _ => None
  end.

(** The polling loop.  [clock i] is the reading of [Date.now()] in the
    [i]-th evaluation of the loop condition and [view i] the state of the
    process records at that moment; [fuel] bounds the number of
    iterations and [None] means it ran out. *)
Fixpoint waitForLaughTimestamps_loop (fuel : nat) (startTime : Z) (clock : nat -> Z)
    (view : nat -> list t) (i : nat) : option (list LaughTimestamp.t) :=
  match fuel with
  | O => None
  | S fuel' =>
      if (clock i - startTime <? maxWaitTime)%Z then
        match both_completed (view i) with
        | Some (audioProcess, transcriptProcess) =>
            Some (audio_timestamps audioProcess ++ transcript_timestamps transcriptProcess)
        | None =>
            (* [await new Promise(resolve => setTimeout(resolve, 1000))] *)
            waitForLaughTimestamps_loop fuel' startTime clock view (S i)
        end
      else Some []
  end.

Definition waitForLaughTimestamps (fuel : nat) (startTime : Z) (clock : nat -> Z)
    (view : nat -> list t) : option (list LaughTimestamp.t) :=
  waitForLaughTimestamps_loop fuel startTime clock view 0.

(** *** startTargetedAnalysis

    One entry per call of [runTargetedVideoAnalysis]: the process record
    as it stands when [startTargetedAnalysis] returns (the call is not
    awaited, so it has run up to its first [await]) and the arguments
    [startTime], [endTime] and [laughTimestamp] it was given. *)
Record Dispatch := {
  process : t;
  window_start : Q;
  window_end : Q;
  anchor : LaughTimestamp.t
}.

Fixpoint startTargetedAnalysis_from (videoId : string) (clock : nat -> Z) (n : nat)
    (laughTimestamps : list LaughTimestamp.t) : list Dispatch :=
  match laughTimestamps with
  | [] => []
  | laughTimestamp :: rest =>
      let startTime := (LaughTimestamp.timestamp laughTimestamp + 5)%Q in
      let endTime := (LaughTimestamp.timestamp laughTimestamp + 60)%Q in
      let targetedProcess :=
        new_process
          (targeted_id videoId (LaughTimestamp.timestamp laughTimestamp) (clock n))
          targeted_video (clock (S n)) in
      {| process := run_block targetedProcess [set_status running];
         window_start := startTime;
         window_end := endTime;
         anchor := laughTimestamp |}
      :: startTargetedAnalysis_from videoId clock (S (S n)) rest
  end.

Definition startTargetedAnalysis (videoId : string) (clock : nat -> Z)
    (laughTimestamps : list LaughTimestamp.t) : list Dispatch :=
  startTargetedAnalysis_from videoId clock 0 laughTimestamps.

(** The array [targetedProcesses] that the source returns. *)
Definition targetedProcesses (dispatched : list Dispatch) : list t :=
  map process dispatched.

(** *** aggregateResults *)

Definition result_giftCodes (r : ProcessResult) : option (list GiftCodeDetection.t) :=
  match r with
  | FullVideoResult giftCodes _ | TargetedResult giftCodes _ _ _ => Some giftCodes
  | _ => None
  end.

Definition result_laughterPeaks (r : ProcessResult) : option (list LaughterDetection.t) :=
  match r with
  | AudioResult laughterPeaks _ => Some laughterPeaks
  | _ => None
  end.

Definition result_frameAnalysis (r : ProcessResult) : option (list FrameAnalysisResult.t) :=
  match r with
  | FullVideoResult _ frameAnalysis | TargetedResult _ _ _ frameAnalysis =>
      Some frameAnalysis
  | _ => None
  end.

(** [all.push(...field)] when [field] is present. *)
Definition push_all {A} (all : list A) (field : option (list A)) : list A :=
  match field with
  | Some l => all ++ l
  | None => all
  end.

Record Collected := {
  allGiftCodes : list GiftCodeDetection.t;
  allLaughterEvents : list LaughterDetection.t;
  allFrameAnalysis : list FrameAnalysisResult.t
}.

Definition collect_step (acc : Collected) (process : t) : Collected :=
  if has_status completed process then
    match result process with
    | Some r =>
        {| allGiftCodes := push_all (allGiftCodes acc) (result_giftCodes r);
           allLaughterEvents := push_all (allLaughterEvents acc) (result_laughterPeaks r);
           allFrameAnalysis := push_all (allFrameAnalysis acc) (result_frameAnalysis r) |}
    | None => acc
    end
  else acc.

Definition collect (processes : list t) : Collected :=
  fold_left collect_step processes
    {| allGiftCodes := []; allLaughterEvents := []; allFrameAnalysis := [] |}.

(** [array.findIndex(p)]; [None] stands for [-1]. *)
Fixpoint findIndex {A} (p : A -> bool) (array : list A) : option nat :=
  match array with
  | [] => None
  | a :: rest => if p a then Some 0%nat else option_map S (findIndex p rest)
  end.

(** [array.filter((element, index) => f element index)], from [index]. *)
Fixpoint filter_index {A} (f : A -> nat -> bool) (index : nat) (l : list A) : list A :=
  match l with
  | [] => []
  | a :: rest =>
      if f a index then a :: filter_index f (S index) rest
      else filter_index f (S index) rest
  end.

Definition same_code (code c : GiftCodeDetection.t) : bool :=
  String.eqb (GiftCodeDetection.code c) (GiftCodeDetection.code code).

(** [.filter((code, index, array) =>
      array.findIndex(c => c.code === code.code) === index)]. *)
Definition first_of_its_code (array : list GiftCodeDetection.t) : list GiftCodeDetection.t :=
  filter_index
    (fun code index =>
       match findIndex (same_code code) array with
       | Some j => (j =? index)%nat
       | None => false
       end)
    0 array.

Definition uniqueGiftCodes (videoId : string) (allGiftCodes : list GiftCodeDetection.t)
  : list GiftCodeDetection.t :=
  first_of_its_code (GiftCode.detectGiftCodes [] videoId None ++ allGiftCodes).

Definition is_high_confidence (code : GiftCodeDetection.t) : bool :=
  Qgtb (GiftCodeDetection.confidence code) 0.8%Q.

Definition determineRecommendedAction (giftCodes : list GiftCodeDetection.t) : Action :=
  if (List.length giftCodes =? 0)%nat then ignore
  else
    let highConfidenceCodes := List.filter is_high_confidence giftCodes in
    if (0 <? List.length highConfidenceCodes)%nat then investigate
    else monitor.

(** [Math.round]: the nearest integer, halves going up. *)
Definition Math_round (q : Q) : Z := Qfloor (q + (1 # 2))%Q.

(** [calculateOverallConfidence] in exact arithmetic: the value that the
    computation in doubles approximates. *)
Definition calculateOverallConfidence (giftCodes : list GiftCodeDetection.t) : Q :=
  if (List.length giftCodes =? 0)%nat then 0%Q
  else
    let avgConfidence :=
      (fold_left (fun sum code => sum + GiftCodeDetection.confidence code) giftCodes 0
       / inject_Z (Z.of_nat (List.length giftCodes)))%Q in
    (inject_Z (Math_round (avgConfidence * 100)) / 100)%Q.

(** [calculateOverallConfidence] as the program computes it, every
    operation rounded to a double.  [Math.round] is exact on the double
    it is given. *)
Definition calculateOverallConfidence_binary64 (giftCodes : list GiftCodeDetection.t)
    : Q :=
  if (List.length giftCodes =? 0)%nat then 0%Q
  else
    let avgConfidence :=
      Binary64.div
        (fold_left (fun sum code => Binary64.add sum (GiftCodeDetection.confidence code))
           giftCodes 0%Q)
        (inject_Z (Z.of_nat (List.length giftCodes))) in
    Binary64.div (inject_Z (Math_round (Binary64.mul avgConfidence 100))) 100.

Definition generateKeyFindings (giftCodes : list GiftCodeDetection.t)
    (laughterEvents : list LaughterDetection.t) : list Finding :=
  let findings := [] in
  let findings :=
    if (0 <? List.length giftCodes)%nat then
      let findings := findings ++ [found_codes (List.length giftCodes)] in
      let highConfidenceCodes := List.filter is_high_confidence giftCodes in
      if (0 <? List.length highConfidenceCodes)%nat
      then findings ++ [high_confidence_codes (List.length highConfidenceCodes)]
      else findings
    else findings in
  let findings :=
    if (0 <? List.length laughterEvents)%nat
    then findings ++ [laughter_events (List.length laughterEvents)]
    else findings in
  if (List.length findings =? 0)%nat then findings ++ [no_significant_findings]
  else findings.

(** [processedAt] is the reading of the clock made by [new Date()] and
    [now] the one made by [Date.now()] for the duration. *)
Definition aggregateResults (processes : list t) (videoId : string)
    (startTime : Z) (processedAt now : Z) : VideoAnalysisResult.t :=
  let collected := collect processes in
  let uniqueGiftCodes := uniqueGiftCodes videoId (allGiftCodes collected) in
  let recommendedAction := determineRecommendedAction uniqueGiftCodes in
  {| VideoAnalysisResult.videoId := videoId;
     VideoAnalysisResult.processedAt := processedAt;
     VideoAnalysisResult.processingDuration := (now - startTime)%Z;
     VideoAnalysisResult.giftCodes := uniqueGiftCodes;
     VideoAnalysisResult.laughterEvents := allLaughterEvents collected;
     VideoAnalysisResult.frameAnalysis := allFrameAnalysis collected;
     VideoAnalysisResult.summary :=
       {| recommendedAction := recommendedAction;
          summary_confidence := calculateOverallConfidence_binary64 uniqueGiftCodes;
          keyFindings :=
            generateKeyFindings uniqueGiftCodes (allLaughterEvents collected) |} |}.

(** *** waitForAllProcesses

    The function returns nothing; what it decides is when the caller
    goes on.  The model returns the number of the poll at which the loop
    is left, counted from 0, which is also the number of two-second
    sleeps made; [None] means the fuel ran out. *)

Definition maxWaitTimeAll : Z := 10 * 60 * 1000.

Definition pending_or_running (p : t) : bool :=
  has_status pending p || has_status running p.

Fixpoint waitForAllProcesses_loop (fuel : nat) (startTime : Z) (clock : nat -> Z)
    (view : nat -> list t) (i : nat) : option nat :=
  match fuel with
  | O => None
  | S fuel' =>
      if (clock i - startTime <? maxWaitTimeAll)%Z then
        let pendingProcesses := List.filter pending_or_running (view i) in
        if (List.length pendingProcesses =? 0)%nat then Some i
        else waitForAllProcesses_loop fuel' startTime clock view (S i)
      else Some i
  end.

Definition waitForAllProcesses (fuel : nat) (startTime : Z) (clock : nat -> Z)
    (view : nat -> list t) : option nat :=
  waitForAllProcesses_loop fuel startTime clock view 0.

(** *** analyzeVideoForGiftCodes

    What one run depends on: the readings of the clock, what the three
    adapters answer, and for each targeted scan what its segment analysis
    answers and when, or [None] if it has not answered when
    [aggregateResults] reads the records. *)
Record Run_environment := {
  base_clock : nat -> Z;
  analyzeVideo : Exc Adapters.VideoAnalysis;
  analyzeAudio : Exc Adapters.AudioAnalysis;
  analyzeTranscript : Exc Adapters.TranscriptAnalysis;
  anchor_wait_start : Z;
  anchor_wait_clock : nat -> Z;
  dispatch_clock : nat -> Z;
  segment_answer : Dispatch -> option (Exc Adapters.VideoAnalysis * Z);
  aggregate_start : Z;
  aggregate_processedAt : Z;
  aggregate_now : Z
}.

(** The record of a dispatched targeted scan as [aggregateResults] finds
    it: still running, or after the blocks of [runTargetedVideoAnalysis]
    that follow its [await] (the first block ran at dispatch). *)
Definition targeted_at_aggregation (env : Run_environment) (d : Dispatch) : t :=
  match segment_answer env d with
  | None => process d
  | Some (segment, now) =>
      final (process d)
        (tl (runTargetedVideoAnalysis (window_start d) (window_end d) (anchor d)
               segment now))
  end.

(** The base processes are terminal when [startParallelAnalysis] returns
    and nothing mutates them afterwards, so every poll of the anchor wait
    sees the same records. *)
Definition analyzeVideoForGiftCodes (fuel : nat) (env : Run_environment)
    (videoId : string) : option VideoAnalysisResult.t :=
  let processes :=
    startParallelAnalysis videoId (base_clock env) (analyzeVideo env)
      (analyzeAudio env) (analyzeTranscript env) in
  match waitForLaughTimestamps fuel (anchor_wait_start env) (anchor_wait_clock env)
          (fun _ => processes) with
  | None => None
  | Some laughTimestamps =>
      let dispatched := startTargetedAnalysis videoId (dispatch_clock env) laughTimestamps in
      let allProcesses := processes ++ map (targeted_at_aggregation env) dispatched in
      Some (aggregateResults allProcesses videoId (aggregate_start env)
              (aggregate_processedAt env) (aggregate_now env))
  end.

End Coordinator.

(** ** VideoProcessor.processVideo

    The processor talks to the database, the thumbnail analyzer and the
    coordinator, and reads the clock for its time stamps.  The model
    threads a world through the function: the number of clock readings
    made so far and the calls made so far, in order.  What an awaited
    call answers is given by [Services], as a function of its arguments.
    Logging is left out; [sendNotification] does nothing but log, so only
    its call is recorded.  [behaviorEvents] is the empty array wherever it
    is built and is left out. *)

Module Processor.

Record VideoMetadata := {
  videoId : string;
  title : string;
  thumbnailUrl : string
}.

Record ProcessingJob := {
  id : string
}.

Record MonetaryDetection := {
  amount : Q;
  currency : string;
  confidence : Q;
  boundingBox : BoundingBox.t;
  source : DetectionSource
}.

Record ThumbnailAnalysis := {
  monetaryDetections : list MonetaryDetection;
  hasMoneyThumbnail : bool
}.

Record VideoAnalysisField := {
  video_giftCodes : list GiftCodeDetection.t;
  video_laughterEvents : list LaughterDetection.t;
  video_frameAnalysis : list FrameAnalysisResult.t
}.

(** The two object literals assigned to [summary]: the counts of
    [createMinimalResult], and the coordinator's summary. *)
Inductive ResultSummary :=
| counts (codesFound laughterEvents suspiciousKeywords : Z) (confidenceScore : Q)
    (action : Action)
| coordinated (summary : Summary).

Definition summary_recommendedAction (s : ResultSummary) : Action :=
  match s with
  | counts _ _ _ _ action => action
  | coordinated summary => recommendedAction summary
  end.

(** [action === 'investigate']. *)
Definition is_investigate (action : Action) : bool :=
  match action with
  | investigate => true
  | _ => false
  end.

(** A field that an object literal does not set is [None]. *)
Record Result := {
  result_videoId : string;
  processedAt : Z;
  processingDuration : Z;
  thumbnailAnalysis : ThumbnailAnalysis;
  videoAnalysis : option VideoAnalysisField;
  giftCodes : option (list GiftCodeDetection.t);
  laughterEvents : option (list LaughterDetection.t);
  frameAnalysis : option (list FrameAnalysisResult.t);
  transcriptAnalysis : option Adapters.TranscriptAnalysis;
  audioAnalysis : option Adapters.AudioAnalysis;
  summary : ResultSummary
}.

Inductive JobStatus := job_pending | job_processing | job_completed | job_failed.

Record JobUpdate := {
  status : JobStatus;
  startedAt : option Z;
  completedAt : option Z;
  result : option Result;
  error : option string
}.

Inductive Call :=
| database_updateJob (jobId : string) (updates : JobUpdate)
| thumbnailAnalyzer_analyzeThumbnail (thumbnailUrl videoId : string)
| database_saveResult (result : Result)
| processCoordinator_analyzeVideoForGiftCodes (videoId videoUrl thumbnailUrl : string)
| sendNotification (result : Result).

Record Services := {
  now : nat -> Z;
  updateJob : string -> JobUpdate -> Exc unit;
  analyzeThumbnail : string -> string -> Exc ThumbnailAnalysis;
  saveResult : Result -> Exc unit;
  analyzeVideoForGiftCodes : string -> string -> string -> Exc VideoAnalysisResult.t
}.

Record World := {
  reads : nat;
  calls : list Call
}.

Definition start : World := {| reads := 0; calls := [] |}.

Definition M (A : Type) : Type := World -> World * Exc A.

#[global] Instance M_ret : MRet M := fun A a w => (w, Ok a).

#[global] Instance M_bind : MBind M := fun A B k m w =>
  match m w with
  | (w', Ok a) => k a w'
  | (w', Throw e) => (w', Throw e)
  end.

Definition throw {A} (e : string) : M A := fun w => (w, Throw e).

(** [try { body } catch (error) { handler(error) }]: the handler goes on
    from the world the body left. *)
Definition try_catch_in {A} (body : M A) (handler : string -> M A) : M A := fun w =>
  match body w with
  | (w', Ok a) => (w', Ok a)
  | (w', Throw e) => handler e w'
  end.

(** [Date.now()] and [new Date()]: the next reading of the clock. *)
Definition Date_now (sv : Services) : M Z := fun w =>
  ({| reads := S (reads w); calls := calls w |}, Ok (now sv (reads w))).

(** An awaited call: recorded, then answered. *)
Definition await {A} (c : Call) (answer : Exc A) : M A := fun w =>
  ({| reads := reads w; calls := calls w ++ [c] |}, answer).

Definition createMinimalResult (sv : Services) (video : VideoMetadata) (startTime : Z)
    (thumbnailAnalysis : ThumbnailAnalysis) : M Result :=
  processedAt ← Date_now sv;
  now ← Date_now sv;
  mret {| result_videoId := videoId video;
          processedAt := processedAt;
          processingDuration := (now - startTime)%Z;
          thumbnailAnalysis := thumbnailAnalysis;
          videoAnalysis :=
            Some {| video_giftCodes := [];
                    video_laughterEvents := [];
                    video_frameAnalysis := [] |};
          giftCodes := None;
          laughterEvents := None;
          frameAnalysis := None;
          transcriptAnalysis :=
            Some {| Adapters.segments := [];
                    Adapters.keywords := [];
                    Adapters.suspiciousSegments := [] |};
          audioAnalysis :=
            Some {| Adapters.laughterPeaks := [];
                    Adapters.suspiciousAudioSegments := [] |};
          summary := counts 0 0 0 0 ignore |}.

(** The coordinator's result sets neither [transcriptAnalysis] nor
    [audioAnalysis]; its arrays are always present, so [x || []] is [x]. *)
Definition compileCoordinatedResults (sv : Services) (video : VideoMetadata)
    (startTime : Z) (thumbnailAnalysis : ThumbnailAnalysis)
    (coordinatedResult : VideoAnalysisResult.t) : M Result :=
  now ← Date_now sv;
  let processingDuration := (now - startTime)%Z in
  processedAt ← Date_now sv;
  mret {| result_videoId := videoId video;
          processedAt := processedAt;
          processingDuration := processingDuration;
          thumbnailAnalysis :=
            {| monetaryDetections := monetaryDetections thumbnailAnalysis;
               hasMoneyThumbnail := hasMoneyThumbnail thumbnailAnalysis |};
          videoAnalysis := None;
          giftCodes := Some (VideoAnalysisResult.giftCodes coordinatedResult);
          laughterEvents := Some (VideoAnalysisResult.laughterEvents coordinatedResult);
          frameAnalysis := Some (VideoAnalysisResult.frameAnalysis coordinatedResult);
          transcriptAnalysis := None;
          audioAnalysis := None;
          summary := coordinated (VideoAnalysisResult.summary coordinatedResult) |}.

Definition getVideoUrl (videoId : string) : string :=
  ("https://www.youtube.com/watch?v=" ++ videoId)%string.

(** The update that both branches make after saving the result. *)
Definition updateJob_completed (sv : Services) (job : ProcessingJob) (result : Result)
    : M unit :=
  completedAt ← Date_now sv;
  let updates :=
    {| status := job_completed;
       startedAt := None;
       completedAt := Some completedAt;
       result := Some result;
       error := None |} in
  await (database_updateJob (id job) updates) (updateJob sv (id job) updates).

Definition processVideo (sv : Services) (video : VideoMetadata) (job : ProcessingJob)
    : M Result :=
  startTime ← Date_now sv;
  try_catch_in
    (startedAt ← Date_now sv;
     let updates :=
       {| status := job_processing;
          startedAt := Some startedAt;
          completedAt := None;
          result := None;
          error := None |} in
     _ ← await (database_updateJob (id job) updates) (updateJob sv (id job) updates);
     thumbnailAnalysis ←
       await (thumbnailAnalyzer_analyzeThumbnail (thumbnailUrl video) (videoId video))
         (analyzeThumbnail sv (thumbnailUrl video) (videoId video));
     if negb (hasMoneyThumbnail thumbnailAnalysis) then
       result ← createMinimalResult sv video startTime thumbnailAnalysis;
       _ ← await (database_saveResult result) (saveResult sv result);
       _ ← updateJob_completed sv job result;
       (mret result : M Result)
     else
       let videoUrl := getVideoUrl (videoId video) in
       coordinatedResult ←
         await (processCoordinator_analyzeVideoForGiftCodes (videoId video) videoUrl
                  (thumbnailUrl video))
           (analyzeVideoForGiftCodes sv (videoId video) videoUrl (thumbnailUrl video));
       result ← compileCoordinatedResults sv video startTime thumbnailAnalysis
                  coordinatedResult;
       _ ← await (database_saveResult result) (saveResult sv result);
       _ ← updateJob_completed sv job result;
       _ ← (if is_investigate (summary_recommendedAction (summary result))
            then (await (sendNotification result) (Ok tt) : M unit)
            else (mret tt : M unit));
       (mret result : M Result))
    (fun error =>
       completedAt ← Date_now sv;
       let updates :=
         {| status := job_failed;
            startedAt := None;
            completedAt := Some completedAt;
            result := None;
            error := Some error |} in
       _ ← await (database_updateJob (id job) updates) (updateJob sv (id job) updates);
       (throw error : M Result)).

Definition is_coordinator_call (c : Call) : bool :=
  match c with
  | processCoordinator_analyzeVideoForGiftCodes _ _ _ => true
  | _ => false
  end.

Definition is_notification (c : Call) : bool :=
  match c with
  | sendNotification _ => true
  | _ => false
  end.

Definition marks_failed (c : Call) : bool :=
  match c with
  | database_updateJob _ {| status := job_failed |} => true
  | _ => false
  end.

End Processor.

(** ** Reference definitions, following the specification's words *)

Module Spec.

(** Deduplication by a key, first occurrence kept: an entry is dropped
    when its key is among [seen] or belongs to an earlier entry. *)
Section KeepFirst.
Context {A K : Type} `{EqDecision K} (key : A -> K).

Fixpoint keep_first (seen : list K) (l : list A) : list A :=
  match l with
  | [] => []
  | a :: rest =>
      if decide (key a ∈ seen) then keep_first seen rest
      else a :: keep_first (key a :: seen) rest
  end.

(** The first entry of [l] whose key is [k]. *)
Definition first_with (k : K) (l : list A) : option A :=
  List.find (fun a => bool_decide (key a = k)) l.
End KeepFirst.

(** A detection with the code of [d] and everything else taken from
    [f d]: confidence, bounding box, timestamp, provenance, raw text and
    detection method. *)
Definition with_payload (f : GiftCodeDetection.t -> GiftCodeDetection.t)
    (d : GiftCodeDetection.t) : GiftCodeDetection.t :=
  {| GiftCodeDetection.code := GiftCodeDetection.code d;
     GiftCodeDetection.confidence := GiftCodeDetection.confidence (f d);
     GiftCodeDetection.boundingBox := GiftCodeDetection.boundingBox (f d);
     GiftCodeDetection.timestamp := GiftCodeDetection.timestamp (f d);
     GiftCodeDetection.source := GiftCodeDetection.source (f d);
     GiftCodeDetection.rawText := GiftCodeDetection.rawText (f d);
     GiftCodeDetection.detectionMethod := GiftCodeDetection.detectionMethod (f d) |}.

(** The normalized code of a detection, recomputed from its [code]. *)
Definition normalized (d : GiftCodeDetection.t) : string :=
  GiftCode.normalizeGiftCode (GiftCodeDetection.code d).

(** A detection whose [code] is already in canonical dashed form. *)
Definition canonical (d : GiftCodeDetection.t) : Prop :=
  normalized d = GiftCodeDetection.code d.

(** Section 4.4: the penalty is counted per occurrence of an ambiguous
    character. *)
Definition ambiguous (c : ascii) : bool :=
  existsb (Ascii.eqb c) GiftCode.excludedChars.

Fixpoint occurrences (p : ascii -> bool) (s : string) : nat :=
  match s with
  | EmptyString => 0
  | String c s' => (if p c then 1 else 0) + occurrences p s'
  end.

Definition clamp (q : Q) : Q := Qmax 0.1%Q (Qmin 1.0%Q q).

Definition dashed_bonus (code : string) : Q :=
  if JS.test_anchored GiftCode.dashed_classes code then 0.1%Q else 0%Q.

Definition plausible_bonus (code : string) : Q :=
  if GiftCode.hasTypicalAmazonPattern (GiftCode.cleanCode code) then 0.05%Q else 0%Q.

Definition confidence_per_occurrence (code : string) (ocrConfidence : Q) : Q :=
  clamp (ocrConfidence + dashed_bonus code
         - inject_Z (Z.of_nat (occurrences ambiguous (GiftCode.cleanCode code))) * 0.05
         + plausible_bonus code)%Q.

(** What the code does instead: the number of distinct ambiguous
    characters that occur. *)
Definition distinct_ambiguous (code : string) : nat :=
  List.length
    (nodup ascii_dec
       (List.filter ambiguous (list_ascii_of_string (GiftCode.cleanCode code)))).

(** Two characters that are the same, or the same letter in two cases. *)
Definition letter_index (c : ascii) : option N :=
  if JS.is_upper c then Some (JS.code c - 65)%N
  else if JS.is_lower c then Some (JS.code c - 97)%N
  else None.

Definition same_letter (a b : ascii) : Prop :=
  a = b \/ (exists k, letter_index a = Some k /\ letter_index b = Some k).

Fixpoint differ_only_in_case (s1 s2 : string) : Prop :=
  match s1, s2 with
  | EmptyString, EmptyString => True
  | String a s1', String b s2' => same_letter a b /\ differ_only_in_case s1' s2'
  | _, _ => False
  end.

(** Two OCR results that differ at most in the letter case of [text]. *)
Definition case_variant (r1 r2 : OCRResult.t) : Prop :=
  differ_only_in_case (OCRResult.text r1) (OCRResult.text r2)
  /\ OCRResult.confidence r1 = OCRResult.confidence r2
  /\ OCRResult.boundingBox r1 = OCRResult.boundingBox r2
  /\ OCRResult.monetaryValues r1 = OCRResult.monetaryValues r2.

(** Section 4.5 (3): the arithmetic mean of the confidences, 0 if none. *)
Fixpoint sum_confidences (l : list GiftCodeDetection.t) : Q :=
  match l with
  | [] => 0
  | d :: rest => GiftCodeDetection.confidence d + sum_confidences rest
  end.

Definition mean_confidence (l : list GiftCodeDetection.t) : Q :=
  match l with
  | [] => 0
  | _ => sum_confidences l / inject_Z (Z.of_nat (List.length l))
  end.

(** Section 4.5 (1): the detections a process contributes, those of its
    result if it is completed and has any. *)
Definition detections_of (p : AnalysisProcess.t) : list GiftCodeDetection.t :=
  match AnalysisProcess.status p, AnalysisProcess.result p with
  | completed, Some (FullVideoResult giftCodes _)
  | completed, Some (TargetedResult giftCodes _ _ _) => giftCodes
  | _, _ => []
  end.

(** The laughter events a process contributes. *)
Definition laughter_of (p : AnalysisProcess.t) : list LaughterDetection.t :=
  match AnalysisProcess.status p, AnalysisProcess.result p with
  | completed, Some (AudioResult laughterPeaks _) => laughterPeaks
  | _, _ => []
  end.

(** The detections of the full scan as [runFullVideoAnalysis] stores
    them: those of each frame, frame after frame. *)
Definition full_scan_codes (videoId : string)
    (analyzeVideo : Exc Adapters.VideoAnalysis) : list GiftCodeDetection.t :=
  match analyzeVideo with
  | Ok result =>
      flat_map (fun frame =>
                  GiftCode.detectGiftCodes (FrameAnalysisResult.ocrResults frame)
                    videoId (Some (FrameAnalysisResult.timestamp frame)))
               (Adapters.frameAnalysis result)
  | Throw _ => []
  end.

(** The detections of a targeted scan whose segment analysis has
    answered, without error, by the time of the aggregation. *)
Definition answered_codes (env : Coordinator.Run_environment)
    (d : Coordinator.Dispatch) : list GiftCodeDetection.t :=
  match Coordinator.segment_answer env d with
  | Some (Ok result, _) => Adapters.giftCodes result
  | _ => []
  end.

(** Section 4.5 (4). *)
Definition recommendedAction (deduplicated : list GiftCodeDetection.t) : Action :=
  if existsb (fun d => Qgtb (GiftCodeDetection.confidence d) 0.8%Q) deduplicated
  then investigate
  else match deduplicated with
       | _ :: _ => monitor
       | [] => ignore
       end.

(** Section 4.3 step 4: the window of a targeted scan. *)
Definition leadSeconds : Q := 5.
Definition windowSeconds : Q := 60.

Definition window (t : Q) : Q * Q :=
  (t + leadSeconds, t + leadSeconds + windowSeconds)%Q.

(** Section 4.3 step 2, as the code has it.  A look at the records sees
    both completed when the first audio process and the first transcript
    process of the list are completed. *)
Definition both_completed_at (processes : list AnalysisProcess.t)
    (audioProcess transcriptProcess : AnalysisProcess.t) : Prop :=
  List.find (fun p => bool_decide (AnalysisProcess.type p = audio)) processes
  = Some audioProcess
  /\ List.find (fun p => bool_decide (AnalysisProcess.type p = transcript)) processes
     = Some transcriptProcess
  /\ AnalysisProcess.status audioProcess = completed
  /\ AnalysisProcess.status transcriptProcess = completed.

Definition not_both_completed (processes : list AnalysisProcess.t) : Prop :=
  forall audioProcess transcriptProcess,
    ~ both_completed_at processes audioProcess transcriptProcess.

(** The anchor wait ends at poll [k] with the events [ts]: every earlier
    poll was made within the five minutes and did not see both completed;
    poll [k] is either made within the five minutes and sees both
    completed, and [ts] are the events of the two processes, those of the
    audio process first; or it is made after the five minutes, and there
    is no event. *)
Definition anchor_wait_ends (startTime : Z) (clock : nat -> Z)
    (view : nat -> list AnalysisProcess.t) (k : nat) (ts : list LaughTimestamp.t) : Prop :=
  (forall j, (j < k)%nat ->
     (clock j - startTime < Coordinator.maxWaitTime)%Z /\ not_both_completed (view j))
  /\ (((clock k - startTime < Coordinator.maxWaitTime)%Z
       /\ exists audioProcess transcriptProcess,
            both_completed_at (view k) audioProcess transcriptProcess
            /\ ts = Coordinator.audio_timestamps audioProcess
                    ++ Coordinator.transcript_timestamps transcriptProcess)
      \/ ((Coordinator.maxWaitTime <= clock k - startTime)%Z /\ ts = [])).

(** Section 3: the invariant of a process record. *)
Definition terminal (s : ProcessStatus) : Prop := s = completed \/ s = failed.

Definition end_time_iff_terminal (p : AnalysisProcess.t) : Prop :=
  AnalysisProcess.endTime p <> None <-> terminal (AnalysisProcess.status p).

(** Along a sequence of observations, a terminal status is never left. *)
Fixpoint stays_terminal (trace : list AnalysisProcess.t) : Prop :=
  match trace with
  | [] => True
  | p :: rest =>
      (terminal (AnalysisProcess.status p) ->
       Forall (fun p' => AnalysisProcess.status p' = AnalysisProcess.status p) rest)
      /\ stays_terminal rest
  end.

(** Reading a time field: a string of decimal digits and its value, digit
    by digit with positional weights. *)
Fixpoint all_digits (s : string) : bool :=
  match s with
  | EmptyString => true
  | String c s' => JS.is_digit c && all_digits s'
  end.

Definition digits (s : string) : bool :=
  match s with
  | EmptyString => false
  | String _ _ => all_digits s
  end.

Fixpoint decimal (s : string) : Z :=
  match s with
  | EmptyString => 0
  | String c s' => JS.digit_value c * 10 ^ Z.of_nat (String.length s') + decimal s'
  end.

Fixpoint free_of (sep : ascii) (s : string) : bool :=
  match s with
  | EmptyString => true
  | String c s' => negb (Ascii.eqb c sep) && free_of sep s'
  end.

Definition time_of (h m sec ms : Z) : Q :=
  (inject_Z h * 3600 + inject_Z m * 60 + inject_Z sec + inject_Z ms / 1000)%Q.

End Spec.

(** ** Sample data *)

Module Sample.

Definition box : BoundingBox.t :=
  {| BoundingBox.x := 0; BoundingBox.y := 0;
     BoundingBox.width := 0; BoundingBox.height := 0 |}.

Definition detection (code : string) (confidence : Q) : GiftCodeDetection.t :=
  {| GiftCodeDetection.code := code;
     GiftCodeDetection.confidence := confidence;
     GiftCodeDetection.boundingBox := box;
     GiftCodeDetection.timestamp := 0;
     GiftCodeDetection.source := video_frame;
     GiftCodeDetection.rawText := code;
     GiftCodeDetection.detectionMethod := "hyphen-separated" |}.

Definition detections : list GiftCodeDetection.t :=
  [ detection "AAAA-112233-BBBB" 0.9;
    detection "AAAA-112233-BBBB" 0.5;
    detection "CCCC-445566-DDDD" 0.7 ].

Definition ocr (text : string) (confidence : Q) : OCRResult.t :=
  {| OCRResult.text := text;
     OCRResult.confidence := confidence;
     OCRResult.boundingBox := box;
     OCRResult.monetaryValues := [] |}.

(** A dashed code with three occurrences of the character 1. *)
Definition three_ones : string := "A1B1-C1XYZW-QRST".

(** A clock that advances by one second per reading. *)
Definition seconds (i : nat) : Z := (1000 * Z.of_nat i)%Z.

(** A transcript with one laugh segment at t = 42.0 s. *)
Definition laugh_segment : TranscriptSegment.t :=
  {| TranscriptSegment.text := "haha that was funny";
     TranscriptSegment.startTime := 42.0;
     TranscriptSegment.endTime := 45.0;
     TranscriptSegment.confidence := 0.8;
     TranscriptSegment.keywords := ["funny"] |}.

Definition transcript_analysis : Adapters.TranscriptAnalysis :=
  {| Adapters.segments := [laugh_segment];
     Adapters.keywords := ["funny"];
     Adapters.suspiciousSegments := [] |}.

(** The three base processes at a moment when the full scan and the
    audio analysis are still running and the transcript analysis has
    completed. *)
Definition fullVideoProcess : AnalysisProcess.t :=
  Coordinator.run_block
    (Coordinator.new_process (base_id full_video "v" 0) full_video 0)
    [Coordinator.set_status running].

Definition audioProcess : AnalysisProcess.t :=
  Coordinator.run_block
    (Coordinator.new_process (base_id audio "v" 0) audio 0)
    [Coordinator.set_status running].

Definition transcriptProcess : AnalysisProcess.t :=
  Coordinator.final
    (Coordinator.new_process (base_id transcript "v" 0) transcript 0)
    (Coordinator.runTranscriptAnalysis (Ok transcript_analysis) 2000).

Definition audio_still_running : list AnalysisProcess.t :=
  [fullVideoProcess; audioProcess; transcriptProcess].

(** The same moment with the audio analysis completed, without any
    laughter peak. *)
Definition audioProcess_completed : AnalysisProcess.t :=
  Coordinator.final
    (Coordinator.new_process (base_id audio "v" 0) audio 0)
    (Coordinator.runAudioAnalysis
       (Ok {| Adapters.laughterPeaks := []; Adapters.suspiciousAudioSegments := [] |})
       3000).

Definition audio_completed : list AnalysisProcess.t :=
  [fullVideoProcess; audioProcess_completed; transcriptProcess].

(** A full scan that found a code at confidence 0.9 and a targeted scan
    that found the same code at confidence 0.5, both completed, and a
    failed full scan. *)
Definition scan_found (confidence : Q) : AnalysisProcess.t :=
  Coordinator.run_block
    (Coordinator.new_process (base_id full_video "v" 0) full_video 0)
    [Coordinator.set_result (FullVideoResult [detection "AAAA-112233-BBBB" confidence] []);
     Coordinator.set_status completed;
     Coordinator.set_endTime 1000].

Definition scan_failed : AnalysisProcess.t :=
  Coordinator.final
    (Coordinator.new_process (base_id full_video "v" 0) full_video 0)
    (Coordinator.runFullVideoAnalysis "v" (Throw "provider unreachable") 1000).

(** The time-anchored event of [laugh_segment]. *)
Definition event_at_42 : LaughTimestamp.t :=
  {| LaughTimestamp.timestamp := 42.0;
     LaughTimestamp.confidence := 0.8;
     LaughTimestamp.source := from_transcript;
     LaughTimestamp.context := text_context "haha that was funny" |}.

(** An audio provider that finds no laughter and a caption provider whose
    transcript parses to [laugh_segment]. *)
Definition silent : Adapters.AudioProvider :=
  {| Adapters.extractAudio := Ok "temp/audio/v.wav";
     Adapters.detectLaughterPeaks := fun _ => [];
     Adapters.analyzeSuspiciousSegments := fun _ => [];
     Adapters.audio_cleanup := fun _ => Ok tt |}.

Definition captioned : Adapters.TranscriptProvider :=
  {| Adapters.captions := Ok (Some "haha that was funny");
     Adapters.parseTranscript := fun _ => Ok [laugh_segment];
     Adapters.findSuspiciousSegments := fun _ => Ok [];
     Adapters.extractKeywords := fun _ => Ok ["funny"] |}.

(** A frame-scan provider that samples two frames showing the same code,
    and what [analyzeVideo] answers with it. *)
Definition frame (n : Z) (t : Q) (text : string) : FrameAnalysisResult.t :=
  {| FrameAnalysisResult.frameNumber := n;
     FrameAnalysisResult.timestamp := t;
     FrameAnalysisResult.ocrResults := [ocr text 0.9] |}.

Definition two_frames : Adapters.VideoProvider :=
  {| Adapters.downloadVideo := Ok "temp/v.mp4";
     Adapters.analyzeFrames :=
       fun _ => [frame 0 0 "code AB12-CD34EF-GH56"; frame 1 5 "ab12cd34efgh56"];
     Adapters.downloadVideoSegment := fun _ _ => Ok "temp/segments/v.mp4";
     Adapters.analyzeFramesInSegment := fun _ _ _ => [];
     Adapters.video_cleanup := fun _ => Ok tt |}.

Definition two_frames_analysis : Adapters.VideoAnalysis :=
  {| Adapters.giftCodes :=
       Adapters.extractGiftCodesFromFrames
         [frame 0 0 "code AB12-CD34EF-GH56"; frame 1 5 "ab12cd34efgh56"] "v";
     Adapters.frameAnalysis :=
       [frame 0 0 "code AB12-CD34EF-GH56"; frame 1 5 "ab12cd34efgh56"] |}.

(** A run in which the full scan fails, the audio has no laughter, the
    transcript has [laugh_segment], and the one targeted scan finds a
    code. *)
Definition run : Coordinator.Run_environment :=
  {| Coordinator.base_clock := seconds;
     Coordinator.analyzeVideo := Throw "provider unreachable";
     Coordinator.analyzeAudio :=
       Ok {| Adapters.laughterPeaks := []; Adapters.suspiciousAudioSegments := [] |};
     Coordinator.analyzeTranscript := Ok transcript_analysis;
     Coordinator.anchor_wait_start := 9000;
     Coordinator.anchor_wait_clock := fun i => (9000 + seconds i)%Z;
     Coordinator.dispatch_clock := fun i => (10000 + Z.of_nat i)%Z;
     Coordinator.segment_answer :=
       fun _ => Some (Ok {| Adapters.giftCodes := [detection "AAAA-112233-BBBB" 0.9];
                            Adapters.frameAnalysis := [] |}, 20000%Z);
     Coordinator.aggregate_start := 0;
     Coordinator.aggregate_processedAt := 21000;
     Coordinator.aggregate_now := 21000 |}.

(** A frame-scan provider whose download fails. *)
Definition unreachable : Adapters.VideoProvider :=
  {| Adapters.downloadVideo := Throw "provider unreachable";
     Adapters.analyzeFrames := fun _ => [];
     Adapters.downloadVideoSegment := fun _ _ => Throw "provider unreachable";
     Adapters.analyzeFramesInSegment := fun _ _ _ => [];
     Adapters.video_cleanup := fun _ => Ok tt |}.

(** A video whose thumbnail shows no money, with services that answer
    every call; and one whose thumbnail shows money, with a coordinator
    that aggregates one completed scan with a confident detection. *)
Definition video : Processor.VideoMetadata :=
  {| Processor.videoId := "v";
     Processor.title := "a title";
     Processor.thumbnailUrl := "https://example.org/v.jpg" |}.

Definition job : Processor.ProcessingJob := {| Processor.id := "job-1" |}.

Definition services (money : bool) : Processor.Services :=
  {| Processor.now := fun n => (1000 + Z.of_nat n)%Z;
     Processor.updateJob := fun _ _ => Ok tt;
     Processor.analyzeThumbnail := fun _ _ =>
       Ok {| Processor.monetaryDetections := [];
             Processor.hasMoneyThumbnail := money |};
     Processor.saveResult := fun _ => Ok tt;
     Processor.analyzeVideoForGiftCodes := fun videoId _ _ =>
       Ok (Coordinator.aggregateResults [scan_found 0.9] videoId 0 0 0) |}.

(** The base processes of a run in which the frame scan fails, the audio
    analysis finds no laughter and the transcript has [laugh_segment]; and
    the clock of an anchor wait that reads its start time at 9000 and is
    then held up, so that its first poll is made five minutes later. *)
Definition base_processes : list AnalysisProcess.t :=
  Coordinator.startParallelAnalysis "v" seconds (Throw "provider unreachable")
    (Adapters.analyzeAudio silent) (Adapters.analyzeTranscript captioned).

Definition held_up (i : nat) : Z := (9000 + 300000 + seconds i)%Z.

End Sample.

(* ===================================================================== *)
(** * Part II. Properties *)
(* ===================================================================== *)

(** ** Deduplication keeps the first entry of every key *)

Section KeepFirstFacts.
Context {A K : Type} `{EqDecision K} (key : A -> K).

Lemma keep_first_fresh seen l a :
  In a (Spec.keep_first key seen l) -> key a ∉ seen.
Proof.
  revert seen. induction l as [|b l IH]; intros seen; simpl; [tauto|].
  destruct (decide (key b ∈ seen)) as [Hin|Hout].
  - apply IH.
  - intros [->|Ha]; [assumption|].
    apply IH in Ha. rewrite not_elem_of_cons in Ha. tauto.
Qed.

Lemma keep_first_incl seen l a :
  In a (Spec.keep_first key seen l) -> In a l.
Proof.
  revert seen. induction l as [|b l IH]; intros seen; simpl; [tauto|].
  destruct (decide (key b ∈ seen)); simpl.
  - intros Ha. right. eapply IH, Ha.
  - intros [Ha|Ha]; [left; assumption | right; eapply IH, Ha].
Qed.

Lemma keep_first_NoDup seen l :
  NoDup (map key (Spec.keep_first key seen l)).
Proof.
  revert seen. induction l as [|b l IH]; intros seen; simpl.
  - constructor.
  - destruct (decide (key b ∈ seen)); [apply IH|].
    simpl. constructor; [|apply IH].
    rewrite list_elem_of_In, in_map_iff. intros (a & Hk & Ha).
    apply keep_first_fresh in Ha. rewrite not_elem_of_cons in Ha.
    destruct Ha as [Hne _]. congruence.
Qed.

Lemma keep_first_idempotent seen l :
  Spec.keep_first key seen (Spec.keep_first key seen l) = Spec.keep_first key seen l.
Proof.
  revert seen. induction l as [|b l IH]; intros seen; simpl; [reflexivity|].
  destruct (decide (key b ∈ seen)) as [Hin|Hout]; [apply IH|].
  simpl. destruct (decide (key b ∈ seen)); [contradiction|].
  f_equal. apply IH.
Qed.

Lemma keep_first_map (f : A -> A) seen l :
  (forall a, key (f a) = key a) ->
  Spec.keep_first key seen (map f l) = map f (Spec.keep_first key seen l).
Proof.
  intros Hf. revert seen. induction l as [|b l IH]; intros seen; simpl; [reflexivity|].
  rewrite Hf. destruct (decide (key b ∈ seen)); [apply IH|].
  simpl. f_equal. apply IH.
Qed.

Lemma keep_first_first_with seen l k :
  k ∉ seen ->
  Spec.first_with key k (Spec.keep_first key seen l) = Spec.first_with key k l.
Proof.
  unfold Spec.first_with.
  revert seen. induction l as [|b l IH]; intros seen Hk; simpl; [reflexivity|].
  destruct (decide (key b ∈ seen)) as [Hin|Hout].
  - rewrite bool_decide_eq_false_2 by (intros Heq; subst k; contradiction).
    apply IH, Hk.
  - simpl. destruct (bool_decide (key b = k)) eqn:Hb; [reflexivity|].
    apply IH. rewrite not_elem_of_cons. split; [|assumption].
    apply bool_decide_eq_false in Hb. congruence.
Qed.

(** Distinct keys give distinct images under any other key function
    that separates at least as much on the entries at hand. *)
Lemma NoDup_map_other {K'} (key' : A -> K') (r : list A) :
  (forall a b, In a r -> In b r -> key' a = key' b -> key a = key b) ->
  NoDup (map key r) -> NoDup (map key' r).
Proof.
  induction r as [|a r IH]; simpl; intros Hinj Hnd; [constructor|].
  apply NoDup_cons in Hnd as [Ha Hr].
  constructor.
  - rewrite list_elem_of_In, in_map_iff. intros (b & Hb & Hin).
    apply Ha. rewrite list_elem_of_In, in_map_iff.
    exists b. split; [|assumption].
    apply Hinj; [right; assumption|left; reflexivity|assumption].
  - apply IH; [|assumption]. intros; apply Hinj; try right; assumption.
Qed.

End KeepFirstFacts.

Section KeepFirstExt.
Context {A K : Type} `{EqDecision K} (key : A -> K).

Lemma keep_first_ext (s1 s2 : list K) (l : list A) :
  (forall k, k ∈ s1 <-> k ∈ s2) ->
  Spec.keep_first key s1 l = Spec.keep_first key s2 l.
Proof.
  revert s1 s2. induction l as [|a l IH]; intros s1 s2 Hs; simpl; [reflexivity|].
  destruct (decide (key a ∈ s1)) as [H1|H1], (decide (key a ∈ s2)) as [H2|H2].
  - apply IH, Hs.
  - apply Hs in H1. contradiction.
  - apply Hs in H2. contradiction.
  - f_equal. apply IH. intros k. rewrite !elem_of_cons, Hs. reflexivity.
Qed.
End KeepFirstExt.

(** ** The two loops over a [Set] of seen codes *)

Ltac seen_loop IH :=
  match goal with
  | |- context [decide (?k ∈ ?seen)] =>
      match goal with
      | Hs : forall k, k ∈ seen <-> k ∈ ?seenL |- _ =>
          destruct (decide (k ∈ seen)) as [H1|H1], (decide (k ∈ seenL)) as [H2|H2];
          [ apply IH, Hs
          | apply Hs in H1; contradiction
          | apply Hs in H2; contradiction
          | rewrite (IH ({[k]} ∪ seen) (k :: seenL));
            [ rewrite <- List.app_assoc; reflexivity
            | intros k'; rewrite elem_of_union, elem_of_singleton, elem_of_cons, Hs;
              reflexivity ] ]
      end
  end.

Lemma removeDuplicateCodes_loop_keep_first codes :
  forall (seen : gset string) (seenL : list string) unique,
    (forall k, k ∈ seen <-> k ∈ seenL) ->
    GiftCode.removeDuplicateCodes_loop codes seen unique
    = unique ++ Spec.keep_first Spec.normalized seenL codes.
Proof.
  unfold Spec.normalized.
  induction codes as [|code codes IH]; intros seen seenL unique Hs; simpl.
  - symmetry. apply app_nil_r.
  - seen_loop IH.
Qed.

Lemma removeDuplicateCodes_keep_first codes :
  GiftCode.removeDuplicateCodes codes = Spec.keep_first Spec.normalized [] codes.
Proof.
  unfold GiftCode.removeDuplicateCodes.
  rewrite (removeDuplicateCodes_loop_keep_first codes ∅ [] []); [reflexivity|].
  intros k. rewrite elem_of_empty, elem_of_nil. reflexivity.
Qed.

Lemma removeDuplicateGiftCodes_loop_keep_first codes :
  forall (seen : gset string) (seenL : list string) unique,
    (forall k, k ∈ seen <-> k ∈ seenL) ->
    Adapters.removeDuplicateGiftCodes_loop codes seen unique
    = unique ++ Spec.keep_first GiftCodeDetection.code seenL codes.
Proof.
  induction codes as [|code codes IH]; intros seen seenL unique Hs; simpl.
  - symmetry. apply app_nil_r.
  - seen_loop IH.
Qed.

Lemma removeDuplicateGiftCodes_keep_first codes :
  Adapters.removeDuplicateGiftCodes codes
  = Spec.keep_first GiftCodeDetection.code [] codes.
Proof.
  unfold Adapters.removeDuplicateGiftCodes.
  rewrite (removeDuplicateGiftCodes_loop_keep_first codes ∅ [] []); [reflexivity|].
  intros k. rewrite elem_of_empty, elem_of_nil. reflexivity.
Qed.

(** ** The aggregator's [filter] with [findIndex] *)

Lemma findIndex_lt {A} (p : A -> bool) l j :
  Coordinator.findIndex p l = Some j -> (j < List.length l)%nat.
Proof.
  revert j. induction l as [|a l IH]; intros j; simpl; [discriminate|].
  destruct (p a).
  - intros [= <-]. lia.
  - destruct (Coordinator.findIndex p l) as [i|]; simpl; [|discriminate].
    intros [= <-]. specialize (IH i eq_refl). lia.
Qed.

Lemma findIndex_None {A} (p : A -> bool) l :
  Coordinator.findIndex p l = None <-> (forall a, In a l -> p a = false).
Proof.
  induction l as [|a l IH]; simpl; [tauto|].
  destruct (p a) eqn:Hp.
  - split; [discriminate|]. intros H. rewrite (H a) in Hp by (left; reflexivity).
    discriminate.
  - destruct (Coordinator.findIndex p l) as [i|]; simpl.
    + split; [discriminate|]. intros H.
      assert (Some i = @None nat) by (apply IH; intros; apply H; right; assumption).
      discriminate.
    + split; [|reflexivity]. intros _ b [<-|Hb]; [assumption|].
      apply IH; [reflexivity|assumption].
Qed.

Lemma findIndex_app {A} (p : A -> bool) l1 l2 :
  Coordinator.findIndex p (l1 ++ l2)
  = match Coordinator.findIndex p l1 with
    | Some j => Some j
    | None => option_map (Nat.add (List.length l1)) (Coordinator.findIndex p l2)
    end.
Proof.
  induction l1 as [|a l1 IH]; simpl.
  - destruct (Coordinator.findIndex p l2); reflexivity.
  - destruct (p a); [reflexivity|]. rewrite IH.
    destruct (Coordinator.findIndex p l1); [reflexivity|].
    destruct (Coordinator.findIndex p l2); reflexivity.
Qed.

Lemma first_of_its_code_from suffix :
  forall prefix array,
    array = prefix ++ suffix ->
    Coordinator.filter_index
      (fun code index =>
         match Coordinator.findIndex (Coordinator.same_code code) array with
         | Some j => (j =? index)%nat
         | None => false
         end)
      (List.length prefix) suffix
    = Spec.keep_first GiftCodeDetection.code (map GiftCodeDetection.code prefix) suffix.
Proof.
  induction suffix as [|a rest IH]; intros prefix array Harr; simpl; [reflexivity|].
  assert (Hnext :
    Coordinator.filter_index
      (fun code index =>
         match Coordinator.findIndex (Coordinator.same_code code) array with
         | Some j => (j =? index)%nat
         | None => false
         end)
      (S (List.length prefix)) rest
    = Spec.keep_first GiftCodeDetection.code
        (GiftCodeDetection.code a :: map GiftCodeDetection.code prefix) rest).
  { replace (S (List.length prefix)) with (List.length (prefix ++ [a]))
      by (rewrite length_app; simpl; lia).
    rewrite (IH (prefix ++ [a]) array) by (rewrite <- app_assoc; exact Harr).
    apply keep_first_ext. intros k.
    rewrite map_app. simpl. rewrite elem_of_app, list_elem_of_singleton, elem_of_cons.
    tauto. }
  rewrite Hnext. clear Hnext IH.
  subst array. rewrite findIndex_app. simpl.
  assert (Haa : Coordinator.same_code a a = true) by apply String.eqb_refl.
  rewrite Haa. simpl.
  destruct (Coordinator.findIndex (Coordinator.same_code a) prefix) as [j|] eqn:Hj.
  - pose proof (findIndex_lt _ _ _ Hj) as Hlt.
    replace (j =? List.length prefix)%nat with false
      by (symmetry; apply Nat.eqb_neq; lia).
    destruct (decide (GiftCodeDetection.code a ∈ map GiftCodeDetection.code prefix))
      as [Hin|Hout].
    { apply keep_first_ext. intros k. rewrite elem_of_cons.
      split; [intros [->|Hk]; assumption | intros Hk; right; assumption]. }
    exfalso. apply Hout. clear Hout Hlt.
    revert j Hj. induction prefix as [|b prefix IHp]; intros j; simpl; [discriminate|].
    destruct (Coordinator.same_code a b) eqn:Hab.
    + intros _. apply String.eqb_eq in Hab. rewrite Hab. apply list_elem_of_here.
    + destruct (Coordinator.findIndex _ prefix) as [i|]; [|discriminate].
      intros _. apply list_elem_of_further. eapply IHp. reflexivity.
  - rewrite Nat.add_0_r, Nat.eqb_refl.
    destruct (decide (GiftCodeDetection.code a ∈ map GiftCodeDetection.code prefix))
      as [Hin|_]; [|reflexivity].
    exfalso. rewrite list_elem_of_In, in_map_iff in Hin.
    destruct Hin as (b & Hb & Hin).
    rewrite findIndex_None in Hj. specialize (Hj b Hin).
    unfold Coordinator.same_code in Hj. rewrite Hb, String.eqb_refl in Hj.
    discriminate.
Qed.

Lemma first_of_its_code_keep_first array :
  Coordinator.first_of_its_code array = Spec.keep_first GiftCodeDetection.code [] array.
Proof.
  unfold Coordinator.first_of_its_code.
  exact (first_of_its_code_from array [] array eq_refl).
Qed.

Lemma uniqueGiftCodes_keep_first videoId l :
  Coordinator.uniqueGiftCodes videoId l = Spec.keep_first GiftCodeDetection.code [] l.
Proof.
  unfold Coordinator.uniqueGiftCodes. apply first_of_its_code_keep_first.
Qed.

(** ** Normalization *)

Lemma alnum_not_separator c : JS.alnum c = true -> JS.separator c = false.
Proof.
  destruct c as [[] [] [] [] [] [] [] []]; vm_compute; congruence.
Qed.

Lemma test_anchored_group_14 c1 c2 c3 c4 c5 c6 c7 c8 c9 c10 c11 c12 c13 c14 :
  JS.test_anchored (GiftCode.group 14)
    (String c1 (String c2 (String c3 (String c4 (String c5 (String c6 (String c7
    (String c8 (String c9 (String c10 (String c11 (String c12 (String c13
    (String c14 EmptyString)))))))))))))) = true ->
  Forall (fun c => JS.separator c = false)
    [c1; c2; c3; c4; c5; c6; c7; c8; c9; c10; c11; c12; c13; c14].
Proof.
  unfold JS.test_anchored, GiftCode.group. simpl.
  intros H.
  repeat match goal with
  | H : context [if JS.alnum ?c then _ else _] |- _ =>
      let E := fresh "E" in
      destruct (JS.alnum c) eqn:E; [apply alnum_not_separator in E|discriminate H]
  end.
  repeat constructor; assumption.
Qed.

(** A code that passes [isValidAmazonGiftCode] is normalized to a fixed
    point of [normalizeGiftCode]. *)
Lemma normalizeGiftCode_idempotent code :
  GiftCode.isValidAmazonGiftCode code = true ->
  GiftCode.normalizeGiftCode (GiftCode.normalizeGiftCode code)
  = GiftCode.normalizeGiftCode code.
Proof.
  unfold GiftCode.isValidAmazonGiftCode, GiftCode.normalizeGiftCode.
  generalize (GiftCode.cleanCode code) as s. intros s.
  destruct (String.length s =? 14)%nat eqn:Hlen; simpl; [|discriminate].
  destruct (JS.test_anchored (GiftCode.group 14) s) eqn:Htest; simpl; [|discriminate].
  intros _. apply Nat.eqb_eq in Hlen.
  do 14 (destruct s as [|? s]; [discriminate Hlen|]).
  destruct s; [|discriminate Hlen].
  apply test_anchored_group_14 in Htest.
  repeat match goal with
  | H : Forall _ (_ :: _) |- _ =>
      let E := fresh "E" in apply Forall_cons in H as [E H]
  end.
  unfold GiftCode.cleanCode.
  cbn [substring]. cbv beta iota delta [String.append].
  repeat (cbn [substring JS.remove];
          change (JS.separator "-") with true;
          try match goal with
              | E : JS.separator ?c = false |- context [JS.separator ?c] => rewrite E
              end).
  reflexivity.
Qed.

(** Every detection built by [detectGiftCodes] carries a canonical code. *)
Lemma detectGiftCodes_canonical ocrResults videoId timestamp :
  Forall Spec.canonical (GiftCode.detectGiftCodes ocrResults videoId timestamp).
Proof.
  apply List.Forall_forall. intros d Hd.
  unfold GiftCode.detectGiftCodes in Hd.
  rewrite removeDuplicateCodes_keep_first in Hd.
  apply keep_first_incl in Hd.
  apply in_flat_map in Hd as (r & _ & Hd).
  unfold GiftCode.detect_in_result in Hd.
  apply in_flat_map in Hd as (p & _ & Hd).
  apply in_flat_map in Hd as (m & _ & Hd).
  unfold GiftCode.detection_of_match in Hd.
  destruct (GiftCode.isValidAmazonGiftCode m) eqn:Hvalid; [|destruct Hd].
  destruct Hd as [<-|[]].
  unfold Spec.canonical, Spec.normalized. simpl.
  apply normalizeGiftCode_idempotent, Hvalid.
Qed.

(** ** C4: deduplication *)

(** C4.  Deduplication, in the pattern validator ([removeDuplicateCodes])
    and across processes in the aggregator ([uniqueGiftCodes]): no two
    entries of the result share a normalized code; applying it again
    changes nothing; it depends on the codes alone, so that replacing
    confidence, bounding box, timestamp, provenance, raw text and method
    of the entries commutes with it; and the first entry of every code is
    the one that is kept.  The validator keys on [normalizeGiftCode code],
    the aggregator on the [code] field, which is the normalized code of
    every detection in canonical form. *)
Theorem deduplication_keeps_first_of_each_code
    (l : list GiftCodeDetection.t) (videoId : string) :
  (NoDup (map Spec.normalized (GiftCode.removeDuplicateCodes l))
   /\ GiftCode.removeDuplicateCodes (GiftCode.removeDuplicateCodes l)
      = GiftCode.removeDuplicateCodes l
   /\ (forall f,
         GiftCode.removeDuplicateCodes (map (Spec.with_payload f) l)
         = map (Spec.with_payload f) (GiftCode.removeDuplicateCodes l))
   /\ (forall k,
         Spec.first_with Spec.normalized k (GiftCode.removeDuplicateCodes l)
         = Spec.first_with Spec.normalized k l))
  /\
  (NoDup (map GiftCodeDetection.code (Coordinator.uniqueGiftCodes videoId l))
   /\ Coordinator.uniqueGiftCodes videoId (Coordinator.uniqueGiftCodes videoId l)
      = Coordinator.uniqueGiftCodes videoId l
   /\ (forall f,
         Coordinator.uniqueGiftCodes videoId (map (Spec.with_payload f) l)
         = map (Spec.with_payload f) (Coordinator.uniqueGiftCodes videoId l))
   /\ (forall k,
         Spec.first_with GiftCodeDetection.code k (Coordinator.uniqueGiftCodes videoId l)
         = Spec.first_with GiftCodeDetection.code k l)
   /\ (Forall Spec.canonical l ->
       NoDup (map Spec.normalized (Coordinator.uniqueGiftCodes videoId l)))).
Proof.
  rewrite !removeDuplicateCodes_keep_first, !uniqueGiftCodes_keep_first.
  split; [|split]; repeat apply conj.
  - apply keep_first_NoDup.
  - apply keep_first_idempotent.
  - intros f. rewrite removeDuplicateCodes_keep_first.
    apply keep_first_map. reflexivity.
  - intros k. apply keep_first_first_with, not_elem_of_nil.
  - apply keep_first_NoDup.
  - apply keep_first_idempotent.
  - intros f. rewrite uniqueGiftCodes_keep_first.
    apply keep_first_map. reflexivity.
  - intros k. apply keep_first_first_with, not_elem_of_nil.
  - intros Hcanon.
    apply (NoDup_map_other GiftCodeDetection.code); [|apply keep_first_NoDup].
    rewrite List.Forall_forall in Hcanon.
    intros a b Ha Hb Hab.
    apply keep_first_incl in Ha, Hb.
    rewrite <- (Hcanon a Ha), <- (Hcanon b Hb). exact Hab.
Qed.

Lemma deduplication_keeps_first_of_each_code_witness :
  Forall Spec.canonical Sample.detections
  /\ NoDup (map Spec.normalized (Coordinator.uniqueGiftCodes "v" Sample.detections)).
Proof.
  assert (H : Forall Spec.canonical Sample.detections) by (repeat constructor).
  split; [exact H|].
  apply (deduplication_keeps_first_of_each_code Sample.detections "v"), H.
Defined.

(** ** C7: the confidence is clamped *)

Lemma clamp_bounds q : (0.1 <= Spec.clamp q /\ Spec.clamp q <= 1.0)%Q.
Proof.
  unfold Spec.clamp. split.
  - apply Q.le_max_l.
  - apply Q.max_lub; [discriminate|apply Q.le_min_l].
Qed.

(** C7.  Whatever the candidate code and the OCR confidence, the
    confidence computed by the validator lies in [0.1, 1.0]; so does the
    confidence of every detection returned by [detectGiftCodes]. *)
Theorem confidence_is_clamped :
  (forall (code : string) (ocrConfidence : Q),
     (0.1 <= GiftCode.calculateCodeConfidence code ocrConfidence
      /\ GiftCode.calculateCodeConfidence code ocrConfidence <= 1.0)%Q)
  /\
  (forall ocrResults videoId timestamp,
     Forall (fun d => (0.1 <= GiftCodeDetection.confidence d
                       /\ GiftCodeDetection.confidence d <= 1.0)%Q)
            (GiftCode.detectGiftCodes ocrResults videoId timestamp)).
Proof.
  assert (Hc : forall code ocrConfidence,
    (0.1 <= GiftCode.calculateCodeConfidence code ocrConfidence
     /\ GiftCode.calculateCodeConfidence code ocrConfidence <= 1.0)%Q).
  { intros code ocrConfidence. unfold GiftCode.calculateCodeConfidence.
    apply clamp_bounds. }
  split; [exact Hc|].
  intros ocrResults videoId timestamp.
  apply List.Forall_forall. intros d Hd.
  unfold GiftCode.detectGiftCodes in Hd.
  rewrite removeDuplicateCodes_keep_first in Hd.
  apply keep_first_incl in Hd.
  apply in_flat_map in Hd as (r & _ & Hd).
  unfold GiftCode.detect_in_result in Hd.
  apply in_flat_map in Hd as (p & _ & Hd).
  apply in_flat_map in Hd as (m & _ & Hd).
  unfold GiftCode.detection_of_match in Hd.
  destruct (GiftCode.isValidAmazonGiftCode m); [|destruct Hd].
  destruct Hd as [<-|[]]. simpl. apply Hc.
Qed.

(** ** C6: the penalty for ambiguous characters *)

Lemma includes_char_In c s :
  JS.includes_char c s = true <-> In c (list_ascii_of_string s).
Proof.
  induction s as [|d s IH]; simpl.
  - split; [discriminate|tauto].
  - rewrite orb_true_iff, IH, Ascii.eqb_eq. split; intros [H|H]; auto.
Qed.

Lemma ambiguous_In c : Spec.ambiguous c = true <-> In c GiftCode.excludedChars.
Proof.
  unfold Spec.ambiguous. rewrite existsb_exists. split.
  - intros (d & Hd & Heq). apply Ascii.eqb_eq in Heq. subst. assumption.
  - intros Hc. exists c. split; [assumption|apply Ascii.eqb_refl].
Qed.

Lemma excludedChars_NoDup : List.NoDup GiftCode.excludedChars.
Proof.
  unfold GiftCode.excludedChars.
  repeat constructor; simpl; intuition discriminate.
Qed.

(** The count taken by [calculateCodeConfidence] is the number of
    distinct ambiguous characters of the code. *)
Lemma excludedCount_distinct code :
  GiftCode.excludedCount code = Spec.distinct_ambiguous code.
Proof.
  unfold GiftCode.excludedCount, Spec.distinct_ambiguous.
  apply Permutation_length, Permutation.NoDup_Permutation.
  - apply List.NoDup_filter, excludedChars_NoDup.
  - apply List.NoDup_nodup.
  - intros c. rewrite nodup_In, !filter_In, includes_char_In, ambiguous_In. tauto.
Qed.

Lemma excludedCount_le code : (GiftCode.excludedCount code <= 4)%nat.
Proof.
  unfold GiftCode.excludedCount.
  etransitivity; [apply List.filter_length_le|]. reflexivity.
Qed.

(** C6, as the code has it.  The confidence is the OCR confidence, plus
    0.1 for the canonical dashed format, minus 0.05 for each distinct
    ambiguous character (0, O, I, 1) that occurs in the code, however
    often it occurs, plus 0.05 when the code shows no implausible
    pattern, clamped to [0.1, 1.0]; at most four penalties apply. *)
Theorem confidence_penalizes_distinct_ambiguous_characters
    (code : string) (ocrConfidence : Q) :
  (GiftCode.calculateCodeConfidence code ocrConfidence
   == Spec.clamp (ocrConfidence + Spec.dashed_bonus code
                  - inject_Z (Z.of_nat (Spec.distinct_ambiguous code)) * 0.05
                  + Spec.plausible_bonus code))%Q
  /\ (Spec.distinct_ambiguous code <= 4)%nat.
Proof.
  split; [|rewrite <- excludedCount_distinct; apply excludedCount_le].
  unfold GiftCode.calculateCodeConfidence, Spec.clamp, Spec.dashed_bonus,
    Spec.plausible_bonus.
  rewrite excludedCount_distinct.
  apply Q.max_compat; [reflexivity|]. apply Q.min_compat; [reflexivity|].
  destruct (JS.test_anchored GiftCode.dashed_classes code),
    (GiftCode.hasTypicalAmazonPattern (GiftCode.cleanCode code)); ring.
Qed.

(** C6 as stated fails: three occurrences of the character 1 cost one
    penalty, not three. *)
Lemma penalty_per_occurrence_counterexample :
  Spec.occurrences Spec.ambiguous (GiftCode.cleanCode Sample.three_ones) = 3%nat
  /\ GiftCode.excludedCount Sample.three_ones = 1%nat
  /\ (GiftCode.calculateCodeConfidence Sample.three_ones 0.5 == 0.6)%Q
  /\ (Spec.confidence_per_occurrence Sample.three_ones 0.5 == 0.5)%Q
  /\ ~ (GiftCode.calculateCodeConfidence Sample.three_ones 0.5
        == Spec.confidence_per_occurrence Sample.three_ones 0.5)%Q.
Proof.
  repeat split; try reflexivity.
  vm_compute. discriminate.
Qed.

(** ** C10: letter case of the OCR text *)

Lemma toUpperCase_char_letter c k :
  Spec.letter_index c = Some k -> JS.toUpperCase_char c = ascii_of_N (65 + k).
Proof.
  destruct c as [[] [] [] [] [] [] [] []]; vm_compute; intros [= <-]; reflexivity.
Qed.

Lemma toUpperCase_char_same_letter a b :
  Spec.same_letter a b -> JS.toUpperCase_char a = JS.toUpperCase_char b.
Proof.
  intros [->|(k & Ha & Hb)]; [reflexivity|].
  rewrite (toUpperCase_char_letter a k Ha), (toUpperCase_char_letter b k Hb).
  reflexivity.
Qed.

Lemma toUpperCase_differ_only_in_case s1 :
  forall s2, Spec.differ_only_in_case s1 s2 -> JS.toUpperCase s1 = JS.toUpperCase s2.
Proof.
  induction s1 as [|a s1 IH]; intros [|b s2]; simpl; try tauto.
  intros [Hab Hs]. f_equal; [apply toUpperCase_char_same_letter, Hab|apply IH, Hs].
Qed.

Lemma detect_in_result_case_variant timestamp r1 r2 :
  Spec.case_variant r1 r2 ->
  GiftCode.detect_in_result timestamp r1 = GiftCode.detect_in_result timestamp r2.
Proof.
  intros (Htext & Hconf & Hbox & _).
  unfold GiftCode.detect_in_result.
  rewrite (toUpperCase_differ_only_in_case _ _ Htext).
  apply flat_map_ext. intros pattern. apply flat_map_ext. intros m.
  unfold GiftCode.detection_of_match. rewrite Hconf, Hbox. reflexivity.
Qed.

(** C10.  Two lists of OCR results that differ only in the letter case of
    their texts give the same detections, for the same video and
    timestamp. *)
Theorem detectGiftCodes_ignores_letter_case
    (ocrResults1 ocrResults2 : list OCRResult.t) (videoId : string)
    (timestamp : option Q) :
  Forall2 Spec.case_variant ocrResults1 ocrResults2 ->
  GiftCode.detectGiftCodes ocrResults1 videoId timestamp
  = GiftCode.detectGiftCodes ocrResults2 videoId timestamp.
Proof.
  intros H. unfold GiftCode.detectGiftCodes. f_equal.
  induction H as [|r1 r2 l1 l2 Hr _ IH]; simpl; [reflexivity|].
  rewrite (detect_in_result_case_variant timestamp r1 r2 Hr), IH. reflexivity.
Qed.

Lemma detectGiftCodes_ignores_letter_case_witness :
  Forall2 Spec.case_variant
    [Sample.ocr "code: abcd-5x7y9z-Efgh" 0.5] [Sample.ocr "Code: ABCD-5X7Y9Z-efGH" 0.5]
  /\ GiftCode.detectGiftCodes [Sample.ocr "code: abcd-5x7y9z-Efgh" 0.5] "v" (Some 12%Q)
     = GiftCode.detectGiftCodes [Sample.ocr "Code: ABCD-5X7Y9Z-efGH" 0.5] "v" (Some 12%Q).
Proof.
  assert (H : Forall2 Spec.case_variant
                [Sample.ocr "code: abcd-5x7y9z-Efgh" 0.5]
                [Sample.ocr "Code: ABCD-5X7Y9Z-efGH" 0.5]).
  { constructor; [|constructor].
    unfold Spec.case_variant. simpl.
    repeat split;
      solve [ left; reflexivity
            | right; eexists; split; vm_compute; reflexivity ]. }
  split; [exact H|].
  apply detectGiftCodes_ignores_letter_case, H.
Defined.

(** ** C8: what an adapter does when its provider fails *)

Lemma analyzeAudio_never_throws P : exists r, Adapters.analyzeAudio P = Ok r.
Proof.
  unfold Adapters.analyzeAudio.
  destruct (Adapters.extractAudio P) as [path|e]; simpl; [|eauto].
  destruct (Adapters.audio_cleanup P path); simpl; eauto.
Qed.

Lemma analyzeTranscript_never_throws P : exists r, Adapters.analyzeTranscript P = Ok r.
Proof.
  unfold Adapters.analyzeTranscript, Adapters.getVideoTranscript.
  destruct (Adapters.captions P) as [[transcript|]|e]; simpl; eauto.
  destruct (String.length transcript =? 0)%nat; simpl; eauto.
  destruct (Adapters.parseTranscript P transcript) as [segments|]; simpl; eauto.
  destruct (Adapters.findSuspiciousSegments P segments); simpl; eauto.
  destruct (Adapters.extractKeywords P segments); simpl; eauto.
Qed.

(** C8, as the code has it.  The audio and transcript adapters never
    throw, and return their empty result when the provider call fails;
    the frame-scan adapter rethrows the provider's error, which
    [runFullVideoAnalysis] catches and records in a failed process. *)
Theorem adapters_on_provider_failure :
  (forall P, exists r, Adapters.analyzeAudio P = Ok r)
  /\ (forall e detect suspicious cleanup,
        Adapters.analyzeAudio
          {| Adapters.extractAudio := Throw e;
             Adapters.detectLaughterPeaks := detect;
             Adapters.analyzeSuspiciousSegments := suspicious;
             Adapters.audio_cleanup := cleanup |}
        = Ok {| Adapters.laughterPeaks := []; Adapters.suspiciousAudioSegments := [] |})
  /\ (forall P, exists r, Adapters.analyzeTranscript P = Ok r)
  /\ (forall e parse suspicious keywords,
        Adapters.analyzeTranscript
          {| Adapters.captions := Throw e;
             Adapters.parseTranscript := parse;
             Adapters.findSuspiciousSegments := suspicious;
             Adapters.extractKeywords := keywords |}
        = Ok Adapters.no_transcript)
  /\ (forall e frames download_segment frames_in_segment cleanup videoId,
        Adapters.analyzeVideo
          {| Adapters.downloadVideo := Throw e;
             Adapters.analyzeFrames := frames;
             Adapters.downloadVideoSegment := download_segment;
             Adapters.analyzeFramesInSegment := frames_in_segment;
             Adapters.video_cleanup := cleanup |} videoId
        = Throw e)
  /\ (forall e videoId now (p : AnalysisProcess.t),
        let p' := Coordinator.final p
                    (Coordinator.runFullVideoAnalysis videoId (Throw e) now) in
        AnalysisProcess.status p' = failed
        /\ AnalysisProcess.error p' = Some e
        /\ AnalysisProcess.endTime p' = Some now).
Proof.
  split; [exact analyzeAudio_never_throws|].
  split; [reflexivity|].
  split; [exact analyzeTranscript_never_throws|].
  split; [reflexivity|].
  split; [reflexivity|].
  intros e videoId now p. simpl. auto.
Qed.

(** C8 as stated fails for the frame-scan adapter: the error of an
    unreachable provider comes out of [analyzeVideo]. *)
Lemma analyzeVideo_propagates_counterexample :
  Adapters.analyzeVideo Sample.unreachable "v" = Throw "provider unreachable"
  /\ Adapters.analyzeVideo Sample.unreachable "v"
     <> Ok {| Adapters.giftCodes := []; Adapters.frameAnalysis := [] |}.
Proof.
  split; [reflexivity|discriminate].
Qed.

(** ** C9: the life of a process record *)

Ltac invariant_here :=
  unfold Spec.end_time_iff_terminal, Spec.terminal; simpl;
  repeat match goal with H : _ = _ |- _ => rewrite H end;
  split; [intros Hn; try (exfalso; apply Hn; reflexivity); auto
         |intros [Hs|Hs]; discriminate].

(** C9.  A record is created pending and without end time, and each run
    function mutates the record it was given in two blocks, one before
    and one after its [await].  At every point where other code can look
    at the record, the end time is set if and only if the status is
    completed or failed; once the status is terminal it stays what it is;
    and the run function leaves the record in a terminal state. *)
Theorem process_lifecycle_invariant (p : AnalysisProcess.t) (r : Coordinator.Run) :
  AnalysisProcess.status p = pending ->
  AnalysisProcess.endTime p = None ->
  Forall Spec.end_time_iff_terminal (Coordinator.lifecycle p (Coordinator.script r))
  /\ Spec.stays_terminal (Coordinator.lifecycle p (Coordinator.script r))
  /\ Spec.terminal (AnalysisProcess.status
                      (Coordinator.final p (Coordinator.script r))).
Proof.
  intros Hstatus Hend.
  assert (Hrun : ~ Spec.terminal running) by (intros [H|H]; discriminate).
  assert (Hpend : ~ Spec.terminal pending) by (intros [H|H]; discriminate).
  destruct r as [videoId [result|e] now | [result|e] now | [result|e] now
                | startTime endTime laughTimestamp [result|e] now];
    unfold Coordinator.lifecycle; simpl;
    rewrite !Forall_cons; rewrite ?Hstatus.
  all: repeat split; try contradiction; try apply Forall_nil_2; try invariant_here.
  all: try (unfold Spec.terminal; auto; fail).
  all: rewrite Hstatus; intros Ht; contradiction.
Qed.

Lemma process_lifecycle_invariant_witness :
  let p := Coordinator.new_process (base_id transcript "v" 0) transcript 0 in
  let r := Coordinator.run_transcript (Ok Sample.transcript_analysis) 2000 in
  AnalysisProcess.status p = pending
  /\ AnalysisProcess.endTime p = None
  /\ Forall Spec.end_time_iff_terminal (Coordinator.lifecycle p (Coordinator.script r))
  /\ Spec.stays_terminal (Coordinator.lifecycle p (Coordinator.script r))
  /\ Spec.terminal (AnalysisProcess.status
                      (Coordinator.final p (Coordinator.script r))).
Proof.
  intros p r.
  split; [reflexivity|]. split; [reflexivity|].
  apply (process_lifecycle_invariant p r); reflexivity.
Defined.

(** The base processes are all terminal when [startParallelAnalysis]
    returns, and satisfy the invariant. *)
Lemma startParallelAnalysis_terminal videoId clock v a t :
  Forall (fun p => Spec.terminal (AnalysisProcess.status p)
                   /\ Spec.end_time_iff_terminal p)
         (Coordinator.startParallelAnalysis videoId clock v a t).
Proof.
  unfold Coordinator.startParallelAnalysis.
  rewrite !Forall_cons.
  destruct v, a, t; unfold Spec.end_time_iff_terminal, Spec.terminal; simpl;
    repeat split; auto using Forall_nil_2; discriminate.
Qed.

(** ** C1: the anchor wait *)

Section AnchorWait.
Variable startTime : Z.
Variable clock : nat -> Z.
Variable view : nat -> list AnalysisProcess.t.

(** The clock is read first for [startTime], and every iteration of the
    loop sleeps for a second before the next reading. *)
Hypothesis clock_starts : (startTime <= clock 0)%Z.
Hypothesis clock_advances : forall i, (clock i + 1000 <= clock (S i))%Z.

Lemma clock_lower_bound i : (startTime + 1000 * Z.of_nat i <= clock i)%Z.
Proof.
  induction i as [|i IH]; [lia|].
  specialize (clock_advances i). lia.
Qed.

Lemma both_completed_Some processes a t :
  Coordinator.both_completed processes = Some (a, t) ->
  Spec.both_completed_at processes a t.
Proof.
  unfold Coordinator.both_completed, Spec.both_completed_at, Coordinator.has_type,
    Coordinator.has_status.
  destruct (List.find _ processes) as [a'|]; [|discriminate].
  destruct (List.find _ processes) as [t'|]; [|discriminate].
  destruct (bool_decide (AnalysisProcess.status a' = completed)) eqn:Ha;
    [|discriminate].
  destruct (bool_decide (AnalysisProcess.status t' = completed)) eqn:Ht;
    [|discriminate].
  simpl. intros [= <- <-].
  apply bool_decide_eq_true in Ha, Ht. auto.
Qed.

Lemma both_completed_None processes :
  Coordinator.both_completed processes = None <-> Spec.not_both_completed processes.
Proof.
  unfold Coordinator.both_completed, Spec.not_both_completed, Spec.both_completed_at,
    Coordinator.has_type, Coordinator.has_status.
  destruct (List.find _ processes) as [a'|];
    [|split; [intros _ a t (H & _); discriminate H|reflexivity]].
  destruct (List.find _ processes) as [t'|];
    [|split; [intros _ a t (_ & H & _); discriminate H|reflexivity]].
  destruct (bool_decide (AnalysisProcess.status a' = completed)) eqn:Ha;
    destruct (bool_decide (AnalysisProcess.status t' = completed)) eqn:Ht; simpl.
  - apply bool_decide_eq_true in Ha, Ht.
    split; [discriminate|]. intros H. exfalso. apply (H a' t'). auto.
  - apply bool_decide_eq_false in Ht.
    split; [|reflexivity]. intros _ a t (_ & [= <-] & _ & H). contradiction.
  - apply bool_decide_eq_false in Ha.
    split; [|reflexivity]. intros _ a t ([= <-] & _ & H & _). contradiction.
  - apply bool_decide_eq_false in Ha.
    split; [|reflexivity]. intros _ a t ([= <-] & _ & H & _). contradiction.
Qed.

Lemma waitForLaughTimestamps_loop_returns fuel :
  forall i, (i <= 300)%nat -> (300 < fuel + i)%nat ->
    (forall j, (j < i)%nat ->
       (clock j - startTime < Coordinator.maxWaitTime)%Z
       /\ Spec.not_both_completed (view j)) ->
    exists k ts,
      (k <= 300)%nat
      /\ Coordinator.waitForLaughTimestamps_loop fuel startTime clock view i = Some ts
      /\ Spec.anchor_wait_ends startTime clock view k ts.
Proof.
  induction fuel as [|fuel IH]; intros i Hi Hfuel Hbefore; [lia|].
  simpl.
  destruct (clock i - startTime <? Coordinator.maxWaitTime)%Z eqn:Htime.
  - apply Z.ltb_lt in Htime.
    destruct (Coordinator.both_completed (view i)) as [[a t]|] eqn:Hboth.
    + exists i, (Coordinator.audio_timestamps a ++ Coordinator.transcript_timestamps t).
      split; [exact Hi|]. split; [reflexivity|]. split; [exact Hbefore|].
      left. split; [exact Htime|]. exists a, t.
      split; [apply both_completed_Some, Hboth|reflexivity].
    + pose proof (clock_lower_bound i) as Hclock.
      unfold Coordinator.maxWaitTime in Htime.
      apply IH; [lia|lia|].
      intros j Hj. destruct (Nat.eq_dec j i) as [->|Hne].
      * split; [exact Htime|apply both_completed_None, Hboth].
      * apply Hbefore. lia.
  - apply Z.ltb_ge in Htime.
    exists i, []. split; [exact Hi|]. split; [reflexivity|]. split; [exact Hbefore|].
    right. split; [exact Htime|reflexivity].
Qed.

End AnchorWait.

Lemma startTargetedAnalysis_from_length videoId clock laughTimestamps :
  forall n,
    List.length (Coordinator.startTargetedAnalysis_from videoId clock n laughTimestamps)
    = List.length laughTimestamps.
Proof.
  induction laughTimestamps as [|t rest IH]; intros n; simpl; [reflexivity|].
  rewrite IH. reflexivity.
Qed.

(** C1, as the code has it.  Under a clock that advances by at least the
    polling interval, the anchor wait returns within 301 polls.  It ends
    at the first poll that is made within the five minutes and sees both
    the audio and the transcript process completed, and then returns the
    events of the two; or, if no such poll comes first, at the first poll
    made after the five minutes, and then returns no event, whatever the
    processes hold.  So when no poll sees both completed (only one of the
    two completes, or neither) there is no event and no targeted process
    is dispatched.  One targeted process is dispatched per returned
    event. *)
Theorem anchor_wait_needs_both_completed
    (videoId : string) (startTime : Z) (clock : nat -> Z)
    (view : nat -> list AnalysisProcess.t) (dispatch_clock : nat -> Z) :
  (startTime <= clock 0%nat)%Z ->
  (forall i, (clock i + 1000 <= clock (S i))%Z) ->
  exists k ts,
    (k <= 300)%nat
    /\ Coordinator.waitForLaughTimestamps 301 startTime clock view = Some ts
    /\ Spec.anchor_wait_ends startTime clock view k ts
    /\ ((forall j, Spec.not_both_completed (view j)) ->
        ts = []
        /\ Coordinator.startTargetedAnalysis videoId dispatch_clock ts = [])
    /\ List.length (Coordinator.startTargetedAnalysis videoId dispatch_clock ts)
       = List.length ts.
Proof.
  intros Hstart Hadvance.
  destruct (waitForLaughTimestamps_loop_returns startTime clock view Hstart Hadvance
              301 0) as (k & ts & Hk & Hts & Hends); [lia|lia|intros j Hj; lia|].
  exists k, ts. split; [exact Hk|]. split; [exact Hts|]. split; [exact Hends|]. split.
  - intros Hnever.
    assert (Hnil : ts = []).
    { destruct Hends as (_ & [(_ & a & t & Hboth & _)|(_ & Hnil)]); [|exact Hnil].
      exfalso. exact (Hnever k a t Hboth). }
    rewrite Hnil. split; reflexivity.
  - apply startTargetedAnalysis_from_length.
Qed.

Lemma anchor_wait_needs_both_completed_witness :
  (0 <= Sample.seconds 0)%Z
  /\ (forall i, (Sample.seconds i + 1000 <= Sample.seconds (S i))%Z)
  /\ exists ts,
       Coordinator.waitForLaughTimestamps 301 0 Sample.seconds
         (fun _ => Sample.base_processes) = Some ts
       /\ ts = [Sample.event_at_42]
       /\ List.length (Coordinator.startTargetedAnalysis "v" Sample.seconds ts) = 1%nat.
Proof.
  assert (H0 : (0 <= Sample.seconds 0)%Z) by (unfold Sample.seconds; lia).
  assert (H1 : forall i, (Sample.seconds i + 1000 <= Sample.seconds (S i))%Z)
    by (intros i; unfold Sample.seconds; lia).
  split; [exact H0|]. split; [exact H1|].
  destruct (anchor_wait_needs_both_completed "v" 0 Sample.seconds
              (fun _ => Sample.base_processes) Sample.seconds H0 H1)
    as (k & ts & _ & Hts & _ & _ & Hlength).
  exists ts. split; [exact Hts|].
  assert (E : ts = [Sample.event_at_42])
    by (vm_compute in Hts; injection Hts as <-; reflexivity).
  split; [exact E|]. rewrite Hlength, E. reflexivity.
Defined.

(** C1 as stated fails.  In a run, [startParallelAnalysis] has awaited
    both processes, so the wait starts with both completed; here the
    audio analysis found no laughter and the transcript has one laugh
    segment at t = 42.0 s.  The wait is held up between reading its start
    time and its first poll, times out at that poll, and proceeds with no
    event although the completed transcript process has one: no targeted
    process is dispatched. *)
Lemma late_first_poll_counterexample :
  (exists a t,
     Spec.both_completed_at Sample.base_processes a t
     /\ Coordinator.audio_timestamps a = []
     /\ Coordinator.transcript_timestamps t = [Sample.event_at_42])
  /\ (Coordinator.maxWaitTime <= Sample.held_up 0 - 9000)%Z
  /\ Coordinator.waitForLaughTimestamps 301 9000 Sample.held_up
       (fun _ => Sample.base_processes) = Some []
  /\ option_map
       (fun ts => List.length (Coordinator.startTargetedAnalysis "v" Sample.seconds ts))
       (Coordinator.waitForLaughTimestamps 301 9000 Sample.held_up
          (fun _ => Sample.base_processes))
     <> Some 1%nat.
Proof.
  split.
  - eexists _, _. split; [|split].
    + repeat split.
    + reflexivity.
    + reflexivity.
  - split; [vm_compute; discriminate|].
    split; [vm_compute; reflexivity|].
    vm_compute. discriminate.
Qed.

(** The records of the scenario of section 4.3, the audio process still
    running at every poll and the transcript process completed with the
    laugh segment at t = 42.0 s, do not arise in a run, in which both
    processes have been awaited; on them the wait would time out with no
    event as well. *)
Example audio_still_running_gives_no_event :
  Coordinator.transcript_timestamps Sample.transcriptProcess = [Sample.event_at_42]
  /\ Coordinator.waitForLaughTimestamps 301 0 Sample.seconds
       (fun _ => Sample.audio_still_running) = Some [].
Proof.
  split; [reflexivity|vm_compute; reflexivity].
Qed.

(** ** C2: the window of a targeted scan *)

Lemma startTargetedAnalysis_from_windows videoId clock laughTimestamps :
  forall n,
    map (fun d => (Coordinator.anchor d, Coordinator.window_start d,
                   Coordinator.window_end d))
        (Coordinator.startTargetedAnalysis_from videoId clock n laughTimestamps)
    = map (fun t => (t, LaughTimestamp.timestamp t + 5, LaughTimestamp.timestamp t + 60)%Q)
          laughTimestamps.
Proof.
  induction laughTimestamps as [|t rest IH]; intros n; simpl; [reflexivity|].
  rewrite IH. reflexivity.
Qed.

(** C2, as the code has it.  One targeted scan is dispatched per
    time-anchored event, in order, and the scan for an event at [t] is
    given the window from [t + 5] to [t + 60]: it starts 5 s after the
    event and ends 60 s after the event. *)
Theorem targeted_window_is_5_to_60_after_event
    (videoId : string) (clock : nat -> Z) (laughTimestamps : list LaughTimestamp.t) :
  map (fun d => (Coordinator.anchor d, Coordinator.window_start d,
                 Coordinator.window_end d))
      (Coordinator.startTargetedAnalysis videoId clock laughTimestamps)
  = map (fun t => (t, LaughTimestamp.timestamp t + 5, LaughTimestamp.timestamp t + 60)%Q)
        laughTimestamps.
Proof.
  apply startTargetedAnalysis_from_windows.
Qed.

(** C2 as stated fails: for the event at t = 42.0 s the window is
    [47.0, 102.0], not [47.0, 107.0]. *)
Lemma window_of_event_at_42_counterexample :
  exists d,
    Coordinator.startTargetedAnalysis "v" Sample.seconds [Sample.event_at_42] = [d]
    /\ (Coordinator.window_start d == 47.0)%Q
    /\ (Coordinator.window_end d == 102.0)%Q
    /\ (snd (Spec.window 42.0) == 107.0)%Q
    /\ ~ (Coordinator.window_end d == snd (Spec.window 42.0))%Q.
Proof.
  eexists. split; [reflexivity|]. simpl.
  repeat split; try reflexivity.
  vm_compute. discriminate.
Qed.

(** When both processes are completed the event at t = 42.0 s is
    returned at the first poll and one targeted scan is dispatched, over
    [47.0, 102.0]. *)
Example both_completed_dispatches_one :
  Coordinator.waitForLaughTimestamps 301 0 Sample.seconds (fun _ => Sample.audio_completed)
  = Some [Sample.event_at_42]
  /\ map (fun d => (Coordinator.window_start d, Coordinator.window_end d))
         (Coordinator.startTargetedAnalysis "v" Sample.seconds [Sample.event_at_42])
     = [((42.0 + 5)%Q, (42.0 + 60)%Q)]
  /\ map (fun d => AnalysisProcess.status (Coordinator.process d))
         (Coordinator.startTargetedAnalysis "v" Sample.seconds [Sample.event_at_42])
     = [running].
Proof.
  repeat split.
Qed.

(** ** C3: the recommended action *)

Lemma high_confidence_exists (l : list GiftCodeDetection.t) :
  (0 <? List.length (List.filter Coordinator.is_high_confidence l))%nat
  = existsb Coordinator.is_high_confidence l.
Proof.
  induction l as [|d l IH]; simpl; [reflexivity|].
  destruct (Coordinator.is_high_confidence d); simpl; [reflexivity|exact IH].
Qed.

Lemma determineRecommendedAction_spec (l : list GiftCodeDetection.t) :
  Coordinator.determineRecommendedAction l = Spec.recommendedAction l.
Proof.
  unfold Coordinator.determineRecommendedAction, Spec.recommendedAction.
  rewrite high_confidence_exists.
  destruct l as [|d l]; [reflexivity|].
  change (existsb (fun d0 => Qgtb (GiftCodeDetection.confidence d0) 0.8) (d :: l))
    with (existsb Coordinator.is_high_confidence (d :: l)).
  simpl. destruct (_ || _); reflexivity.
Qed.

Lemma collect_allGiftCodes (processes : list AnalysisProcess.t) :
  forall acc,
    Coordinator.allGiftCodes (fold_left Coordinator.collect_step processes acc)
    = Coordinator.allGiftCodes acc ++ flat_map Spec.detections_of processes.
Proof.
  induction processes as [|p processes IH]; intros acc; simpl.
  - symmetry. apply app_nil_r.
  - rewrite IH. unfold Coordinator.collect_step, Spec.detections_of,
      Coordinator.has_status.
    destruct (AnalysisProcess.status p); simpl; try reflexivity.
    destruct (AnalysisProcess.result p) as [[]|]; simpl;
      rewrite ?app_nil_r, <- ?List.app_assoc; reflexivity.
Qed.

Example same_code_twice_gives_investigate :
  let verdict :=
    Coordinator.aggregateResults [Sample.scan_found 0.9; Sample.scan_found 0.5]
      "v" 0 5000 5000 in
  VideoAnalysisResult.giftCodes verdict = [Sample.detection "AAAA-112233-BBBB" 0.9]
  /\ recommendedAction (VideoAnalysisResult.summary verdict) = investigate.
Proof.
  split; reflexivity.
Qed.

Example failed_scan_gives_ignore :
  let verdict := Coordinator.aggregateResults [Sample.scan_failed] "v" 0 5000 5000 in
  VideoAnalysisResult.giftCodes verdict = []
  /\ recommendedAction (VideoAnalysisResult.summary verdict) = ignore
  /\ keyFindings (VideoAnalysisResult.summary verdict) = [no_significant_findings].
Proof.
  repeat split.
Qed.

(** C3.  In the verdict built by [aggregateResults], the detections are
    the detections of the completed processes deduplicated by code, and
    the recommended action is investigate if one of them has confidence
    above 0.8, else monitor if there is any, else ignore. *)
Theorem recommended_action_of_verdict
    (processes : list AnalysisProcess.t) (videoId : string)
    (startTime processedAt now : Z) :
  let verdict :=
    Coordinator.aggregateResults processes videoId startTime processedAt now in
  VideoAnalysisResult.giftCodes verdict
  = Spec.keep_first GiftCodeDetection.code [] (flat_map Spec.detections_of processes)
  /\ recommendedAction (VideoAnalysisResult.summary verdict)
     = Spec.recommendedAction (VideoAnalysisResult.giftCodes verdict).
Proof.
  simpl. split.
  - rewrite uniqueGiftCodes_keep_first. unfold Coordinator.collect.
    rewrite collect_allGiftCodes. reflexivity.
  - apply determineRecommendedAction_spec.
Qed.

(** ** C5: the overall confidence *)


Lemma Math_round_bounds (q : Q) :
  (q - (1 # 2) < inject_Z (Coordinator.Math_round q)
   /\ inject_Z (Coordinator.Math_round q) <= q + (1 # 2))%Q.
Proof.
  unfold Coordinator.Math_round.
  pose proof (Qfloor_le (q + (1 # 2))) as Hle.
  pose proof (Qlt_floor (q + (1 # 2))) as Hlt.
  rewrite inject_Z_plus in Hlt. change (inject_Z 1) with 1%Q in Hlt.
  split; lra.
Qed.

Lemma sum_confidences_bounds (lo hi : Q) (l : list GiftCodeDetection.t) :
  Forall (fun d => (lo <= GiftCodeDetection.confidence d
                    /\ GiftCodeDetection.confidence d <= hi)%Q) l ->
  (inject_Z (Z.of_nat (List.length l)) * lo <= Spec.sum_confidences l
   /\ Spec.sum_confidences l <= inject_Z (Z.of_nat (List.length l)) * hi)%Q.
Proof.
  induction 1 as [|d l [Hlo Hhi] _ [IHlo IHhi]].
  - cbn [List.length Spec.sum_confidences].
    change (inject_Z (Z.of_nat 0)) with 0%Q. split; lra.
  - cbn [List.length Spec.sum_confidences].
    rewrite Nat2Z.inj_succ, <- Z.add_1_r, inject_Z_plus.
    change (inject_Z 1) with 1%Q. split; nra.
Qed.

(** *** Rounding to a double *)

Lemma nearest_even_bounds (m : Q) :
  (m - (1 # 2) <= inject_Z (Binary64.nearest_even m)
   /\ inject_Z (Binary64.nearest_even m) <= m + (1 # 2))%Q.
Proof.
  unfold Binary64.nearest_even.
  pose proof (Qfloor_le m) as Hle.
  pose proof (Qlt_floor m) as Hlt.
  rewrite inject_Z_plus in Hlt. change (inject_Z 1) with 1%Q in Hlt.
  destruct (Qcompare_spec (m - inject_Z (Qfloor m)) (1 # 2)) as [He|Hl|Hg].
  - destruct (Z.even (Qfloor m)).
    + split; lra.
    + rewrite inject_Z_plus. change (inject_Z 1) with 1%Q. split; lra.
  - split; lra.
  - rewrite inject_Z_plus. change (inject_Z 1) with 1%Q. split; lra.
Qed.

Lemma pow2_positive e : (0 < Binary64.pow2 e)%Q.
Proof. apply Qpower_0_lt. reflexivity. Qed.

Lemma pow2_log2 (p : positive) :
  (Binary64.pow2 (Z.log2 (Z.pos p)) <= inject_Z (Z.pos p))%Q.
Proof.
  unfold Binary64.pow2.
  change 2%Q with (inject_Z 2).
  rewrite <- Zpower_Qpower by apply Z.log2_nonneg.
  rewrite <- Zle_Qle. apply Z.log2_spec. reflexivity.
Qed.

Lemma log2_pow2 (q : positive) :
  (inject_Z (Z.pos q) <= Binary64.pow2 (Z.log2 (Z.pos q) + 1))%Q.
Proof.
  unfold Binary64.pow2.
  change 2%Q with (inject_Z 2).
  rewrite <- Zpower_Qpower by (pose proof (Z.log2_nonneg (Z.pos q)); lia).
  rewrite <- Zle_Qle.
  pose proof (Z.log2_spec (Z.pos q) eq_refl) as [_ H].
  change (Z.succ (Z.log2 (Z.pos q))) with (Z.log2 (Z.pos q) + 1)%Z in H. lia.
Qed.

(** The power of two chosen by [exponent] is at most [x]. *)
Lemma exponent_le (x : Q) : (0 < x)%Q -> (Binary64.pow2 (Binary64.exponent x) <= x)%Q.
Proof.
  intros Hx. unfold Binary64.exponent.
  destruct (Qle_bool _ x) eqn:Hb; [apply Qle_bool_iff, Hb|].
  destruct x as [n q].
  assert (Hn : (0 < n)%Z) by (unfold Qlt in Hx; simpl in Hx; lia).
  destruct n as [|p|p]; try lia.
  cbn [Qnum Qden].
  replace (Z.log2 (Z.pos p) - Z.log2 (Z.pos q) - 1)%Z
    with (Z.log2 (Z.pos p) - (Z.log2 (Z.pos q) + 1))%Z by lia.
  unfold Binary64.pow2. rewrite Qpower_minus by discriminate.
  fold (Binary64.pow2 (Z.log2 (Z.pos p))).
  fold (Binary64.pow2 (Z.log2 (Z.pos q) + 1)).
  pose proof (pow2_log2 p) as Hp.
  pose proof (log2_pow2 q) as Hq.
  pose proof (pow2_positive (Z.log2 (Z.pos p))) as Pp.
  pose proof (pow2_positive (Z.log2 (Z.pos q) + 1)) as Pq.
  rewrite (Qmake_Qdiv (Z.pos p) q).
  assert (Hq0 : (0 < inject_Z (Z.pos q))%Q) by (rewrite <- (Zlt_Qlt 0); lia).
  clear Hb Hx.
  set (A := Binary64.pow2 (Z.log2 (Z.pos p))) in *.
  set (B := Binary64.pow2 (Z.log2 (Z.pos q) + 1)) in *.
  set (P := inject_Z (Z.pos p)) in *. set (D := inject_Z (Z.pos q)) in *.
  clearbody A B P D.
  apply Qle_shift_div_r; [exact Pq|].
  apply Qle_trans with (P * B / D)%Q.
  - apply Qle_shift_div_l; [exact Hq0|].
    apply Qle_trans with (P * D)%Q.
    + apply Qmult_le_compat_r; lra.
    + rewrite (Qmult_comm P D), (Qmult_comm P B).
      apply Qmult_le_compat_r; lra.
  - apply Qle_lteq. right. field. lra.
Qed.

Lemma round_positive_error (x : Q) :
  (0 < x)%Q ->
  (x * (1 - Binary64.unit_roundoff) <= Binary64.round_positive x
   /\ Binary64.round_positive x <= x * (1 + Binary64.unit_roundoff))%Q.
Proof.
  intros Hx. unfold Binary64.round_positive.
  rewrite Qred_correct.
  pose proof (exponent_le x Hx) as He.
  set (e := Binary64.exponent x) in *.
  pose proof (pow2_positive (e - 52)) as Hulp.
  assert (Hsplit : (Binary64.pow2 e == Binary64.pow2 (e - 52) * 4503599627370496)%Q).
  { unfold Binary64.pow2. rewrite Qpower_minus by discriminate.
    change (Qpower 2 52) with (4503599627370496 # 1)%Q. field. }
  set (ulp := Binary64.pow2 (e - 52)) in *.
  destruct (nearest_even_bounds (x / ulp)) as [Hlo Hhi].
  set (n := inject_Z (Binary64.nearest_even (x / ulp))) in *.
  apply (Qmult_le_compat_r _ _ ulp) in Hlo; [|lra].
  apply (Qmult_le_compat_r _ _ ulp) in Hhi; [|lra].
  assert (E1 : ((x / ulp - (1 # 2)) * ulp == x - ulp * (1 # 2))%Q) by (field; lra).
  assert (E2 : ((x / ulp + (1 # 2)) * ulp == x + ulp * (1 # 2))%Q) by (field; lra).
  rewrite E1 in Hlo. rewrite E2 in Hhi.
  unfold Binary64.unit_roundoff.
  set (r := (n * ulp)%Q) in *. set (p := Binary64.pow2 e) in *.
  clearbody r p ulp. clear - Hlo Hhi He Hsplit Hulp Hx.
  split; lra.
Qed.

(** Rounding a non-negative number to a double changes it by at most the
    unit roundoff, relatively. *)
Lemma round_error (x : Q) :
  (0 <= x)%Q ->
  (x * (1 - Binary64.unit_roundoff) <= Binary64.round x
   /\ Binary64.round x <= x * (1 + Binary64.unit_roundoff))%Q.
Proof.
  intros Hx. unfold Binary64.round.
  destruct x as [[|p|p] q]; cbn [Qnum].
  - assert (E : (0 # q == 0)%Q) by reflexivity. rewrite E. split; lra.
  - apply round_positive_error. reflexivity.
  - exfalso. unfold Qle in Hx. simpl in Hx. lia.
Qed.

(** The error of the sum of doubles: after [i] additions of numbers
    between 0 and 1, at most [i] times 1.2e-10, for up to a million
    additions. *)
Lemma binary64_sum_error (l : list GiftCodeDetection.t) :
  forall (i : nat) (acc E : Q),
    Forall (fun d => (0 <= GiftCodeDetection.confidence d
                      /\ GiftCodeDetection.confidence d <= 1)%Q) l ->
    (Z.of_nat (i + List.length l) <= 1000000)%Z ->
    (0 <= acc)%Q ->
    (0 <= E /\ E <= inject_Z (Z.of_nat i))%Q ->
    (E - inject_Z (Z.of_nat i) * (12 # 100000000000) <= acc
     /\ acc <= E + inject_Z (Z.of_nat i) * (12 # 100000000000))%Q ->
    let sum :=
      fold_left (fun sum code => Binary64.add sum (GiftCodeDetection.confidence code))
        l acc in
    let exact := (E + Spec.sum_confidences l)%Q in
    let n := inject_Z (Z.of_nat (i + List.length l)) in
    (0 <= sum
     /\ exact - n * (12 # 100000000000) <= sum
     /\ sum <= exact + n * (12 # 100000000000))%Q.
Proof.
  induction l as [|d l IH]; intros i acc E Hall Hlen Hacc HE Herr.
  - cbn [fold_left Spec.sum_confidences List.length].
    rewrite Nat.add_0_r. split; [exact Hacc|]. split; lra.
  - apply Forall_cons in Hall as [[Hd0 Hd1] Hall].
    cbn [fold_left Spec.sum_confidences List.length] in *.
    set (c := GiftCodeDetection.confidence d) in *.
    assert (Hi : (0 <= inject_Z (Z.of_nat i) /\ inject_Z (Z.of_nat i) <= 999999 # 1)%Q).
    { split.
      - rewrite <- (Zle_Qle 0). lia.
      - change (999999 # 1)%Q with (inject_Z 999999). rewrite <- Zle_Qle. lia. }
    assert (Hsucc : (inject_Z (Z.of_nat (S i)) == inject_Z (Z.of_nat i) + 1)%Q)
      by (rewrite Nat2Z.inj_succ, <- Z.add_1_r, inject_Z_plus; reflexivity).
    destruct (round_error (acc + c)) as [Rlo Rhi]; [lra|].
    unfold Binary64.unit_roundoff in Rlo, Rhi.
    fold (Binary64.add acc c) in Rlo, Rhi.
    specialize (IH (S i) (Binary64.add acc c) (E + c)%Q Hall).
    replace (S i + List.length l)%nat with (i + S (List.length l))%nat in IH by lia.
    cbv zeta in IH |- *.
    set (n := inject_Z (Z.of_nat (i + S (List.length l)))) in *.
    set (r := fold_left _ l (Binary64.add acc c)) in *.
    set (a' := Binary64.add acc c) in *.
    set (I := inject_Z (Z.of_nat i)) in *.
    set (I' := inject_Z (Z.of_nat (S i))) in *.
    set (S' := Spec.sum_confidences l) in *.
    destruct IH as (H0 & Hlo & Hhi); [lia|lra|lra|lra|].
    split; [exact H0|]. split; lra.
Qed.

(** C5, as the code has it.  The overall confidence is 0 when there is no
    detection.  Otherwise it is the double nearest to a whole number of
    hundredths, and that number is 100 times the mean of the confidences
    rounded to an integer, in the arithmetic of doubles: for up to a
    million confidences between 0 and 1 it differs from 100 times the
    mean by at most a half and 1e-7, so the overall confidence lies
    within half a hundredth and 1e-9 of the mean. *)
Theorem overall_confidence_is_rounded_mean (l : list GiftCodeDetection.t) :
  Forall (fun d => (0 <= GiftCodeDetection.confidence d
                    /\ GiftCodeDetection.confidence d <= 1)%Q) l ->
  (Z.of_nat (List.length l) <= 1000000)%Z ->
  (l = [] -> Coordinator.calculateOverallConfidence_binary64 l = 0%Q)
  /\ exists hundredths : Z,
       Coordinator.calculateOverallConfidence_binary64 l
       = Binary64.round (inject_Z hundredths / 100)
       /\ (100 * Spec.mean_confidence l - (1 # 2) - (1 # 10000000)
           <= inject_Z hundredths
           /\ inject_Z hundredths
              <= 100 * Spec.mean_confidence l + (1 # 2) + (1 # 10000000))%Q
       /\ (Spec.mean_confidence l - (1 # 200) - (1 # 1000000000)
           <= Coordinator.calculateOverallConfidence_binary64 l
           /\ Coordinator.calculateOverallConfidence_binary64 l
              <= Spec.mean_confidence l + (1 # 200) + (1 # 1000000000))%Q.
Proof.
  intros Hall Hlen. split; [intros ->; reflexivity|].
  destruct l as [|d l].
  - exists 0%Z. split; [reflexivity|].
    unfold Coordinator.calculateOverallConfidence_binary64, Spec.mean_confidence.
    cbn [List.length Nat.eqb]. change (inject_Z 0) with 0%Q. split; split; lra.
  - unfold Coordinator.calculateOverallConfidence_binary64, Binary64.div, Binary64.mul.
    change (List.length (d :: l) =? 0)%nat with false. cbv iota.
    pose proof (binary64_sum_error (d :: l) 0 0%Q 0%Q Hall) as Hsum.
    cbv zeta in Hsum. rewrite Nat.add_0_l in Hsum.
    change (inject_Z (Z.of_nat 0)) with 0%Q in Hsum.
    destruct Hsum as (Hs0 & Hslo & Hshi); [exact Hlen|lra|lra|lra|].
    pose proof (sum_confidences_bounds 0 1 (d :: l) Hall) as [HS0 HS1].
    assert (Hn : (1 <= inject_Z (Z.of_nat (List.length (d :: l))))%Q)
      by (rewrite <- (Zle_Qle 1); cbn [List.length]; lia).
    unfold Spec.mean_confidence.
    set (n := inject_Z (Z.of_nat (List.length (d :: l)))) in *.
    set (S := Spec.sum_confidences (d :: l)) in *.
    set (s := fold_left _ (d :: l) 0%Q) in *.
    (* the mean and the quotient of the rounded sum *)
    assert (Hmean : (0 <= S / n /\ S / n <= 1)%Q).
    { split; [apply Qle_shift_div_l; lra|apply Qle_shift_div_r; lra]. }
    assert (Hq : (S / n - (12 # 100000000000) <= s / n
                  /\ s / n <= S / n + (12 # 100000000000))%Q).
    { split.
      - apply Qle_shift_div_l; [lra|].
        assert (E : ((S / n - (12 # 100000000000)) * n
                     == S - n * (12 # 100000000000))%Q) by (field; lra).
        rewrite E. lra.
      - apply Qle_shift_div_r; [lra|].
        assert (E : ((S / n + (12 # 100000000000)) * n
                     == S + n * (12 # 100000000000))%Q) by (field; lra).
        rewrite E. lra. }
    assert (Hq0 : (0 <= s / n)%Q) by (apply Qle_shift_div_l; lra).
    set (mean := (S / n)%Q) in *. set (q := (s / n)%Q) in *.
    (* the four roundings *)
    destruct (round_error q Hq0) as [Alo Ahi].
    set (a := Binary64.round q) in *.
    destruct (round_error (a * 100)) as [Blo Bhi];
      [unfold Binary64.unit_roundoff in Alo; lra|].
    set (b := Binary64.round (a * 100)) in *.
    destruct (Math_round_bounds b) as [Klo Khi].
    assert (Hk0 : (0 <= inject_Z (Coordinator.Math_round b))%Q).
    { rewrite <- (Zle_Qle 0). unfold Coordinator.Math_round.
      change 0%Z with (Qfloor 0). apply Qfloor_resp_le.
      unfold Binary64.unit_roundoff in *. lra. }
    set (k := inject_Z (Coordinator.Math_round b)) in *.
    exists (Coordinator.Math_round b). fold k.
    split; [reflexivity|].
    assert (Ek : (k / 100 == k * (1 # 100))%Q) by field.
    destruct (round_error (k / 100)) as [Rlo Rhi]; [rewrite Ek; lra|].
    set (r := Binary64.round (k / 100)) in *.
    rewrite Ek in Rlo, Rhi.
    unfold Binary64.unit_roundoff in *.
    clearbody r k b a q mean. clear - Hmean Hq Alo Ahi Blo Bhi Klo Khi Hk0 Rlo Rhi.
    split; split; lra.
Qed.

Lemma overall_confidence_is_rounded_mean_witness :
  let l := [Sample.detection "AAAA-112233-BBBB" (Binary64.round 0.95);
            Sample.detection "CCCC-445566-DDDD" (Binary64.round 0.6)] in
  Forall (fun d => (0 <= GiftCodeDetection.confidence d
                    /\ GiftCodeDetection.confidence d <= 1)%Q) l
  /\ (Z.of_nat (List.length l) <= 1000000)%Z
  /\ (Coordinator.calculateOverallConfidence_binary64 l == Binary64.round 0.77)%Q
  /\ (Spec.mean_confidence l - (1 # 200) - (1 # 1000000000)
      <= Coordinator.calculateOverallConfidence_binary64 l)%Q.
Proof.
  intros l.
  assert (Hall : Forall (fun d => (0 <= GiftCodeDetection.confidence d
                                   /\ GiftCodeDetection.confidence d <= 1)%Q) l)
    by (repeat constructor; vm_compute; discriminate).
  assert (Hlen : (Z.of_nat (List.length l) <= 1000000)%Z)
    by (vm_compute; discriminate).
  split; [exact Hall|]. split; [exact Hlen|].
  split; [vm_compute; reflexivity|].
  destruct (overall_confidence_is_rounded_mean l Hall Hlen)
    as (_ & hundredths & _ & _ & Hlo & _).
  exact Hlo.
Defined.

(** C5 as stated fails: one detection whose confidence is the double 0.123
    has that confidence as its mean, and the overall confidence is the
    double 0.12. *)
Lemma overall_confidence_counterexample :
  let l := [Sample.detection "AAAA-112233-BBBB" (Binary64.round 0.123)] in
  (Spec.mean_confidence l == Binary64.round 0.123)%Q
  /\ (Coordinator.calculateOverallConfidence_binary64 l == Binary64.round 0.12)%Q
  /\ ~ (Coordinator.calculateOverallConfidence_binary64 l == Spec.mean_confidence l)%Q.
Proof.
  split; [vm_compute; reflexivity|].
  split; [vm_compute; reflexivity|].
  vm_compute. discriminate.
Qed.

(** Where the doubles matter.  The doubles 0.95 and 0.6 have a sum that
    rounds down, so that 100 times their mean is computed as
    77.49999999999999 and the overall confidence is 0.77, where exact
    arithmetic on the decimals gives 77.5 and 0.78.  The double 0.615
    times 100 rounds up to 61.5, which gives 0.62, where the exact
    product is below 61.5 and gives 0.61. *)
Example overall_confidence_of_doubles :
  (Coordinator.calculateOverallConfidence_binary64
     [Sample.detection "AAAA-112233-BBBB" (Binary64.round 0.95);
      Sample.detection "CCCC-445566-DDDD" (Binary64.round 0.6)]
   == Binary64.round 0.77)%Q
  /\ (Coordinator.calculateOverallConfidence
        [Sample.detection "AAAA-112233-BBBB" 0.95;
         Sample.detection "CCCC-445566-DDDD" 0.6]
      == 0.78)%Q
  /\ (Coordinator.calculateOverallConfidence_binary64
        [Sample.detection "AAAA-112233-BBBB" (Binary64.round 0.615)]
      == Binary64.round 0.62)%Q
  /\ (Coordinator.calculateOverallConfidence
        [Sample.detection "AAAA-112233-BBBB" (Binary64.round 0.615)]
      == 0.61)%Q
  /\ (Binary64.add (Binary64.round 0.1) (Binary64.round 0.2)
      == 5404319552844596 # 18014398509481984)%Q
  /\ ~ (Binary64.add (Binary64.round 0.1) (Binary64.round 0.2) == Binary64.round 0.3)%Q.
Proof.
  repeat split; try (vm_compute; reflexivity).
  vm_compute. discriminate.
Qed.

(** ** Further properties of the pattern validator *)

Lemma is_hyphen_separator c : JS.is_char "-" c = true -> c = "-"%char /\ JS.separator c = true.
Proof.
  destruct c as [[] [] [] [] [] [] [] []]; vm_compute; intros; try discriminate; auto.
Qed.

Lemma space_separator c : JS.space c = true -> JS.separator c = true.
Proof.
  destruct c as [[] [] [] [] [] [] [] []]; vm_compute; congruence.
Qed.

Lemma underscore_or_hyphen_separator c :
  JS.underscore_or_hyphen c = true -> JS.separator c = true.
Proof.
  destruct c as [[] [] [] [] [] [] [] []]; vm_compute; congruence.
Qed.

Lemma match_prefix_cons p cls s m :
  JS.match_prefix (p :: cls) s = Some m ->
  exists c s' m',
    s = String c s' /\ p c = true /\ m = String c m'
    /\ JS.match_prefix cls s' = Some m'.
Proof.
  simpl. destruct s as [|c s']; [discriminate|].
  destruct (p c) eqn:Hp; [|discriminate].
  destruct (JS.match_prefix cls s') as [m'|] eqn:Hm; simpl; [|discriminate].
  intros [= <-]. exists c, s', m'. auto.
Qed.

Lemma match_prefix_length cls :
  forall s m, JS.match_prefix cls s = Some m ->
    String.length m = List.length cls /\ (List.length cls <= String.length s)%nat.
Proof.
  induction cls as [|p cls IH]; intros s m H.
  - simpl in H. injection H as <-. simpl. lia.
  - apply match_prefix_cons in H as (c & s' & m' & -> & _ & -> & H).
    apply IH in H. simpl. lia.
Qed.

Lemma exec_all_In cls s :
  forall skip m, In m (JS.exec_all cls skip s) ->
    exists s', JS.match_prefix cls s' = Some m.
Proof.
  induction s as [|c s IH]; intros skip m; simpl; [tauto|].
  destruct skip as [|k]; [|apply IH].
  destruct (JS.match_prefix cls (String c s)) as [m0|] eqn:Hm; [|apply IH].
  intros [<-|Hin]; [eauto|eapply IH, Hin].
Qed.

Lemma exec_all_short cls s :
  forall skip, (String.length s < List.length cls)%nat -> JS.exec_all cls skip s = [].
Proof.
  induction s as [|c s IH]; intros skip Hlen; simpl; [reflexivity|].
  simpl in Hlen.
  destruct skip as [|k]; [|apply IH; lia].
  destruct (JS.match_prefix cls (String c s)) as [m|] eqn:Hm; [|apply IH; lia].
  apply match_prefix_length in Hm. simpl in Hm. lia.
Qed.

(** The shape of a code that passes [isValidAmazonGiftCode]: stripped of
    its separators it is 14 characters of [[A-Z0-9]]. *)
Lemma valid_shape code :
  GiftCode.isValidAmazonGiftCode code = true ->
  exists c1 c2 c3 c4 c5 c6 c7 c8 c9 c10 c11 c12 c13 c14,
    GiftCode.cleanCode code
    = String c1 (String c2 (String c3 (String c4 (String c5 (String c6 (String c7
      (String c8 (String c9 (String c10 (String c11 (String c12 (String c13
      (String c14 EmptyString)))))))))))))
    /\ Forall (fun c => JS.alnum c = true)
         [c1; c2; c3; c4; c5; c6; c7; c8; c9; c10; c11; c12; c13; c14].
Proof.
  unfold GiftCode.isValidAmazonGiftCode.
  generalize (GiftCode.cleanCode code) as s. intros s.
  destruct (String.length s =? 14)%nat eqn:Hlen; simpl; [|discriminate].
  destruct (JS.test_anchored (GiftCode.group 14) s) eqn:Htest; simpl; [|discriminate].
  intros _. apply Nat.eqb_eq in Hlen.
  do 14 (destruct s as [|? s]; [discriminate Hlen|]).
  destruct s; [|discriminate Hlen].
  do 14 eexists. split; [reflexivity|].
  unfold JS.test_anchored, GiftCode.group in Htest. simpl in Htest.
  repeat match goal with
  | H : context [if JS.alnum ?c then _ else _] |- _ =>
      let E := fresh "E" in
      destruct (JS.alnum c) eqn:E; [|discriminate H]
  end.
  repeat constructor; assumption.
Qed.

Ltac split_alnum H :=
  repeat match type of H with
  | Forall _ (_ :: _) =>
      let E := fresh "E" in
      let S := fresh "S" in
      apply Forall_cons in H as [E H];
      pose proof (alnum_not_separator _ E) as S
  end.

Ltac eval_clean :=
  unfold GiftCode.cleanCode;
  repeat (cbn [substring JS.remove];
          change (JS.separator "-") with true;
          try match goal with
              | E : JS.separator ?c = false |- context [JS.separator ?c] => rewrite E
              end).

Ltac eval_match :=
  repeat (cbn [JS.match_prefix option_map repeat app];
          change (JS.is_char "-" "-") with true;
          try match goal with
              | E : JS.alnum ?c = true |- context [JS.alnum ?c] => rewrite E
              end).

Lemma normalize_shape code :
  GiftCode.isValidAmazonGiftCode code = true ->
  GiftCode.cleanCode (GiftCode.normalizeGiftCode code) = GiftCode.cleanCode code
  /\ JS.test_anchored GiftCode.dashed_classes (GiftCode.normalizeGiftCode code) = true
  /\ String.length (GiftCode.normalizeGiftCode code) = 16%nat.
Proof.
  intros Hvalid.
  destruct (valid_shape code Hvalid)
    as (c1 & c2 & c3 & c4 & c5 & c6 & c7 & c8 & c9 & c10 & c11 & c12 & c13 & c14
        & Hclean & Hall).
  unfold GiftCode.normalizeGiftCode. rewrite Hclean.
  split_alnum Hall.
  cbn [substring]. cbv beta iota delta [String.append].
  split; [|split].
  - eval_clean. reflexivity.
  - unfold JS.test_anchored, GiftCode.dashed_classes, GiftCode.group.
    eval_match. reflexivity.
  - reflexivity.
Qed.

Ltac split_match H :=
  repeat match type of H with
  | JS.match_prefix (_ :: _) _ = Some _ =>
      let c := fresh "c" in
      let s' := fresh "s" in
      let m' := fresh "m" in
      let Hc := fresh "Hc" in
      apply match_prefix_cons in H as (c & s' & m' & -> & Hc & -> & H)
  | JS.match_prefix [] _ = Some _ =>
      simpl in H; injection H as <-
  end.

Ltac class_facts :=
  repeat match goal with
  | H : JS.alnum ?c = true |- _ =>
      lazymatch goal with
      | _ : JS.separator c = false |- _ => fail
      | _ => pose proof (alnum_not_separator c H)
      end
  | H : JS.is_char "-" ?c = true |- _ =>
      apply is_hyphen_separator in H as [-> _]
  | H : JS.space ?c = true |- _ => apply space_separator in H
  | H : JS.underscore_or_hyphen ?c = true |- _ =>
      apply underscore_or_hyphen_separator in H
  end.

Ltac eval_valid :=
  unfold GiftCode.isValidAmazonGiftCode, GiftCode.cleanCode;
  repeat (cbn [JS.remove];
          change (JS.separator "-") with true;
          try match goal with
              | E : JS.separator ?c = _ |- context [JS.separator ?c] => rewrite E
              end);
  cbn [String.length Nat.eqb negb];
  unfold JS.test_anchored, GiftCode.group;
  eval_match; reflexivity.

(** Whatever one of the four patterns matches passes the validation. *)
Lemma pattern_match_valid pattern s m :
  In pattern GiftCode.patterns ->
  JS.match_prefix (GiftCode.classes pattern) s = Some m ->
  GiftCode.isValidAmazonGiftCode m = true.
Proof.
  intros [<-|[<-|[<-|[<-|[]]]]] H;
    cbn [GiftCode.classes GiftCode.standard GiftCode.spaced GiftCode.compact
         GiftCode.mixed GiftCode.dashed_classes GiftCode.group repeat app] in H;
    split_match H; class_facts; eval_valid.
Qed.

(** Where a detection returned by [detectGiftCodes] comes from. *)
Lemma detectGiftCodes_In ocrResults videoId timestamp d :
  In d (GiftCode.detectGiftCodes ocrResults videoId timestamp) ->
  exists ocrResult pattern m,
    In ocrResult ocrResults
    /\ In pattern GiftCode.patterns
    /\ In m (JS.exec_all (GiftCode.classes pattern) 0
               (JS.toUpperCase (OCRResult.text ocrResult)))
    /\ GiftCode.isValidAmazonGiftCode m = true
    /\ d = {| GiftCodeDetection.code := GiftCode.normalizeGiftCode m;
              GiftCodeDetection.confidence :=
                GiftCode.calculateCodeConfidence m (OCRResult.confidence ocrResult);
              GiftCodeDetection.boundingBox := OCRResult.boundingBox ocrResult;
              GiftCodeDetection.timestamp := GiftCode.timestamp_or_zero timestamp;
              GiftCodeDetection.source := video_frame;
              GiftCodeDetection.rawText := m;
              GiftCodeDetection.detectionMethod := GiftCode.getDetectionMethod pattern |}.
Proof.
  intros Hd. unfold GiftCode.detectGiftCodes in Hd.
  rewrite removeDuplicateCodes_keep_first in Hd.
  apply keep_first_incl in Hd.
  apply in_flat_map in Hd as (r & Hr & Hd).
  unfold GiftCode.detect_in_result in Hd.
  apply in_flat_map in Hd as (p & Hp & Hd).
  apply in_flat_map in Hd as (m & Hm & Hd).
  unfold GiftCode.detection_of_match in Hd.
  destruct (GiftCode.isValidAmazonGiftCode m) eqn:Hvalid; [|destruct Hd].
  destruct Hd as [<-|[]].
  exists r, p, m. auto.
Qed.

(** X1.  Validation never rejects what a pattern matched: every match of
    one of the four patterns, anywhere in any text, passes
    [isValidAmazonGiftCode] and gives exactly one detection. *)
Theorem every_pattern_match_is_accepted
    (ocrResult : OCRResult.t) (timestamp : option Q) (pattern : GiftCode.Pattern)
    (text : string) (skip : nat) (m : string) :
  In pattern GiftCode.patterns ->
  In m (JS.exec_all (GiftCode.classes pattern) skip text) ->
  GiftCode.isValidAmazonGiftCode m = true
  /\ List.length (GiftCode.detection_of_match ocrResult timestamp pattern m) = 1%nat.
Proof.
  intros Hp Hm.
  apply exec_all_In in Hm as (s' & Hm).
  pose proof (pattern_match_valid pattern s' m Hp Hm) as Hvalid.
  split; [exact Hvalid|].
  unfold GiftCode.detection_of_match. rewrite Hvalid. reflexivity.
Qed.

Lemma every_pattern_match_is_accepted_witness :
  In GiftCode.spaced GiftCode.patterns
  /\ In "AB12 CD34EF GH56"
        (JS.exec_all (GiftCode.classes GiftCode.spaced) 0 "SEE AB12 CD34EF GH56 NOW")
  /\ GiftCode.isValidAmazonGiftCode "AB12 CD34EF GH56" = true
  /\ List.length (GiftCode.detection_of_match (Sample.ocr "" 0.5) None GiftCode.spaced
                    "AB12 CD34EF GH56") = 1%nat.
Proof.
  assert (H1 : In GiftCode.spaced GiftCode.patterns) by (simpl; auto).
  assert (H2 : In "AB12 CD34EF GH56"
                 (JS.exec_all (GiftCode.classes GiftCode.spaced) 0
                    "SEE AB12 CD34EF GH56 NOW")) by (vm_compute; auto).
  split; [exact H1|]. split; [exact H2|].
  exact (every_pattern_match_is_accepted (Sample.ocr "" 0.5) None GiftCode.spaced
           "SEE AB12 CD34EF GH56 NOW" 0 "AB12 CD34EF GH56" H1 H2).
Defined.

(** X2.  The detections returned by [detectGiftCodes] keep the invariant
    of the data model: their codes are pairwise distinct, and each code
    is the normalization of the raw matched text, 16 characters in the
    dashed form XXXX-XXXXXX-XXXX; each detection is marked as coming from
    a video frame and carries the given timestamp, or 0 when none is
    given. *)
Theorem detections_are_canonical_and_distinct
    (ocrResults : list OCRResult.t) (videoId : string) (timestamp : option Q) :
  NoDup (map GiftCodeDetection.code
             (GiftCode.detectGiftCodes ocrResults videoId timestamp))
  /\ Forall (fun d =>
               GiftCodeDetection.code d
               = GiftCode.normalizeGiftCode (GiftCodeDetection.rawText d)
               /\ JS.test_anchored GiftCode.dashed_classes (GiftCodeDetection.code d) = true
               /\ String.length (GiftCodeDetection.code d) = 16%nat
               /\ GiftCodeDetection.source d = video_frame
               /\ GiftCodeDetection.timestamp d = GiftCode.timestamp_or_zero timestamp)
            (GiftCode.detectGiftCodes ocrResults videoId timestamp).
Proof.
  split.
  - unfold GiftCode.detectGiftCodes. rewrite removeDuplicateCodes_keep_first.
    apply (NoDup_map_other Spec.normalized); [|apply keep_first_NoDup].
    intros a b _ _ Hab. unfold Spec.normalized. rewrite Hab. reflexivity.
  - apply List.Forall_forall. intros d Hd.
    apply detectGiftCodes_In in Hd as (r & p & m & _ & _ & _ & Hvalid & ->).
    simpl. destruct (normalize_shape m Hvalid) as (_ & Hdashed & Hlen).
    auto.
Qed.

(** X3.  On a code that passes the validation, normalization is
    idempotent, keeps the 14 characters of the code (stripping the
    separators of the result gives what stripping those of the input
    gives) and produces 16 characters in the dashed form. *)
Theorem normalization_of_valid_codes (code : string) :
  GiftCode.isValidAmazonGiftCode code = true ->
  GiftCode.normalizeGiftCode (GiftCode.normalizeGiftCode code)
  = GiftCode.normalizeGiftCode code
  /\ GiftCode.cleanCode (GiftCode.normalizeGiftCode code) = GiftCode.cleanCode code
  /\ JS.test_anchored GiftCode.dashed_classes (GiftCode.normalizeGiftCode code) = true
  /\ String.length (GiftCode.normalizeGiftCode code) = 16%nat
  /\ GiftCode.isValidAmazonGiftCode (GiftCode.normalizeGiftCode code) = true.
Proof.
  intros Hvalid.
  destruct (normalize_shape code Hvalid) as (Hclean & Hdashed & Hlen).
  split; [apply normalizeGiftCode_idempotent, Hvalid|].
  split; [exact Hclean|]. split; [exact Hdashed|]. split; [exact Hlen|].
  unfold GiftCode.isValidAmazonGiftCode in *. rewrite Hclean. exact Hvalid.
Qed.

Lemma normalization_of_valid_codes_witness :
  GiftCode.isValidAmazonGiftCode "AB12_CD34EF GH56" = true
  /\ GiftCode.normalizeGiftCode "AB12_CD34EF GH56" = "AB12-CD34EF-GH56"
  /\ GiftCode.normalizeGiftCode (GiftCode.normalizeGiftCode "AB12_CD34EF GH56")
     = GiftCode.normalizeGiftCode "AB12_CD34EF GH56".
Proof.
  split; [reflexivity|]. split; [reflexivity|].
  apply (normalization_of_valid_codes "AB12_CD34EF GH56"). reflexivity.
Defined.

(** X4.  [getDetectionMethod] answers "hyphen-separated" for each of the
    four patterns, because the source text of each contains the hyphen
    of [A-Z]; so every detection is reported as hyphen-separated, also a
    code written with spaces or without separators. *)
Theorem detection_method_is_always_hyphen_separated :
  Forall (fun pattern => GiftCode.getDetectionMethod pattern = "hyphen-separated")
         GiftCode.patterns
  /\ forall ocrResults videoId timestamp,
       Forall (fun d => GiftCodeDetection.detectionMethod d = "hyphen-separated")
              (GiftCode.detectGiftCodes ocrResults videoId timestamp).
Proof.
  assert (Hall : Forall (fun pattern =>
                           GiftCode.getDetectionMethod pattern = "hyphen-separated")
                        GiftCode.patterns) by (repeat constructor).
  split; [exact Hall|].
  intros ocrResults videoId timestamp.
  apply List.Forall_forall. intros d Hd.
  apply detectGiftCodes_In in Hd as (r & p & m & _ & Hp & _ & _ & ->).
  simpl. rewrite List.Forall_forall in Hall. apply Hall, Hp.
Qed.

Lemma clamp_monotone q1 q2 : (q1 <= q2)%Q -> (Spec.clamp q1 <= Spec.clamp q2)%Q.
Proof.
  intros H. unfold Spec.clamp.
  apply Q.max_le_compat_l, Q.min_le_compat_l, H.
Qed.

Lemma calculateCodeConfidence_clamp code ocrConfidence :
  (GiftCode.calculateCodeConfidence code ocrConfidence
   == Spec.clamp (ocrConfidence + Spec.dashed_bonus code
                  - inject_Z (Z.of_nat (GiftCode.excludedCount code)) * 0.05
                  + Spec.plausible_bonus code))%Q.
Proof.
  unfold GiftCode.calculateCodeConfidence, Spec.clamp, Spec.dashed_bonus,
    Spec.plausible_bonus.
  apply Q.max_compat; [reflexivity|]. apply Q.min_compat; [reflexivity|].
  destruct (JS.test_anchored GiftCode.dashed_classes code),
    (GiftCode.hasTypicalAmazonPattern (GiftCode.cleanCode code)); ring.
Qed.

(** X5.  For a given code the confidence never decreases when the OCR
    confidence increases. *)
Theorem confidence_is_monotone_in_ocr_confidence (code : string) (c1 c2 : Q) :
  (c1 <= c2)%Q ->
  (GiftCode.calculateCodeConfidence code c1 <= GiftCode.calculateCodeConfidence code c2)%Q.
Proof.
  intros H. rewrite !calculateCodeConfidence_clamp.
  apply clamp_monotone. lra.
Qed.

Lemma confidence_is_monotone_in_ocr_confidence_witness :
  (0.3 <= 0.7)%Q
  /\ (GiftCode.calculateCodeConfidence Sample.three_ones 0.3
      <= GiftCode.calculateCodeConfidence Sample.three_ones 0.7)%Q.
Proof.
  assert (H : (0.3 <= 0.7)%Q) by (vm_compute; discriminate).
  split; [exact H|].
  exact (confidence_is_monotone_in_ocr_confidence Sample.three_ones 0.3 0.7 H).
Defined.

(** X6.  A valid code read in any separator style never scores higher
    than its normalized, dashed form at the same OCR confidence: the two
    differ by the format bonus alone, which the dashed form always
    gets. *)
Theorem dashed_form_scores_at_least_as_high (code : string) (ocrConfidence : Q) :
  GiftCode.isValidAmazonGiftCode code = true ->
  (GiftCode.calculateCodeConfidence code ocrConfidence
   <= GiftCode.calculateCodeConfidence (GiftCode.normalizeGiftCode code) ocrConfidence)%Q
  /\ (GiftCode.calculateCodeConfidence (GiftCode.normalizeGiftCode code) ocrConfidence
      == Spec.clamp (ocrConfidence + 0.1
                     - inject_Z (Z.of_nat (GiftCode.excludedCount code)) * 0.05
                     + Spec.plausible_bonus code))%Q.
Proof.
  intros Hvalid.
  destruct (normalize_shape code Hvalid) as (Hclean & Hdashed & _).
  assert (Hcount : GiftCode.excludedCount (GiftCode.normalizeGiftCode code)
                   = GiftCode.excludedCount code)
    by (unfold GiftCode.excludedCount; rewrite Hclean; reflexivity).
  assert (Hbonus : Spec.plausible_bonus (GiftCode.normalizeGiftCode code)
                   = Spec.plausible_bonus code)
    by (unfold Spec.plausible_bonus; rewrite Hclean; reflexivity).
  rewrite !calculateCodeConfidence_clamp, Hcount, Hbonus.
  unfold Spec.dashed_bonus at 2 3. rewrite Hdashed.
  split; [|reflexivity].
  apply clamp_monotone. unfold Spec.dashed_bonus.
  destruct (JS.test_anchored GiftCode.dashed_classes code); lra.
Qed.

Lemma dashed_form_scores_at_least_as_high_witness :
  GiftCode.isValidAmazonGiftCode "AB12CD34EFGH56" = true
  /\ (GiftCode.calculateCodeConfidence "AB12CD34EFGH56" 0.5
      <= GiftCode.calculateCodeConfidence (GiftCode.normalizeGiftCode "AB12CD34EFGH56") 0.5)%Q.
Proof.
  split; [reflexivity|].
  apply (dashed_form_scores_at_least_as_high "AB12CD34EFGH56" 0.5). reflexivity.
Defined.

Lemma patterns_at_least_14 pattern :
  In pattern GiftCode.patterns -> (14 <= List.length (GiftCode.classes pattern))%nat.
Proof.
  intros [<-|[<-|[<-|[<-|[]]]]]; simpl; lia.
Qed.

(** X7.  A text whose upper-casing has fewer than 14 characters holds no
    code: the patterns are matched against the upper-cased text, and each
    needs 14 characters of it.  If every OCR result has such a text, and
    in particular if there is no OCR result, [detectGiftCodes] returns
    the empty list.  (The bound is on the upper-cased text because
    upper-casing can lengthen a text that is not ASCII.) *)
Theorem short_texts_hold_no_code
    (ocrResults : list OCRResult.t) (videoId : string) (timestamp : option Q) :
  Forall (fun r => (String.length (JS.toUpperCase (OCRResult.text r)) < 14)%nat)
         ocrResults ->
  GiftCode.detectGiftCodes ocrResults videoId timestamp = [].
Proof.
  intros Hshort.
  assert (Hnone : flat_map (GiftCode.detect_in_result timestamp) ocrResults = []).
  { induction Hshort as [|r rs Hr _ IH]; simpl; [reflexivity|].
    rewrite IH, app_nil_r. unfold GiftCode.detect_in_result.
    assert (Hp : forall pattern, In pattern GiftCode.patterns ->
              JS.exec_all (GiftCode.classes pattern) 0
                (JS.toUpperCase (OCRResult.text r)) = []).
    { intros pattern Hin. apply exec_all_short.
      pose proof (patterns_at_least_14 pattern Hin). lia. }
    induction GiftCode.patterns as [|p ps IHp]; simpl; [reflexivity|].
    rewrite (Hp p) by (left; reflexivity). simpl.
    apply IHp. intros q Hq. apply Hp. right. exact Hq. }
  unfold GiftCode.detectGiftCodes. rewrite Hnone. reflexivity.
Qed.

Lemma short_texts_hold_no_code_witness :
  Forall (fun r => (String.length (JS.toUpperCase (OCRResult.text r)) < 14)%nat)
         [Sample.ocr "$550" 0.9; Sample.ocr "ab12-cd34ef" 0.9]
  /\ GiftCode.detectGiftCodes [Sample.ocr "$550" 0.9; Sample.ocr "ab12-cd34ef" 0.9]
       "v" None = [].
Proof.
  assert (H : Forall (fun r => (String.length (JS.toUpperCase (OCRResult.text r)) < 14)%nat)
                [Sample.ocr "$550" 0.9; Sample.ocr "ab12-cd34ef" 0.9])
    by (repeat constructor; simpl; lia).
  split; [exact H|].
  exact (short_texts_hold_no_code _ "v" None H).
Defined.

Lemma alnum_not_hyphen c : JS.alnum c = true -> Ascii.eqb c "-" = false.
Proof.
  destruct c as [[] [] [] [] [] [] [] []]; vm_compute; congruence.
Qed.

Ltac eval_split :=
  repeat (cbn [JS.split];
          change (Ascii.eqb "-" "-") with true; cbv iota;
          try match goal with
              | E : Ascii.eqb ?c "-" = false |- context [Ascii.eqb ?c "-"] => rewrite E
              end).

(** X8.  The mask used for logging shows six of the 14 characters of a
    valid code in its normalized form, the first two of each of the
    three groups, and eight of them for the same code without separators,
    the first four and the last four; the other characters are replaced
    by stars. *)
Theorem mask_of_valid_code (code : string) :
  GiftCode.isValidAmazonGiftCode code = true ->
  let s := GiftCode.cleanCode code in
  GiftCode.maskGiftCode (GiftCode.normalizeGiftCode code)
  = (substring 0 2 s ++ "**-" ++ substring 4 2 s ++ "****-"
     ++ substring 10 2 s ++ "**")%string
  /\ GiftCode.maskGiftCode s
     = (substring 0 4 s ++ "******" ++ substring 10 4 s)%string.
Proof.
  intros Hvalid s. subst s.
  destruct (valid_shape code Hvalid)
    as (c1 & c2 & c3 & c4 & c5 & c6 & c7 & c8 & c9 & c10 & c11 & c12 & c13 & c14
        & Hclean & Hall).
  unfold GiftCode.normalizeGiftCode. rewrite Hclean.
  repeat match type of Hall with
  | Forall _ (_ :: _) =>
      let E := fresh "E" in
      apply Forall_cons in Hall as [E Hall]; apply alnum_not_hyphen in E
  end.
  cbn [substring]. cbv beta iota delta [String.append].
  unfold GiftCode.maskGiftCode, JS.slice_to, JS.slice_last.
  cbn [String.length Nat.ltb Nat.leb Nat.sub].
  split.
  - eval_split. cbn [substring]. cbv beta iota delta [String.append]. reflexivity.
  - eval_split. cbn [substring JS.repeat_char]. cbv beta iota delta [String.append].
    reflexivity.
Qed.

Lemma mask_of_valid_code_witness :
  GiftCode.isValidAmazonGiftCode "AB12 CD34EF GH56" = true
  /\ GiftCode.maskGiftCode (GiftCode.normalizeGiftCode "AB12 CD34EF GH56")
     = "AB**-CD****-GH**"
  /\ GiftCode.maskGiftCode "AB12CD34EFGH56" = "AB12******GH56".
Proof.
  split; [reflexivity|].
  exact (mask_of_valid_code "AB12 CD34EF GH56" eq_refl).
Defined.

(** ** analyzeGiftCodeContext *)

Lemma toLowerCase_char_letter c k :
  Spec.letter_index c = Some k -> JS.toLowerCase_char c = ascii_of_N (97 + k).
Proof.
  destruct c as [[] [] [] [] [] [] [] []]; vm_compute; intros [= <-]; reflexivity.
Qed.

Lemma toLowerCase_differ_only_in_case s1 :
  forall s2, Spec.differ_only_in_case s1 s2 -> JS.toLowerCase s1 = JS.toLowerCase s2.
Proof.
  induction s1 as [|a s1 IH]; intros [|b s2]; simpl; try tauto.
  intros [[->|(k & Ha & Hb)] Hs].
  - f_equal. apply IH, Hs.
  - rewrite (toLowerCase_char_letter a k Ha), (toLowerCase_char_letter b k Hb).
    f_equal. apply IH, Hs.
Qed.

(** X9.  The context confidence lies in [0, 1]; keywords are reported as
    present exactly when the confidence is positive; and the keywords
    found are keywords of the fixed list, at most twelve. *)
Theorem context_confidence_bounds (text : string) :
  let r := GiftCode.analyzeGiftCodeContext text in
  (0 <= GiftCode.context_confidence r /\ GiftCode.context_confidence r <= 1)%Q
  /\ (GiftCode.hasGiftCodeKeywords r = true <-> (0 < GiftCode.context_confidence r)%Q)
  /\ (GiftCode.hasGiftCodeKeywords r = false <-> GiftCode.contextKeywords r = [])
  /\ incl (GiftCode.contextKeywords r) GiftCode.giftCodeKeywords
  /\ (List.length (GiftCode.contextKeywords r) <= 12)%nat.
Proof.
  intros r. subst r. unfold GiftCode.analyzeGiftCodeContext.
  cbn [GiftCode.context_confidence GiftCode.hasGiftCodeKeywords
       GiftCode.contextKeywords].
  set (found := List.filter (fun keyword => JS.includes keyword (JS.toLowerCase text))
                            GiftCode.giftCodeKeywords).
  assert (Hn : (0 <= inject_Z (Z.of_nat (List.length found)))%Q).
  { change 0%Q with (inject_Z 0). rewrite <- Zle_Qle. lia. }
  split; [split|split; [|split; [|split]]].
  - apply Q.min_glb; [discriminate|]. nra.
  - eapply Qle_trans; [apply Q.le_min_l|discriminate].
  - rewrite Nat.ltb_lt. split.
    + intros Hpos. apply Q.min_glb_lt; [reflexivity|].
      assert ((1 <= inject_Z (Z.of_nat (List.length found)))%Q).
      { change 1%Q with (inject_Z 1). rewrite <- Zle_Qle. lia. }
      nra.
    + intros Hpos. destruct found as [|k found']; [|simpl; lia].
      exfalso. simpl in Hpos. vm_compute in Hpos. discriminate.
  - rewrite Nat.ltb_ge. destruct found; simpl; split; intros; try lia;
      try discriminate; reflexivity.
  - intros k Hk. apply filter_In in Hk. tauto.
  - etransitivity; [apply List.filter_length_le|]. reflexivity.
Qed.

(** X10.  [analyzeGiftCodeContext] is insensitive to letter case: two
    texts that differ only in the case of their letters get the same
    answer. *)
Theorem context_ignores_letter_case (text1 text2 : string) :
  Spec.differ_only_in_case text1 text2 ->
  GiftCode.analyzeGiftCodeContext text1 = GiftCode.analyzeGiftCodeContext text2.
Proof.
  intros H. unfold GiftCode.analyzeGiftCodeContext.
  rewrite (toLowerCase_differ_only_in_case _ _ H). reflexivity.
Qed.

Lemma context_ignores_letter_case_witness :
  Spec.differ_only_in_case "Free GIFT card" "free gift CARD"
  /\ GiftCode.analyzeGiftCodeContext "Free GIFT card"
     = GiftCode.analyzeGiftCodeContext "free gift CARD".
Proof.
  assert (H : Spec.differ_only_in_case "Free GIFT card" "free gift CARD").
  { simpl.
    repeat split;
      solve [ left; reflexivity
            | right; eexists; split; vm_compute; reflexivity ]. }
  split; [exact H|].
  exact (context_ignores_letter_case _ _ H).
Defined.

(** ** Further properties of the coordinator *)

Section WaitForAll.
Variable startTime : Z.
Variable clock : nat -> Z.
Variable view : nat -> list AnalysisProcess.t.

(** The clock is read first for [startTime], and every iteration of the
    loop sleeps for two seconds before the next reading. *)
Hypothesis clock_starts : (startTime <= clock 0)%Z.
Hypothesis clock_advances : forall i, (clock i + 2000 <= clock (S i))%Z.

Lemma clock_lower_bound_all i : (startTime + 2000 * Z.of_nat i <= clock i)%Z.
Proof.
  induction i as [|i IH]; [lia|].
  specialize (clock_advances i). lia.
Qed.

Lemma waitForAllProcesses_loop_returns fuel :
  forall i, (1 <= fuel)%nat -> (300 < fuel + i)%nat ->
    exists k,
      Coordinator.waitForAllProcesses_loop fuel startTime clock view i = Some k
      /\ (i <= k <= Nat.max i 300)%nat
      /\ (List.filter Coordinator.pending_or_running (view k) = []
          \/ (Coordinator.maxWaitTimeAll <= clock k - startTime)%Z)
      /\ (forall j, (i <= j < k)%nat ->
            List.filter Coordinator.pending_or_running (view j) <> []
            /\ (clock j - startTime < Coordinator.maxWaitTimeAll)%Z).
Proof.
  induction fuel as [|fuel IH]; intros i Hfuel Hi; [lia|].
  simpl.
  pose proof (clock_lower_bound_all i) as Hclock.
  destruct (clock i - startTime <? Coordinator.maxWaitTimeAll)%Z eqn:Htime.
  - apply Z.ltb_lt in Htime.
    assert (Hi300 : (i < 300)%nat)
      by (unfold Coordinator.maxWaitTimeAll in Htime; lia).
    destruct (List.filter Coordinator.pending_or_running (view i)) as [|p ps] eqn:Hpend.
    + exists i. simpl. split; [reflexivity|]. split; [lia|]. split; [left; exact Hpend|].
      intros j Hj. lia.
    + simpl. destruct (IH (S i)) as (k & Hk & Hrange & Hexit & Hbefore); [lia|lia|].
      exists k. split; [exact Hk|]. split; [lia|]. split; [exact Hexit|].
      intros j Hj. destruct (Nat.eq_dec j i) as [->|Hne].
      * rewrite Hpend. split; [discriminate|exact Htime].
      * apply Hbefore. lia.
  - apply Z.ltb_ge in Htime.
    exists i. split; [reflexivity|]. split; [lia|]. split; [right; exact Htime|].
    intros j Hj. lia.
Qed.

End WaitForAll.

(** X11.  The final wait is bounded and stops as early as it can: with a
    clock that advances by at least the two-second polling interval it
    is left after at most 300 sleeps, at the first poll at which no
    process is pending or running or the ten minutes are over, and not
    before. *)
Theorem waitForAllProcesses_stops_at_first_chance
    (startTime : Z) (clock : nat -> Z) (view : nat -> list AnalysisProcess.t) :
  (startTime <= clock 0%nat)%Z ->
  (forall i, (clock i + 2000 <= clock (S i))%Z) ->
  exists k,
    Coordinator.waitForAllProcesses 301 startTime clock view = Some k
    /\ (k <= 300)%nat
    /\ (List.filter Coordinator.pending_or_running (view k) = []
        \/ (Coordinator.maxWaitTimeAll <= clock k - startTime)%Z)
    /\ (forall j, (j < k)%nat ->
          List.filter Coordinator.pending_or_running (view j) <> []
          /\ (clock j - startTime < Coordinator.maxWaitTimeAll)%Z).
Proof.
  intros Hstart Hadvance.
  destruct (waitForAllProcesses_loop_returns startTime clock view Hstart Hadvance
              301 0) as (k & Hk & Hrange & Hexit & Hbefore); [lia|lia|].
  exists k. split; [exact Hk|]. split; [lia|]. split; [exact Hexit|].
  intros j Hj. apply Hbefore. lia.
Qed.

Lemma waitForAllProcesses_stops_at_first_chance_witness :
  (0 <= 2 * Sample.seconds 0)%Z
  /\ (forall i, (2 * Sample.seconds i + 2000 <= 2 * Sample.seconds (S i))%Z)
  /\ exists k,
       Coordinator.waitForAllProcesses 301 0 (fun i => 2 * Sample.seconds i)%Z
         (fun i => if (i <? 3)%nat then Sample.audio_still_running
                   else [Sample.transcriptProcess]) = Some k
       /\ (k <= 300)%nat.
Proof.
  assert (H0 : (0 <= 2 * Sample.seconds 0)%Z) by (unfold Sample.seconds; lia).
  assert (H1 : forall i, (2 * Sample.seconds i + 2000 <= 2 * Sample.seconds (S i))%Z)
    by (intros i; unfold Sample.seconds; lia).
  split; [exact H0|]. split; [exact H1|].
  destruct (waitForAllProcesses_stops_at_first_chance 0
              (fun i => 2 * Sample.seconds i)%Z
              (fun i => if (i <? 3)%nat then Sample.audio_still_running
                        else [Sample.transcriptProcess]) H0 H1)
    as (k & Hk & Hle & _).
  exists k. split; [exact Hk|exact Hle].
Defined.

(** X12.  In a run, the anchor wait never has to wait: the audio and the
    transcript adapter always return, [startParallelAnalysis] returns
    only after both processes are completed, and so the first poll (if it
    is made within the five minutes) returns the events, one per
    laughter peak of the audio analysis followed by one per laugh segment
    of the transcript, each at the start time of its peak or segment. *)
Theorem anchor_wait_returns_at_first_poll
    (videoId : string) (clock : nat -> Z) (analyzeVideo : Exc Adapters.VideoAnalysis)
    (audio : Adapters.AudioProvider) (transcript : Adapters.TranscriptProvider)
    (startTime : Z) (wait_clock : nat -> Z) (fuel : nat) :
  (wait_clock 0%nat - startTime < Coordinator.maxWaitTime)%Z ->
  exists a t ts,
    Adapters.analyzeAudio audio = Ok a
    /\ Adapters.analyzeTranscript transcript = Ok t
    /\ Coordinator.waitForLaughTimestamps (S fuel) startTime wait_clock
         (fun _ => Coordinator.startParallelAnalysis videoId clock analyzeVideo
                     (Adapters.analyzeAudio audio)
                     (Adapters.analyzeTranscript transcript))
       = Some ts
    /\ map LaughTimestamp.timestamp ts
       = map LaughterDetection.startTime (Adapters.laughterPeaks a)
         ++ map TranscriptSegment.startTime
              (Coordinator.findLaughSegments (Adapters.segments t))
    /\ map LaughTimestamp.source ts
       = repeat from_audio (List.length (Adapters.laughterPeaks a))
         ++ repeat from_transcript
              (List.length (Coordinator.findLaughSegments (Adapters.segments t))).
Proof.
  intros Htime.
  destruct (analyzeAudio_never_throws audio) as (a & Ha).
  destruct (analyzeTranscript_never_throws transcript) as (t & Ht).
  exists a, t. rewrite Ha, Ht.
  unfold Coordinator.waitForLaughTimestamps. simpl.
  apply Z.ltb_lt in Htime. rewrite Htime.
  eexists. split; [reflexivity|]. split; [reflexivity|].
  destruct analyzeVideo; simpl; (split; [reflexivity|]).
  all: rewrite !map_app;
    unfold Coordinator.audio_timestamps, Coordinator.transcript_timestamps;
    cbn [AnalysisProcess.result]; rewrite !map_map;
    cbn [LaughTimestamp.timestamp LaughTimestamp.source];
    split; f_equal;
    match goal with
    | |- map _ ?l = repeat _ _ => induction l; simpl; [reflexivity|f_equal; assumption]
    | _ => reflexivity
    end.
Qed.

Lemma anchor_wait_returns_at_first_poll_witness :
  (Sample.seconds 0 - 0 < Coordinator.maxWaitTime)%Z
  /\ exists ts,
       Coordinator.waitForLaughTimestamps 1 0 Sample.seconds
         (fun _ => Coordinator.startParallelAnalysis "v" Sample.seconds
                     (Adapters.analyzeVideo Sample.unreachable "v")
                     (Adapters.analyzeAudio Sample.silent)
                     (Adapters.analyzeTranscript Sample.captioned))
       = Some ts
       /\ map LaughTimestamp.timestamp ts = [42.0%Q].
Proof.
  assert (H : (Sample.seconds 0 - 0 < Coordinator.maxWaitTime)%Z) by reflexivity.
  split; [exact H|].
  destruct (anchor_wait_returns_at_first_poll "v" Sample.seconds
              (Adapters.analyzeVideo Sample.unreachable "v")
              Sample.silent Sample.captioned 0 Sample.seconds 0 H)
    as (a & t & ts & Ha & Ht & Hts & Htimes & _).
  exists ts. split; [exact Hts|].
  rewrite Htimes.
  injection Ha as <-. injection Ht as <-. reflexivity.
Defined.

(** X13.  A targeted scan never ends as failed: the coordinator's
    [analyzeVideoSegment] turns an error of the segment analysis into an
    empty answer, so [runTargetedVideoAnalysis] always leaves its record
    completed, with its window and anchor event in the result, and with
    no detection and no frame when the segment analysis threw. *)
Theorem targeted_scan_never_fails
    (p : AnalysisProcess.t) (startTime endTime : Q) (laughTimestamp : LaughTimestamp.t)
    (now : Z) :
  (forall segment,
     let p' := Coordinator.final p
                 (Coordinator.runTargetedVideoAnalysis startTime endTime laughTimestamp
                    segment now) in
     AnalysisProcess.status p' = completed
     /\ AnalysisProcess.endTime p' = Some now
     /\ AnalysisProcess.error p' = AnalysisProcess.error p
     /\ exists giftCodes frameAnalysis,
          AnalysisProcess.result p'
          = Some (TargetedResult giftCodes (startTime, endTime) laughTimestamp
                    frameAnalysis))
  /\ (forall e,
        AnalysisProcess.result
          (Coordinator.final p
             (Coordinator.runTargetedVideoAnalysis startTime endTime laughTimestamp
                (Throw e) now))
        = Some (TargetedResult [] (startTime, endTime) laughTimestamp []))
  /\ (forall result,
        AnalysisProcess.result
          (Coordinator.final p
             (Coordinator.runTargetedVideoAnalysis startTime endTime laughTimestamp
                (Ok result) now))
        = Some (TargetedResult (Adapters.giftCodes result) (startTime, endTime)
                  laughTimestamp (Adapters.frameAnalysis result))).
Proof.
  split; [|split; reflexivity].
  intros [result|e]; simpl; repeat split; eauto.
Qed.

(** ** aggregateResults *)

Lemma collect_step_not_completed acc p :
  Coordinator.has_status completed p = false -> Coordinator.collect_step acc p = acc.
Proof.
  unfold Coordinator.collect_step. intros ->. reflexivity.
Qed.

Lemma collect_filter_completed processes :
  forall acc,
    fold_left Coordinator.collect_step
      (List.filter (Coordinator.has_status completed) processes) acc
    = fold_left Coordinator.collect_step processes acc.
Proof.
  induction processes as [|p processes IH]; intros acc; simpl; [reflexivity|].
  destruct (Coordinator.has_status completed p) eqn:Hp; simpl.
  - apply IH.
  - rewrite (collect_step_not_completed acc p Hp). apply IH.
Qed.

(** X14.  The verdict depends on the completed processes alone: pending,
    running and failed processes can be removed from the list handed to
    [aggregateResults], or added to it anywhere, without changing
    anything in the verdict. *)
Theorem verdict_depends_on_completed_processes_only
    (processes : list AnalysisProcess.t) (videoId : string)
    (startTime processedAt now : Z) :
  Coordinator.aggregateResults processes videoId startTime processedAt now
  = Coordinator.aggregateResults
      (List.filter (Coordinator.has_status completed) processes)
      videoId startTime processedAt now.
Proof.
  unfold Coordinator.aggregateResults, Coordinator.collect.
  rewrite collect_filter_completed. reflexivity.
Qed.

(** X15.  The key findings are never empty and have at most three
    entries.  The entry for no significant findings is there exactly when
    there is neither a gift code nor a laughter event, and then it is the
    only one; otherwise the findings count the gift codes, the
    high-confidence ones if there are any, and the laughter events, in
    that order: the findings are what is left of these entries, in this
    order, when the ones that do not apply are struck out. *)
Theorem key_findings_are_never_empty
    (giftCodes : list GiftCodeDetection.t) (laughterEvents : list LaughterDetection.t) :
  let findings := Coordinator.generateKeyFindings giftCodes laughterEvents in
  (1 <= List.length findings <= 3)%nat
  /\ (In no_significant_findings findings <-> findings = [no_significant_findings])
  /\ (findings = [no_significant_findings] <-> giftCodes = [] /\ laughterEvents = [])
  /\ (forall n, In (found_codes n) findings <->
                n = List.length giftCodes /\ giftCodes <> [])
  /\ (forall n, In (laughter_events n) findings <->
                n = List.length laughterEvents /\ laughterEvents <> [])
  /\ (forall n, In (high_confidence_codes n) findings <->
                n = List.length (List.filter Coordinator.is_high_confidence giftCodes)
                /\ (0 < n)%nat)
  /\ sublist findings
       [found_codes (List.length giftCodes);
        high_confidence_codes
          (List.length (List.filter Coordinator.is_high_confidence giftCodes));
        laughter_events (List.length laughterEvents);
        no_significant_findings].
Proof.
  unfold Coordinator.generateKeyFindings.
  destruct giftCodes as [|g gs], laughterEvents as [|l ls];
    cbn [List.length Nat.ltb Nat.leb app];
    try destruct (List.filter Coordinator.is_high_confidence (g :: gs)) as [|h hs];
    cbn [List.length Nat.ltb Nat.leb Nat.eqb app].
  all: repeat split;
    try solve [repeat first [apply sublist_nil | apply sublist_skip | apply sublist_cons]].
  all: try lia; intros; simpl in *;
    repeat match goal with
           | H : _ \/ _ |- _ => destruct H
           | H : _ /\ _ |- _ => destruct H
           | H : False |- _ => destruct H
           | H : _ = _ |- _ => first [discriminate H | injection H as <- | subst]
           end;
    try congruence; try lia; auto.
Qed.





(** ** Time-anchored events *)

Lemma substring_0_length n :
  forall s, String.length (substring 0 n s) = Nat.min n (String.length s).
Proof.
  induction n as [|n IH]; intros [|c s]; simpl; try reflexivity.
  rewrite IH. reflexivity.
Qed.

Lemma substring_0_prefix n :
  forall s, String.prefix (substring 0 n s) s = true.
Proof.
  induction n as [|n IH]; intros [|c s]; simpl; try reflexivity.
  destruct (ascii_dec c c); [apply IH|contradiction].
Qed.

(** X17.  The events taken from a transcript process correspond one to
    one, in order, to its laugh segments: each has the start time and the
    confidence of its segment, the source transcript, and as context the
    text of the segment cut to its first 100 characters. *)
Theorem transcript_events_follow_laugh_segments
    (p : AnalysisProcess.t) (segments laughSegments : list TranscriptSegment.t)
    (keywords : list string) :
  AnalysisProcess.result p = Some (TranscriptResult segments laughSegments keywords) ->
  Forall2
    (fun segment event =>
       LaughTimestamp.timestamp event = TranscriptSegment.startTime segment
       /\ LaughTimestamp.confidence event = TranscriptSegment.confidence segment
       /\ LaughTimestamp.source event = from_transcript
       /\ exists context,
            LaughTimestamp.context event = text_context context
            /\ String.length context
               = Nat.min 100 (String.length (TranscriptSegment.text segment))
            /\ String.prefix context (TranscriptSegment.text segment) = true)
    laughSegments (Coordinator.transcript_timestamps p).
Proof.
  intros Hresult. unfold Coordinator.transcript_timestamps. rewrite Hresult.
  clear Hresult.
  induction laughSegments as [|segment rest IH]; cbn [map]; [constructor|].
  constructor; [|exact IH].
  split; [reflexivity|]. split; [reflexivity|]. split; [reflexivity|].
  eexists. split; [reflexivity|].
  split; [apply substring_0_length|apply substring_0_prefix].
Qed.

Lemma transcript_events_follow_laugh_segments_witness :
  AnalysisProcess.result Sample.transcriptProcess
  = Some (TranscriptResult [Sample.laugh_segment] [Sample.laugh_segment] ["funny"])
  /\ Forall2
       (fun segment event =>
          LaughTimestamp.timestamp event = TranscriptSegment.startTime segment
          /\ LaughTimestamp.confidence event = TranscriptSegment.confidence segment
          /\ LaughTimestamp.source event = from_transcript
          /\ exists context,
               LaughTimestamp.context event = text_context context
               /\ String.length context
                  = Nat.min 100 (String.length (TranscriptSegment.text segment))
               /\ String.prefix context (TranscriptSegment.text segment) = true)
       [Sample.laugh_segment] (Coordinator.transcript_timestamps Sample.transcriptProcess).
Proof.
  split; [reflexivity|].
  exact (transcript_events_follow_laugh_segments Sample.transcriptProcess
           [Sample.laugh_segment] [Sample.laugh_segment] ["funny"] eq_refl).
Defined.

(** ** The full scan and the verdict *)

Lemma analyzeVideo_giftCodes P videoId r :
  Adapters.analyzeVideo P videoId = Ok r ->
  Adapters.giftCodes r
  = Adapters.extractGiftCodesFromFrames (Adapters.frameAnalysis r) videoId.
Proof.
  unfold Adapters.analyzeVideo.
  destruct (Adapters.downloadVideo P) as [path|e]; simpl; [|discriminate].
  destruct (Adapters.video_cleanup P path); simpl; [|discriminate].
  intros [= <-]. reflexivity.
Qed.

(** X18.  When the frame-scan adapter returns and the full scan is the
    only completed process, the detections of the verdict are exactly the
    detections the adapter reported: the coordinator detects again on the
    frames without deduplicating across frames, and the aggregator's
    deduplication gives back the adapter's list, whose codes are pairwise
    distinct. *)
Theorem full_scan_detections_reach_the_verdict
    (P : Adapters.VideoProvider) (videoId : string) (r : Adapters.VideoAnalysis)
    (i : ProcessId) (created now startTime processedAt aggregated : Z) :
  Adapters.analyzeVideo P videoId = Ok r ->
  let p := Coordinator.final (Coordinator.new_process i full_video created)
             (Coordinator.runFullVideoAnalysis videoId (Ok r) now) in
  VideoAnalysisResult.giftCodes
    (Coordinator.aggregateResults [p] videoId startTime processedAt aggregated)
  = Adapters.giftCodes r
  /\ NoDup (map GiftCodeDetection.code (Adapters.giftCodes r)).
Proof.
  intros Hr p. subst p.
  rewrite (analyzeVideo_giftCodes P videoId r Hr).
  unfold Adapters.extractGiftCodesFromFrames.
  rewrite removeDuplicateGiftCodes_keep_first.
  split; [|apply keep_first_NoDup].
  unfold Coordinator.aggregateResults. cbn [VideoAnalysisResult.giftCodes].
  rewrite uniqueGiftCodes_keep_first. unfold Coordinator.collect.
  rewrite collect_allGiftCodes. simpl. rewrite app_nil_r. reflexivity.
Qed.

Lemma full_scan_detections_reach_the_verdict_witness :
  Adapters.analyzeVideo Sample.two_frames "v" = Ok Sample.two_frames_analysis
  /\ VideoAnalysisResult.giftCodes
       (Coordinator.aggregateResults
          [Coordinator.final
             (Coordinator.new_process (base_id full_video "v" 0) full_video 0)
             (Coordinator.runFullVideoAnalysis "v" (Ok Sample.two_frames_analysis) 1000)]
          "v" 0 2000 2000)
     = Adapters.giftCodes Sample.two_frames_analysis
  /\ List.length (Adapters.giftCodes Sample.two_frames_analysis) = 1%nat.
Proof.
  assert (H : Adapters.analyzeVideo Sample.two_frames "v" = Ok Sample.two_frames_analysis)
    by reflexivity.
  split; [exact H|].
  split; [|reflexivity].
  apply (full_scan_detections_reach_the_verdict Sample.two_frames "v"
           Sample.two_frames_analysis (base_id full_video "v" 0) 0 1000 0 2000 2000 H).
Defined.

(** ** analyzeVideoForGiftCodes *)

Lemma collect_allLaughterEvents (processes : list AnalysisProcess.t) :
  forall acc,
    Coordinator.allLaughterEvents (fold_left Coordinator.collect_step processes acc)
    = Coordinator.allLaughterEvents acc ++ flat_map Spec.laughter_of processes.
Proof.
  induction processes as [|p processes IH]; intros acc; simpl.
  - symmetry. apply app_nil_r.
  - rewrite IH. unfold Coordinator.collect_step, Spec.laughter_of,
      Coordinator.has_status.
    destruct (AnalysisProcess.status p); simpl; try reflexivity.
    destruct (AnalysisProcess.result p) as [[]|]; simpl;
      rewrite ?app_nil_r, <- ?List.app_assoc; reflexivity.
Qed.

Lemma startTargetedAnalysis_from_running videoId clock laughTimestamps :
  forall n,
    Forall (fun d => AnalysisProcess.status (Coordinator.process d) = running
                     /\ AnalysisProcess.result (Coordinator.process d) = None)
           (Coordinator.startTargetedAnalysis_from videoId clock n laughTimestamps).
Proof.
  induction laughTimestamps as [|t rest IH]; intros n; simpl; constructor.
  - simpl. auto.
  - apply IH.
Qed.

Lemma targeted_detections env dispatched :
  Forall (fun d => AnalysisProcess.status (Coordinator.process d) = running
                   /\ AnalysisProcess.result (Coordinator.process d) = None)
         dispatched ->
  flat_map Spec.detections_of (map (Coordinator.targeted_at_aggregation env) dispatched)
  = flat_map (Spec.answered_codes env) dispatched
  /\ flat_map Spec.laughter_of (map (Coordinator.targeted_at_aggregation env) dispatched)
     = [].
Proof.
  induction 1 as [|d ds [Hstatus Hresult] _ [IH1 IH2]]; simpl; [auto|].
  rewrite IH1, IH2.
  unfold Coordinator.targeted_at_aggregation, Spec.answered_codes,
    Spec.detections_of, Spec.laughter_of.
  destruct (Coordinator.segment_answer env d) as [[[result|e] now]|]; simpl;
    rewrite ?Hstatus; auto.
Qed.

(** X19.  One run, end to end.  When the audio and the transcript adapter
    have answered and the first poll of the anchor wait is made within
    the five minutes, [analyzeVideoForGiftCodes] returns a verdict; it
    dispatches one targeted scan per laughter peak and per laugh segment;
    the detections of the verdict are the first per code among those of
    the full scan followed by those of the targeted scans that have
    answered, in the order of their events; its laughter events are the
    peaks of the audio analysis; and its recommended action follows from
    its detections. *)
Theorem run_verdict
    (fuel : nat) (env : Coordinator.Run_environment) (videoId : string)
    (a : Adapters.AudioAnalysis) (t : Adapters.TranscriptAnalysis) :
  (Coordinator.anchor_wait_clock env 0%nat - Coordinator.anchor_wait_start env
   < Coordinator.maxWaitTime)%Z ->
  Coordinator.analyzeAudio env = Ok a ->
  Coordinator.analyzeTranscript env = Ok t ->
  exists events verdict,
    Coordinator.analyzeVideoForGiftCodes (S fuel) env videoId = Some verdict
    /\ map LaughTimestamp.timestamp events
       = map LaughterDetection.startTime (Adapters.laughterPeaks a)
         ++ map TranscriptSegment.startTime
              (Coordinator.findLaughSegments (Adapters.segments t))
    /\ VideoAnalysisResult.giftCodes verdict
       = Spec.keep_first GiftCodeDetection.code []
           (Spec.full_scan_codes videoId (Coordinator.analyzeVideo env)
            ++ flat_map (Spec.answered_codes env)
                 (Coordinator.startTargetedAnalysis videoId
                    (Coordinator.dispatch_clock env) events))
    /\ VideoAnalysisResult.laughterEvents verdict = Adapters.laughterPeaks a
    /\ recommendedAction (VideoAnalysisResult.summary verdict)
       = Spec.recommendedAction (VideoAnalysisResult.giftCodes verdict).
Proof.
  intros Htime Ha Ht. apply Z.ltb_lt in Htime.
  unfold Coordinator.analyzeVideoForGiftCodes, Coordinator.waitForLaughTimestamps.
  rewrite Ha, Ht. cbn [Coordinator.waitForLaughTimestamps_loop]. rewrite Htime.
  set (processes := Coordinator.startParallelAnalysis videoId _ _ _ _).
  assert (Hboth : exists ap tp,
    Coordinator.both_completed processes = Some (ap, tp)
    /\ Coordinator.audio_timestamps ap
       = map (fun laugh =>
                {| LaughTimestamp.timestamp := LaughterDetection.startTime laugh;
                   LaughTimestamp.confidence := LaughterDetection.confidence laugh;
                   LaughTimestamp.source := from_audio;
                   LaughTimestamp.context :=
                     laugh_context (LaughterDetection.type laugh)
                                   (LaughterDetection.intensity laugh) |})
             (Adapters.laughterPeaks a)
    /\ Coordinator.transcript_timestamps tp
       = map (fun segment =>
                {| LaughTimestamp.timestamp := TranscriptSegment.startTime segment;
                   LaughTimestamp.confidence := TranscriptSegment.confidence segment;
                   LaughTimestamp.source := from_transcript;
                   LaughTimestamp.context :=
                     text_context (substring 0 100 (TranscriptSegment.text segment)) |})
             (Coordinator.findLaughSegments (Adapters.segments t))).
  { unfold processes, Coordinator.startParallelAnalysis.
    destruct (Coordinator.analyzeVideo env); do 2 eexists;
      (split; [reflexivity|split; reflexivity]). }
  destruct Hboth as (ap & tp & Hboth & Hap & Htp). rewrite Hboth.
  exists (Coordinator.audio_timestamps ap ++ Coordinator.transcript_timestamps tp).
  eexists. split; [reflexivity|].
  split; [|split; [|split]].
  - rewrite Hap, Htp, map_app, !map_map. reflexivity.
  - unfold Coordinator.aggregateResults. cbn [VideoAnalysisResult.giftCodes].
    rewrite uniqueGiftCodes_keep_first. unfold Coordinator.collect.
    rewrite collect_allGiftCodes. cbn [Coordinator.allGiftCodes app].
    rewrite flat_map_app.
    destruct (targeted_detections env
                (Coordinator.startTargetedAnalysis videoId
                   (Coordinator.dispatch_clock env)
                   (Coordinator.audio_timestamps ap
                    ++ Coordinator.transcript_timestamps tp)))
      as [Htargeted _]; [apply startTargetedAnalysis_from_running|].
    rewrite Htargeted. f_equal. f_equal.
    unfold processes, Coordinator.startParallelAnalysis, Spec.full_scan_codes.
    destruct (Coordinator.analyzeVideo env); simpl; rewrite ?app_nil_r; reflexivity.
  - unfold Coordinator.aggregateResults. cbn [VideoAnalysisResult.laughterEvents].
    unfold Coordinator.collect.
    rewrite collect_allLaughterEvents. cbn [Coordinator.allLaughterEvents app].
    rewrite flat_map_app.
    destruct (targeted_detections env
                (Coordinator.startTargetedAnalysis videoId
                   (Coordinator.dispatch_clock env)
                   (Coordinator.audio_timestamps ap
                    ++ Coordinator.transcript_timestamps tp)))
      as [_ Hnone]; [apply startTargetedAnalysis_from_running|].
    rewrite Hnone, app_nil_r.
    unfold processes, Coordinator.startParallelAnalysis.
    destruct (Coordinator.analyzeVideo env); simpl; rewrite ?app_nil_r; reflexivity.
  - apply determineRecommendedAction_spec.
Qed.

Lemma run_verdict_witness :
  (Coordinator.anchor_wait_clock Sample.run 0%nat
   - Coordinator.anchor_wait_start Sample.run < Coordinator.maxWaitTime)%Z
  /\ Coordinator.analyzeTranscript Sample.run = Ok Sample.transcript_analysis
  /\ exists verdict,
       Coordinator.analyzeVideoForGiftCodes 1 Sample.run "v" = Some verdict
       /\ VideoAnalysisResult.giftCodes verdict
          = [Sample.detection "AAAA-112233-BBBB" 0.9]
       /\ recommendedAction (VideoAnalysisResult.summary verdict) = investigate.
Proof.
  assert (H : (Coordinator.anchor_wait_clock Sample.run 0%nat
               - Coordinator.anchor_wait_start Sample.run
               < Coordinator.maxWaitTime)%Z) by reflexivity.
  split; [exact H|]. split; [reflexivity|].
  destruct (run_verdict 0 Sample.run "v" _ Sample.transcript_analysis H eq_refl eq_refl)
    as (events & verdict & Hrun & _ & Hcodes & _ & Haction).
  exists verdict. split; [exact Hrun|].
  injection Hrun as <-. split; reflexivity.
Defined.

(** ** Further properties of the transcript analyzer *)

Lemma two_distinct_length {A} (a b : A) (l : list A) :
  In a l -> In b l -> a <> b -> (2 <= List.length l)%nat.
Proof.
  destruct l as [|x [|y l]]; simpl; try tauto; try lia.
  intros [->|[]] [->|[]] H. contradiction.
Qed.

Lemma includes_In list k : Transcript.includes list k = true <-> In k list.
Proof.
  unfold Transcript.includes. rewrite existsb_exists. split.
  - intros (x & Hx & Heq). apply String.eqb_eq in Heq. subst. exact Hx.
  - intros Hk. exists k. split; [exact Hk|apply String.eqb_refl].
Qed.

Lemma gift_and_other_keyword keywords other :
  (forall k, In k Transcript.giftKeywords -> In k other -> False) ->
  existsb (Transcript.includes Transcript.giftKeywords) keywords = true ->
  existsb (Transcript.includes other) keywords = true ->
  (2 <= List.length keywords)%nat.
Proof.
  intros Hdisjoint Hg Ho.
  apply existsb_exists in Hg as (k1 & Hk1 & Hg1).
  apply existsb_exists in Ho as (k2 & Hk2 & Ho2).
  apply includes_In in Hg1, Ho2.
  apply (two_distinct_length k1 k2); [exact Hk1|exact Hk2|].
  intros ->. eapply Hdisjoint; eassumption.
Qed.

(** X20.  The suspicious segments are segments of the transcript, in
    their order; every one of them has at least two keywords, and every
    segment with three or more keywords is among them. *)
Theorem suspicious_segments_have_two_keywords (segments : list TranscriptSegment.t) :
  let suspicious := Transcript.findSuspiciousSegments segments in
  sublist suspicious segments
  /\ Forall (fun segment => (2 <= List.length (TranscriptSegment.keywords segment))%nat)
            suspicious
  /\ incl (List.filter
             (fun segment => (3 <=? List.length (TranscriptSegment.keywords segment))%nat)
             segments)
          suspicious.
Proof.
  unfold Transcript.findSuspiciousSegments. split; [|split].
  - induction segments as [|segment rest IH]; simpl; [constructor|].
    destruct (Transcript.is_suspicious segment); [apply sublist_skip|apply sublist_cons];
      exact IH.
  - apply List.Forall_forall. intros segment Hin.
    apply filter_In in Hin as [_ Hs]. unfold Transcript.is_suspicious in Hs.
    destruct (0 <? List.length (TranscriptSegment.keywords segment))%nat; [|discriminate].
    apply orb_true_iff in Hs as [Hs|Hs]; [|apply Nat.leb_le in Hs; lia].
    apply orb_true_iff in Hs as [Hs|Hs]; apply andb_true_iff in Hs as [Hg Ho].
    + apply (gift_and_other_keyword _ Transcript.moneyKeywords); [|exact Hg|exact Ho].
      intros k Hk1 Hk2. simpl in Hk1, Hk2.
      repeat match goal with H : _ \/ _ |- _ => destruct H end;
        try contradiction; subst; discriminate.
    + apply (gift_and_other_keyword _ Transcript.actionKeywords); [|exact Hg|exact Ho].
      intros k Hk1 Hk2. simpl in Hk1, Hk2.
      repeat match goal with H : _ \/ _ |- _ => destruct H end;
        try contradiction; subst; discriminate.
  - intros segment Hin. apply filter_In in Hin as [Hin H3].
    apply filter_In. split; [exact Hin|].
    unfold Transcript.is_suspicious. apply Nat.leb_le in H3.
    replace (0 <? List.length (TranscriptSegment.keywords segment))%nat with true
      by (symmetry; apply Nat.ltb_lt; lia).
    apply orb_true_iff. right. apply Nat.leb_le. exact H3.
Qed.

Lemma Set_add_keep_first keywords :
  forall set,
    fold_left Transcript.Set_add keywords set
    = set ++ Spec.keep_first (fun k : string => k) set keywords.
Proof.
  induction keywords as [|k keywords IH]; intros set; simpl.
  - symmetry. apply app_nil_r.
  - rewrite IH. unfold Transcript.Set_add.
    destruct (existsb (String.eqb k) set) eqn:Hk.
    + destruct (decide (k ∈ set)) as [_|Hout]; [reflexivity|].
      exfalso. apply Hout. apply existsb_exists in Hk as (x & Hx & Heq).
      apply String.eqb_eq in Heq. subst. apply list_elem_of_In. exact Hx.
    + destruct (decide (k ∈ set)) as [Hin|_].
      * exfalso. apply list_elem_of_In in Hin.
        assert (existsb (String.eqb k) set = true)
          by (apply existsb_exists; exists k; split; [exact Hin|apply String.eqb_refl]).
        congruence.
      * rewrite <- List.app_assoc. simpl. f_equal. f_equal.
        apply keep_first_ext. intros k'.
        rewrite elem_of_app, list_elem_of_singleton, elem_of_cons. tauto.
Qed.

Lemma extractKeywords_keep_first segments :
  forall set,
    fold_left
      (fun allKeywords segment =>
         fold_left Transcript.Set_add (TranscriptSegment.keywords segment) allKeywords)
      segments set
    = set ++ Spec.keep_first (fun k : string => k) set
               (flat_map TranscriptSegment.keywords segments).
Proof.
  induction segments as [|segment rest IH]; intros set; simpl.
  - symmetry. apply app_nil_r.
  - rewrite IH, Set_add_keep_first, <- List.app_assoc. f_equal.
    generalize (TranscriptSegment.keywords segment) as ks.
    generalize (flat_map TranscriptSegment.keywords rest) as more.
    intros more ks. revert set.
    induction ks as [|k ks IHk]; intros set; simpl.
    + rewrite app_nil_r. reflexivity.
    + destruct (decide (k ∈ set)) as [Hin|Hout].
      * apply IHk.
      * simpl. f_equal. rewrite <- IHk. f_equal.
        apply keep_first_ext. intros k'.
        simpl. repeat (rewrite elem_of_app || rewrite elem_of_cons). tauto.
Qed.

(** X21.  [extractKeywords] returns every keyword of every segment once,
    in the order of first occurrence, and nothing else. *)
Theorem extractKeywords_has_each_keyword_once (segments : list TranscriptSegment.t) :
  NoDup (Transcript.extractKeywords segments)
  /\ (forall k, In k (Transcript.extractKeywords segments)
                <-> exists segment,
                      In segment segments /\ In k (TranscriptSegment.keywords segment))
  /\ Transcript.extractKeywords segments
     = Spec.keep_first (fun k : string => k) []
         (flat_map TranscriptSegment.keywords segments).
Proof.
  assert (E : Transcript.extractKeywords segments
              = Spec.keep_first (fun k : string => k) []
                  (flat_map TranscriptSegment.keywords segments))
    by (unfold Transcript.extractKeywords; rewrite extractKeywords_keep_first;
        reflexivity).
  split; [|split; [|exact E]].
  - rewrite E.
    pose proof (keep_first_NoDup (fun k : string => k) []
                  (flat_map TranscriptSegment.keywords segments)) as H.
    rewrite map_id in H. exact H.
  - intros k. rewrite E, <- in_flat_map. split.
    + apply keep_first_incl.
    + intros Hin.
      pose proof (keep_first_first_with (fun k : string => k) []
                    (flat_map TranscriptSegment.keywords segments) k
                    (not_elem_of_nil k)) as Hfirst.
      unfold Spec.first_with in Hfirst.
      destruct (List.find (fun a => bool_decide (a = k))
                  (flat_map TranscriptSegment.keywords segments)) as [x|] eqn:Hx.
      * apply find_some in Hfirst as [Hin' Heq].
        apply bool_decide_eq_true in Heq. subst. exact Hin'.
      * exfalso. eapply find_none in Hx; [|exact Hin].
        apply bool_decide_eq_false in Hx. contradiction.
Qed.

Lemma digit_facts c :
  JS.is_digit c = true ->
  Ascii.eqb c ":" = false /\ Ascii.eqb c "," = false /\ Ascii.eqb c "." = false
  /\ JS.space c = false /\ Ascii.eqb c "-" = false /\ Ascii.eqb c "+" = false.
Proof.
  destruct c as [[] [] [] [] [] [] [] []]; vm_compute; intros H;
    try discriminate H; repeat split.
Qed.

Lemma all_digits_free_of sep d :
  (forall c, JS.is_digit c = true -> Ascii.eqb c sep = false) ->
  Spec.all_digits d = true -> Spec.free_of sep d = true.
Proof.
  intros Hsep. induction d as [|c d IH]; simpl; [reflexivity|].
  intros H. apply andb_true_iff in H as [Hc Hd].
  rewrite (Hsep c Hc), IH by exact Hd. reflexivity.
Qed.

Lemma free_of_append sep a b :
  Spec.free_of sep (a ++ b)%string = Spec.free_of sep a && Spec.free_of sep b.
Proof.
  induction a as [|c a IH]; cbv beta iota delta [String.append]; fold String.append;
    simpl; [reflexivity|].
  rewrite IH. apply andb_assoc.
Qed.

Lemma replace_first_free a b d rest :
  Spec.free_of a d = true ->
  JS.replace_first a b (d ++ rest)%string = (d ++ JS.replace_first a b rest)%string.
Proof.
  induction d as [|c d IH]; cbv beta iota delta [String.append]; fold String.append;
    simpl; [reflexivity|].
  intros H. apply andb_true_iff in H as [Hc Hd].
  apply negb_true_iff in Hc. rewrite Hc, IH by exact Hd. reflexivity.
Qed.

Lemma replace_first_absent a b d :
  Spec.free_of a d = true -> JS.replace_first a b d = d.
Proof.
  induction d as [|c d IH]; simpl; [reflexivity|].
  intros H. apply andb_true_iff in H as [Hc Hd].
  apply negb_true_iff in Hc. rewrite Hc, IH by exact Hd. reflexivity.
Qed.

Lemma split_absent sep d :
  Spec.free_of sep d = true -> JS.split sep d = [d].
Proof.
  induction d as [|c d IH]; simpl; [reflexivity|].
  intros H. apply andb_true_iff in H as [Hc Hd].
  apply negb_true_iff in Hc. rewrite Hc, IH by exact Hd. reflexivity.
Qed.

Lemma split_at_first sep d rest :
  Spec.free_of sep d = true ->
  JS.split sep (d ++ String sep rest)%string = d :: JS.split sep rest.
Proof.
  induction d as [|c d IH]; cbv beta iota delta [String.append]; fold String.append;
    simpl.
  - rewrite Ascii.eqb_refl. reflexivity.
  - intros H. apply andb_true_iff in H as [Hc Hd].
    apply negb_true_iff in Hc. rewrite Hc, IH by exact Hd. reflexivity.
Qed.

Lemma read_digits_decimal d :
  Spec.all_digits d = true ->
  forall a,
    JS.read_digits d (Some a)
    = Some (a * 10 ^ Z.of_nat (String.length d) + Spec.decimal d)%Z.
Proof.
  induction d as [|c d IH]; intros H a.
  - simpl. f_equal. lia.
  - cbn [Spec.all_digits] in H. apply andb_true_iff in H as [Hc Hd].
    cbn [JS.read_digits Spec.decimal String.length]. rewrite Hc, IH by exact Hd.
    f_equal. rewrite Nat2Z.inj_succ, Z.pow_succ_r by lia. ring.
Qed.

Lemma parseInt_digits d :
  Spec.digits d = true -> JS.parseInt d = Some (Spec.decimal d).
Proof.
  destruct d as [|c d]; [discriminate|].
  cbn [Spec.digits Spec.all_digits]. intros H.
  apply andb_true_iff in H as [Hc Hd].
  destruct (digit_facts c Hc) as (_ & _ & _ & Hspace & Hminus & Hplus).
  unfold JS.parseInt. cbn [JS.skip_space]. rewrite Hspace, Hminus, Hplus.
  cbn [JS.read_digits]. rewrite Hc, read_digits_decimal by exact Hd.
  cbn [Spec.decimal]. f_equal.
Qed.

Lemma digits_all_digits d : Spec.digits d = true -> Spec.all_digits d = true.
Proof. destruct d; [discriminate|]. intros H; exact H. Qed.

Lemma decimal_nonnegative d : Spec.all_digits d = true -> (0 <= Spec.decimal d)%Z.
Proof.
  induction d as [|c d IH]; simpl; [lia|].
  intros H. apply andb_true_iff in H as [_ Hd].
  specialize (IH Hd). unfold JS.digit_value.
  assert (0 <= 10 ^ Z.of_nat (String.length d))%Z by (apply Z.pow_nonneg; lia).
  nia.
Qed.

(** X22.  A time string of three colon-separated digit fields, with or
    without a fraction after a comma or a dot, is read field by field as
    decimal numbers: hours * 3600 + minutes * 60 + seconds + fraction / 1000.
    A string without a colon is read as 0. *)
Theorem parseTimeString_reads_decimal_fields (hh mm ss fff : string) (sep : ascii) :
  sep = ","%char \/ sep = "."%char ->
  Spec.digits hh = true -> Spec.digits mm = true ->
  Spec.digits ss = true -> Spec.digits fff = true ->
  Transcript.parseTimeString (hh ++ ":" ++ mm ++ ":" ++ ss ++ String sep fff)%string
  = Some (Spec.time_of (Spec.decimal hh) (Spec.decimal mm) (Spec.decimal ss)
            (Spec.decimal fff))
  /\ Transcript.parseTimeString (hh ++ ":" ++ mm ++ ":" ++ ss)%string
     = Some (Spec.time_of (Spec.decimal hh) (Spec.decimal mm) (Spec.decimal ss) 0)
  /\ (forall timeStr, Spec.free_of ":" timeStr = true ->
                      Transcript.parseTimeString timeStr = Some 0%Q).
Proof.
  intros Hsep Hh Hm Hs Hf.
  pose proof (digits_all_digits _ Hh) as Ah.
  pose proof (digits_all_digits _ Hm) as Am.
  pose proof (digits_all_digits _ Hs) as As.
  pose proof (digits_all_digits _ Hf) as Af.
  assert (Fcomma : forall d, Spec.all_digits d = true -> Spec.free_of "," d = true)
    by (intros d; apply all_digits_free_of; intros c Hc; apply (digit_facts c Hc)).
  assert (Fcolon : forall d, Spec.all_digits d = true -> Spec.free_of ":" d = true)
    by (intros d; apply all_digits_free_of; intros c Hc; apply (digit_facts c Hc)).
  assert (Fdot : forall d, Spec.all_digits d = true -> Spec.free_of "." d = true)
    by (intros d; apply all_digits_free_of; intros c Hc; apply (digit_facts c Hc)).
  assert (Hreplaced :
            JS.replace_first "," "." (hh ++ ":" ++ mm ++ ":" ++ ss ++ String sep fff)%string
            = (hh ++ String ":" (mm ++ String ":" (ss ++ String "." fff)))%string).
  { rewrite (replace_first_free _ _ hh) by (apply Fcomma, Ah).
    cbv beta iota delta [String.append]; fold String.append. cbn [JS.replace_first].
    change (Ascii.eqb ":" ",") with false. cbv iota.
    rewrite (replace_first_free _ _ mm) by (apply Fcomma, Am).
    cbn [JS.replace_first]. change (Ascii.eqb ":" ",") with false. cbv iota.
    rewrite (replace_first_free _ _ ss) by (apply Fcomma, As).
    cbn [JS.replace_first].
    destruct Hsep as [-> | ->].
    - rewrite Ascii.eqb_refl. reflexivity.
    - change (Ascii.eqb "." ",") with false. cbv iota.
      rewrite (replace_first_absent _ _ fff) by (apply Fcomma, Af). reflexivity. }
  split; [|split].
  - unfold Transcript.parseTimeString. rewrite Hreplaced.
    rewrite (split_at_first ":" hh) by (apply Fcolon, Ah).
    rewrite (split_at_first ":" mm) by (apply Fcolon, Am).
    rewrite (split_absent ":" (ss ++ String "." fff)%string)
      by (rewrite free_of_append, (Fcolon ss As); simpl; apply Fcolon, Af).
    cbn [List.length Nat.eqb negb Transcript.nth_part nth].
    rewrite (split_at_first "." ss) by (apply Fdot, As).
    rewrite (split_absent "." fff) by (apply Fdot, Af).
    cbn [Transcript.nth_part nth].
    rewrite (parseInt_digits hh Hh), (parseInt_digits mm Hm), (parseInt_digits ss Hs).
    destruct fff as [|c rest]; [discriminate|].
    rewrite (parseInt_digits _ Hf). reflexivity.
  - unfold Transcript.parseTimeString.
    replace (hh ++ ":" ++ mm ++ ":" ++ ss)%string
      with (hh ++ String ":" (mm ++ String ":" ss))%string by reflexivity.
    rewrite replace_first_absent
      by (rewrite free_of_append, (Fcomma hh Ah); simpl;
          rewrite free_of_append, (Fcomma mm Am); simpl; apply Fcomma, As).
    rewrite (split_at_first ":" hh) by (apply Fcolon, Ah).
    rewrite (split_at_first ":" mm) by (apply Fcolon, Am).
    rewrite (split_absent ":" ss) by (apply Fcolon, As).
    cbn [List.length Nat.eqb negb Transcript.nth_part nth].
    rewrite (split_absent "." ss) by (apply Fdot, As).
    cbn [Transcript.nth_part nth].
    rewrite (parseInt_digits hh Hh), (parseInt_digits mm Hm), (parseInt_digits ss Hs).
    reflexivity.
  - intros timeStr Hfree. unfold Transcript.parseTimeString.
    assert (Hkept : Spec.free_of ":" (JS.replace_first "," "." timeStr) = true).
    { clear - Hfree. induction timeStr as [|c s IH]; simpl in *; [reflexivity|].
      apply andb_true_iff in Hfree as [Hc Hrest].
      destruct (Ascii.eqb c ","); simpl.
      - exact Hrest.
      - rewrite Hc, IH by exact Hrest. reflexivity. }
    rewrite split_absent by exact Hkept. reflexivity.
Qed.

Lemma parseTimeString_reads_decimal_fields_witness :
  Transcript.parseTimeString "01:02:03,045" = Some (Spec.time_of 1 2 3 45).
Proof.
  apply (parseTimeString_reads_decimal_fields "01" "02" "03" "045" ",");
    [left; reflexivity|reflexivity|reflexivity|reflexivity|reflexivity].
Defined.

(** ** Properties of the video processor *)

Ltac answer_calls :=
  repeat match goal with
         | |- context [Processor.updateJob ?sv ?i ?u] =>
             destruct (Processor.updateJob sv i u) as [[]|?] eqn:?; cbn
         | |- context [Processor.analyzeThumbnail ?sv ?u ?v] =>
             destruct (Processor.analyzeThumbnail sv u v) as [?|?] eqn:?; cbn
         | |- context [Processor.saveResult ?sv ?r] =>
             destruct (Processor.saveResult sv r) as [[]|?] eqn:?; cbn
         | |- context [Processor.analyzeVideoForGiftCodes ?sv ?v ?u ?t] =>
             destruct (Processor.analyzeVideoForGiftCodes sv v u t) as [?|?] eqn:?; cbn
         | |- context [Processor.hasMoneyThumbnail ?t] =>
             is_var t; destruct (Processor.hasMoneyThumbnail t) eqn:?; cbn
         | |- context [Processor.is_investigate ?a] =>
             destruct (Processor.is_investigate a) eqn:?; cbn
         end.

Ltac thrown :=
  split; [reflexivity|];
  split; [reflexivity|]; split; [reflexivity|];
  eexists; split; [reflexivity|]; congruence.

Ltac run_processVideo :=
  unfold Processor.processVideo, Processor.try_catch_in, Processor.updateJob_completed,
    Processor.createMinimalResult, Processor.compileCoordinatedResults,
    Processor.await, Processor.Date_now, Processor.throw, mbind, Processor.M_bind,
    mret, Processor.M_ret, Processor.start;
  cbn.

(** X23.  A video whose thumbnail shows no money is settled without the
    coordinator: whatever the database answers, the coordinator is not
    called and no notification is sent; and when the processor returns, it
    returns the minimal result with action [ignore], after exactly four
    calls. *)
Theorem thumbnail_without_money_skips_the_coordinator
    (sv : Processor.Services) (video : Processor.VideoMetadata)
    (job : Processor.ProcessingJob) (th : Processor.ThumbnailAnalysis) :
  Processor.analyzeThumbnail sv (Processor.thumbnailUrl video) (Processor.videoId video)
  = Ok th ->
  Processor.hasMoneyThumbnail th = false ->
  let run := Processor.processVideo sv video job Processor.start in
  existsb Processor.is_coordinator_call (Processor.calls (fst run)) = false
  /\ existsb Processor.is_notification (Processor.calls (fst run)) = false
  /\ forall res,
       snd run = Ok res ->
       Processor.summary res = Processor.counts 0 0 0 0 ignore
       /\ Processor.giftCodes res = None
       /\ Processor.thumbnailAnalysis res = th
       /\ Processor.processedAt res = Processor.now sv 2
       /\ Processor.processingDuration res
          = (Processor.now sv 3 - Processor.now sv 0)%Z
       /\ Processor.calls (fst run)
          = [Processor.database_updateJob (Processor.id job)
               {| Processor.status := Processor.job_processing;
                  Processor.startedAt := Some (Processor.now sv 1);
                  Processor.completedAt := None;
                  Processor.result := None;
                  Processor.error := None |};
             Processor.thumbnailAnalyzer_analyzeThumbnail
               (Processor.thumbnailUrl video) (Processor.videoId video);
             Processor.database_saveResult res;
             Processor.database_updateJob (Processor.id job)
               {| Processor.status := Processor.job_completed;
                  Processor.startedAt := None;
                  Processor.completedAt := Some (Processor.now sv 4);
                  Processor.result := Some res;
                  Processor.error := None |}].
Proof.
  intros Hth Hmoney. run_processVideo. rewrite !Hth. cbn. rewrite !Hmoney. cbn.
  answer_calls.
  all: split; [reflexivity|split; [reflexivity|]]; intros res Hres;
    try discriminate Hres; injection Hres as <-; repeat split; reflexivity.
Qed.

Lemma thumbnail_without_money_skips_the_coordinator_witness :
  let run := Processor.processVideo (Sample.services false) Sample.video Sample.job
               Processor.start in
  existsb Processor.is_coordinator_call (Processor.calls (fst run)) = false.
Proof.
  apply (thumbnail_without_money_skips_the_coordinator (Sample.services false)
           Sample.video Sample.job
           {| Processor.monetaryDetections := [];
              Processor.hasMoneyThumbnail := false |});
    reflexivity.
Defined.

(** X24.  The outcome of [processVideo] is recorded in the database.  When
    it returns a result, that result was saved and then the job was marked
    completed with it, and the job was never marked failed.  When it throws,
    its last call is the update that marks the job failed, with the message
    of the error that was caught; the error thrown is that one, unless the
    update itself fails. *)
Theorem processVideo_outcome_is_recorded
    (sv : Processor.Services) (video : Processor.VideoMetadata)
    (job : Processor.ProcessingJob) :
  let run := Processor.processVideo sv video job Processor.start in
  match snd run with
  | Ok res =>
      exists earlier t later,
        Processor.calls (fst run)
        = earlier
            ++ [Processor.database_saveResult res;
                Processor.database_updateJob (Processor.id job)
                  {| Processor.status := Processor.job_completed;
                     Processor.startedAt := None;
                     Processor.completedAt := Some t;
                     Processor.result := Some res;
                     Processor.error := None |}]
            ++ later
        /\ existsb Processor.marks_failed (Processor.calls (fst run)) = false
  | Throw message =>
      exists earlier updates,
        Processor.calls (fst run)
        = earlier ++ [Processor.database_updateJob (Processor.id job) updates]
        /\ Processor.status updates = Processor.job_failed
        /\ Processor.result updates = None
        /\ exists cause,
             Processor.error updates = Some cause
             /\ (Processor.updateJob sv (Processor.id job) updates = Ok tt ->
                 message = cause)
  end.
Proof.
  run_processVideo. answer_calls.
  all: first
    [ solve [eexists [_; _], _, _; split; reflexivity]
    | solve [eexists [_; _; _], _, _; split; reflexivity]
    | solve [eexists [_], _; thrown]
    | solve [eexists [_; _], _; thrown]
    | solve [eexists [_; _; _], _; thrown]
    | solve [eexists [_; _; _; _], _; thrown]
    | solve [eexists [_; _; _; _; _], _; thrown] ].
Qed.

Lemma is_investigate_true action :
  Processor.is_investigate action = true <-> action = investigate.
Proof. destruct action; simpl; split; congruence. Qed.

(** X25.  [sendNotification] is called with a result exactly when
    [processVideo] returns that result and its recommended action is
    [investigate]; in particular never when [processVideo] throws. *)
Theorem notification_iff_investigate
    (sv : Processor.Services) (video : Processor.VideoMetadata)
    (job : Processor.ProcessingJob) (res : Processor.Result) :
  let run := Processor.processVideo sv video job Processor.start in
  In (Processor.sendNotification res) (Processor.calls (fst run))
  <-> snd run = Ok res
      /\ Processor.summary_recommendedAction (Processor.summary res) = investigate.
Proof.
  run_processVideo. answer_calls.
  all: split;
    [ intros H; repeat (destruct H as [H|H]; try discriminate H); try contradiction;
      injection H as <-; (split; [reflexivity|cbn; apply is_investigate_true; assumption])
    | intros [H1 H2]; try discriminate H1; injection H1 as <-; cbn in H2;
      try discriminate H2;
      try (apply is_investigate_true in H2; congruence);
      simpl; tauto ].
Qed.

(** X26.  When the thumbnail shows money and [processVideo] returns, the
    coordinator was called with the watch URL of the video and answered;
    the result carries the coordinator's gift codes, laughter events, frame
    analysis and summary, the thumbnail analysis, and the time stamps read
    from the clock. *)
Theorem compiled_result_carries_the_coordinated_verdict
    (sv : Processor.Services) (video : Processor.VideoMetadata)
    (job : Processor.ProcessingJob) (th : Processor.ThumbnailAnalysis)
    (res : Processor.Result) :
  Processor.analyzeThumbnail sv (Processor.thumbnailUrl video) (Processor.videoId video)
  = Ok th ->
  Processor.hasMoneyThumbnail th = true ->
  let run := Processor.processVideo sv video job Processor.start in
  snd run = Ok res ->
  exists coordinatedResult,
    Processor.analyzeVideoForGiftCodes sv (Processor.videoId video)
      ("https://www.youtube.com/watch?v=" ++ Processor.videoId video)%string
      (Processor.thumbnailUrl video)
    = Ok coordinatedResult
    /\ In (Processor.processCoordinator_analyzeVideoForGiftCodes (Processor.videoId video)
             ("https://www.youtube.com/watch?v=" ++ Processor.videoId video)%string
             (Processor.thumbnailUrl video))
         (Processor.calls (fst run))
    /\ Processor.giftCodes res = Some (VideoAnalysisResult.giftCodes coordinatedResult)
    /\ Processor.laughterEvents res
       = Some (VideoAnalysisResult.laughterEvents coordinatedResult)
    /\ Processor.frameAnalysis res
       = Some (VideoAnalysisResult.frameAnalysis coordinatedResult)
    /\ Processor.summary res
       = Processor.coordinated (VideoAnalysisResult.summary coordinatedResult)
    /\ Processor.monetaryDetections (Processor.thumbnailAnalysis res)
       = Processor.monetaryDetections th
    /\ Processor.hasMoneyThumbnail (Processor.thumbnailAnalysis res) = true
    /\ Processor.result_videoId res = Processor.videoId video
    /\ Processor.processingDuration res
       = (Processor.now sv 2 - Processor.now sv 0)%Z
    /\ Processor.processedAt res = Processor.now sv 3.
Proof.
  intros Hth Hmoney. run_processVideo. unfold Processor.getVideoUrl.
  rewrite !Hth. cbn. rewrite !Hmoney. cbn.
  answer_calls.
  all: intros Hres; try discriminate Hres; injection Hres as <-;
    eexists; (split; [reflexivity|]); cbn; (split; [tauto|]); repeat split;
    reflexivity.
Qed.

Lemma compiled_result_carries_the_coordinated_verdict_witness :
  exists res coordinatedResult,
    snd (Processor.processVideo (Sample.services true) Sample.video Sample.job
           Processor.start) = Ok res
    /\ Processor.giftCodes res = Some (VideoAnalysisResult.giftCodes coordinatedResult).
Proof.
  eexists.
  destruct (compiled_result_carries_the_coordinated_verdict (Sample.services true)
              Sample.video Sample.job
              {| Processor.monetaryDetections := [];
                 Processor.hasMoneyThumbnail := true |}
              _ eq_refl eq_refl eq_refl) as (coordinatedResult & _ & _ & H & _).
  exists coordinatedResult. split; [reflexivity|exact H].
Defined.

Lemma aggregate_is_investigate processes videoId startTime processedAt now :
  Processor.is_investigate
    (recommendedAction
       (VideoAnalysisResult.summary
          (Coordinator.aggregateResults processes videoId startTime processedAt now)))
  = existsb Coordinator.is_high_confidence
      (Spec.keep_first GiftCodeDetection.code []
         (flat_map Spec.detections_of processes)).
Proof.
  unfold Coordinator.aggregateResults.
  cbn [VideoAnalysisResult.summary recommendedAction].
  rewrite determineRecommendedAction_spec, uniqueGiftCodes_keep_first.
  unfold Coordinator.collect. rewrite collect_allGiftCodes.
  cbn [Coordinator.allGiftCodes app].
  set (codes := Spec.keep_first GiftCodeDetection.code [] _).
  unfold Spec.recommendedAction.
  change (existsb (fun d => Qgtb (GiftCodeDetection.confidence d) 0.8) codes)
    with (existsb Coordinator.is_high_confidence codes).
  destruct (existsb Coordinator.is_high_confidence codes); [reflexivity|].
  destruct codes; reflexivity.
Qed.

(** X27.  Processor and coordinator together: when the thumbnail shows
    money, the coordinator aggregates the given processes and
    [processVideo] returns, a notification is sent exactly when, among the
    detections of the completed processes, one that is the first of its
    code has a confidence above 0.8. *)
Theorem notification_iff_first_detection_is_confident
    (sv : Processor.Services) (video : Processor.VideoMetadata)
    (job : Processor.ProcessingJob) (th : Processor.ThumbnailAnalysis)
    (processes : list AnalysisProcess.t) (startTime processedAt now : Z)
    (res : Processor.Result) :
  Processor.analyzeThumbnail sv (Processor.thumbnailUrl video) (Processor.videoId video)
  = Ok th ->
  Processor.hasMoneyThumbnail th = true ->
  Processor.analyzeVideoForGiftCodes sv (Processor.videoId video)
    (Processor.getVideoUrl (Processor.videoId video)) (Processor.thumbnailUrl video)
  = Ok (Coordinator.aggregateResults processes (Processor.videoId video)
          startTime processedAt now) ->
  let run := Processor.processVideo sv video job Processor.start in
  snd run = Ok res ->
  In (Processor.sendNotification res) (Processor.calls (fst run))
  <-> existsb Coordinator.is_high_confidence
        (Spec.keep_first GiftCodeDetection.code []
           (flat_map Spec.detections_of processes)) = true.
Proof.
  intros Hth Hmoney Hcoordinated.
  pose proof (aggregate_is_investigate processes (Processor.videoId video) startTime
                processedAt now) as Hverdict.
  set (coordinatedResult := Coordinator.aggregateResults _ _ _ _ _) in *.
  clearbody coordinatedResult. rewrite <- Hverdict. clear Hverdict.
  run_processVideo.
  rewrite !Hth. cbn. rewrite !Hmoney. cbn. rewrite !Hcoordinated. cbn.
  answer_calls.
  all: intros Hres; try discriminate Hres; injection Hres as <-.
  all: split;
    [ intros H; repeat (destruct H as [H|H]; try discriminate H); try contradiction;
      reflexivity
    | intros H; try discriminate H; simpl; tauto ].
Qed.

Lemma notification_iff_first_detection_is_confident_witness :
  exists res,
    snd (Processor.processVideo (Sample.services true) Sample.video Sample.job
           Processor.start) = Ok res
    /\ In (Processor.sendNotification res)
         (Processor.calls
            (fst (Processor.processVideo (Sample.services true) Sample.video Sample.job
                    Processor.start))).
Proof.
  eexists. split; [reflexivity|].
  apply (notification_iff_first_detection_is_confident (Sample.services true)
           Sample.video Sample.job
           {| Processor.monetaryDetections := [];
              Processor.hasMoneyThumbnail := true |}
           [Sample.scan_found 0.9] 0 0 0 _ eq_refl eq_refl eq_refl eq_refl).
  reflexivity.
Defined.

(** ** Laughter keywords *)

Lemma prefix_append n :
  forall s, String.prefix n s = true <-> exists post, s = (n ++ post)%string.
Proof.
  induction n as [|c n IH]; intros s.
  - split; [exists s; reflexivity|]. intros _. destruct s; reflexivity.
  - destruct s as [|d s]; cbv beta iota delta [String.append]; fold String.append;
      simpl.
    + split; [discriminate|]. intros (post & H). discriminate H.
    + destruct (ascii_dec c d) as [->|Hcd].
      * rewrite IH. split; intros (post & H); exists post; congruence.
      * split; [discriminate|]. intros (post & H). congruence.
Qed.

Lemma includes_append n s :
  JS.includes n s = true <-> exists pre post, s = (pre ++ n ++ post)%string.
Proof.
  split.
  - induction s as [|c s IH]; cbn [JS.includes].
    + destruct (String.prefix n "") eqn:Hp; [|discriminate].
      intros _. apply prefix_append in Hp as (post & ->).
      exists EmptyString, post. reflexivity.
    + destruct (String.prefix n (String c s)) eqn:Hp.
      * intros _. apply prefix_append in Hp as (post & ->).
        exists EmptyString, post. reflexivity.
      * intros H. apply IH in H as (pre & post & ->).
        exists (String c pre), post. reflexivity.
  - intros (pre & post & ->). induction pre as [|c pre IH].
    + assert (Hp : String.prefix n (n ++ post) = true)
        by (apply prefix_append; exists post; reflexivity).
      cbv beta iota delta [String.append]; fold String.append.
      destruct (n ++ post)%string; cbn [JS.includes]; rewrite Hp; reflexivity.
    + cbv beta iota delta [String.append]; fold String.append. cbn [JS.includes].
      destruct (String.prefix n _); [reflexivity|exact IH].
Qed.

Lemma append_associative (a b c : string) :
  ((a ++ b) ++ c)%string = (a ++ (b ++ c))%string.
Proof.
  induction a as [|x a IH]; cbv beta iota delta [String.append]; fold String.append;
    [reflexivity|].
  rewrite IH. reflexivity.
Qed.

Lemma includes_transitive a b s :
  JS.includes a b = true -> JS.includes b s = true -> JS.includes a s = true.
Proof.
  rewrite !includes_append. intros (p1 & q1 & ->) (p2 & q2 & ->).
  exists (p2 ++ p1)%string, (q1 ++ q2)%string.
  rewrite !append_associative. reflexivity.
Qed.

(** X28.  The laugh segments are segments of the transcript, in their
    order.  A segment is one of them exactly when its lower-cased text
    contains one of ten keywords: the keyword laughing never decides,
    because a text that contains it contains laugh.  The choice does not
    depend on the letter case of the text. *)
Theorem laugh_segments_by_ten_keywords (segments : list TranscriptSegment.t) :
  sublist (Coordinator.findLaughSegments segments) segments
  /\ Coordinator.findLaughSegments segments
     = List.filter
         (fun segment =>
            existsb
              (fun keyword =>
                 JS.includes keyword (JS.toLowerCase (TranscriptSegment.text segment)))
              ["laugh"; "lol"; "haha"; "hehe"; "giggle"; "chuckle"; "funny";
               "hilarious"; "joke"; "comedy"])
         segments
  /\ (forall s1 s2,
        Spec.differ_only_in_case (TranscriptSegment.text s1) (TranscriptSegment.text s2) ->
        Coordinator.findLaughSegments [s1] = [s1] ->
        Coordinator.findLaughSegments [s2] = [s2]).
Proof.
  split; [|split].
  - unfold Coordinator.findLaughSegments.
    induction segments as [|segment rest IH]; cbn [List.filter]; [constructor|].
    match goal with |- context [if ?b then _ else _] => destruct b end;
      [apply sublist_skip|apply sublist_cons]; exact IH.
  - unfold Coordinator.findLaughSegments. apply filter_ext. intros segment.
    set (text := JS.toLowerCase _).
    assert (H : JS.includes "laughing" text = true -> JS.includes "laugh" text = true)
      by (apply includes_transitive; reflexivity).
    unfold Coordinator.laughKeywords. cbn [existsb].
    destruct (JS.includes "laugh" text); [reflexivity|].
    destruct (JS.includes "laughing" text); [discriminate (H eq_refl)|reflexivity].
  - intros s1 s2 Hcase. unfold Coordinator.findLaughSegments. cbn [List.filter].
    rewrite (toLowerCase_differ_only_in_case _ _ Hcase).
    match goal with |- context [if ?b then _ else _] => destruct b end;
      [reflexivity|discriminate].
Qed.

(** X29.  [containsLaughter] depends on the transcription only up to letter
    case, and eight of its ten indicators decide: a text that contains haha
    contains hah, and one that contains laughing contains laugh. *)
Theorem containsLaughter_by_eight_indicators (transcription : string) :
  Audio.containsLaughter transcription
  = existsb (fun indicator => JS.includes indicator (JS.toLowerCase transcription))
      ["hehe"; "hah"; "laugh"; "lol"; "chuckle"; "giggle"; "chuckling"; "giggling"]
  /\ (forall other,
        Spec.differ_only_in_case transcription other ->
        Audio.containsLaughter other = Audio.containsLaughter transcription).
Proof.
  split.
  - unfold Audio.containsLaughter, Audio.laughterIndicators.
    set (text := JS.toLowerCase _).
    assert (H1 : JS.includes "haha" text = true -> JS.includes "hah" text = true)
      by (apply includes_transitive; reflexivity).
    assert (H2 : JS.includes "laughing" text = true -> JS.includes "laugh" text = true)
      by (apply includes_transitive; reflexivity).
    cbn [existsb].
    destruct (JS.includes "haha" text), (JS.includes "hehe" text),
      (JS.includes "hah" text), (JS.includes "laugh" text),
      (JS.includes "laughing" text);
      try reflexivity; try discriminate (H1 eq_refl); discriminate (H2 eq_refl).
  - intros other Hcase. unfold Audio.containsLaughter.
    rewrite (toLowerCase_differ_only_in_case _ _ Hcase). reflexivity.
Qed.
